(** * Tab strip and cross-window tab transfer of the site-specific browser

    A shallow embedding of the tab bookkeeping of [tabwidget.py],
    [browserwindow.py], [browser.py] and [dragtabbar.py], and the properties
    of the drag/transfer protocol proved about it.

    Python integers are [Z].  Python objects that are shared and mutated
    (windows) live in a store indexed by object identity; the process-wide
    window list holds references into that store.  The Qt containers the
    code delegates to ([QTabBar], [QStackedWidget]) are modelled by their
    documented behaviour on the sequence they hold. *)

From stdpp Require Import base list strings.
From Stdlib Require Import ZArith Lia.

Local Open Scope Z_scope.

(** ** Python list operations used on [Browser._windows] *)

Module PyList.
Section ops.
Context {A : Type} `{EqDecision A}.

(** [l.index(x)]: position of the first occurrence; [None] stands for
    the [ValueError] raised when [x] is absent. *)
Fixpoint index (x : A) (l : list A) : option nat :=
  match l with
  | [] => None
  | y :: l' => if decide (x = y) then Some 0%nat else S <$> index x l'
  end.

(** [l.remove(x)]: drops the first occurrence; [None] stands for the
    [ValueError] raised when [x] is absent. *)
Fixpoint remove (x : A) (l : list A) : option (list A) :=
  match l with
  | [] => None
  | y :: l' => if decide (x = y) then Some l' else (y ::.) <$> remove x l'
  end.

(** [l[i]]: a negative [i] counts from the end of the list; [None] stands
    for the [IndexError] raised outside [-len(l) <= i < len(l)]. *)
Definition getitem (l : list A) (i : Z) : option A :=
  if 0 <=? i then l !! Z.to_nat i
  else if - Z.of_nat (length l) <=? i then l !! Z.to_nat (Z.of_nat (length l) + i)
  else None.
End ops.
End PyList.

(** ** Integers handed to Qt

    A Python [int] that reaches a Qt method with a C++ [int] parameter (a
    tab index, a signal argument declared [int]) has to lie in the range
    of a C [int]: for any other value PySide raises [OverflowError] before
    the method runs.  The Qt operations below are what the C++ methods do
    with the [int] they receive; statements about calls that hand them an
    index taken from outside are made for indices in this range. *)
Definition c_int (z : Z) : Prop := - 2 ^ 31 <= z < 2 ^ 31.

Global Instance c_int_dec z : Decision (c_int z).
Proof. unfold c_int. apply _. Defined.

(** ** Widgets *)

Inductive QIcon := NullIcon | Icon (n : nat).

Record QPoint := mkPoint { px : Z; py : Z }.

Definition QPoint_sub (a b : QPoint) : QPoint :=
  mkPoint (px a - px b) (py a - py b).

(** A page widget.  [wid] is the object's identity; [isWebView] is the
    outcome of [isinstance(w, WebView)]; [fav_icon] is what
    [WebView.fav_icon()] returns. *)
Record QWidget := mkWidget { wid : nat; isWebView : bool; fav_icon : QIcon }.

Global Instance QIcon_eq_dec : EqDecision QIcon.
Proof. solve_decision. Defined.
Global Instance QPoint_eq_dec : EqDecision QPoint.
Proof. solve_decision. Defined.
Global Instance QWidget_eq_dec : EqDecision QWidget.
Proof. solve_decision. Defined.

(** Insertion of [x] before position [n] of [l] (at the end when
    [n] is the length). *)
Definition insert_at {A} (n : nat) (x : A) (l : list A) : list A :=
  take n l ++ x :: drop n l.

(** ** QStackedWidget: the sequence of page widgets

    Only the sequence is modelled.  The stack's own current-page pointer
    follows the tab bar through the [currentChanged] connection and is read
    by no operation below. *)

Module QStackedWidget.
Definition t := list QWidget.

Definition count (s : t) : Z := Z.of_nat (length s).

(** [widget(index)], for the C++ [int] it is handed ([c_int]): the null
    pointer ([None]) outside [0 <= index < count]. *)
Definition widget (s : t) (index : Z) : option QWidget :=
  if (0 <=? index) && (index <? count s) then s !! Z.to_nat index else None.

(** [removeWidget(w)]: takes the entry holding [w] out of the sequence;
    nothing happens when [w] is not in it. *)
Definition removeWidget (w : QWidget) (s : t) : t :=
  default s (PyList.remove w s).

(** [insertWidget(index, w)].  A widget sits in one layout slot: when [w]
    is already a page of the stack, the layout takes it out of its slot
    before it inserts it, so the page moves and the stack does not grow.
    The index is then read against the pages that are left, and an
    out-of-range index appends.  (A widget that is a page of another
    stack would be taken from there as well; the operations below remove
    a page from its strip before they insert it into another.) *)
Definition insertWidget (index : Z) (w : QWidget) (s : t) : t :=
  let s := removeWidget w s in
  let index := if (index <? 0) || (count s <? index) then count s else index in
  insert_at (Z.to_nat index) w s.
End QStackedWidget.

(** ** QTabBar: the sequence of visual tab entries and the current index *)

Module QTabBar.
(** A visual entry.  [owner] is specification state: it records for which
    page widget the entry was created, and no operation reads it. *)
Record Tab := mkTab { text : string; icon : QIcon; owner : QWidget }.

Record t := mk { tabList : list Tab; currentIndex : Z }.

Definition empty : t := mk [] (-1).

Definition count (b : t) : Z := Z.of_nat (length (tabList b)).

Definition validIndex (b : t) (index : Z) : bool :=
  (0 <=? index) && (index <? count b).

Definition setCurrentIndex (index : Z) (b : t) : t :=
  if validIndex b index then mk (tabList b) index else b.

(** [insertTab(index, icon, text)]: an out-of-range index appends; the
    first tab of an empty bar becomes current; an insertion at or before
    the current index keeps the current tab by incrementing the index.
    Returns the bar and the index of the new tab. *)
Definition insertTab (index : Z) (tab : Tab) (b : t) : t * Z :=
  let index := if validIndex b index then index else count b in
  let tabs := insert_at (Z.to_nat index) tab (tabList b) in
  let b' :=
    if (length tabs =? 1)%nat then setCurrentIndex index (mk tabs (currentIndex b))
    else if index <=? currentIndex b then mk tabs (currentIndex b + 1)
    else mk tabs (currentIndex b) in
  (b', index).

Definition addTab (tab : Tab) (b : t) : t * Z := insertTab (-1) tab b.

(** [removeTab(index)]: nothing happens for an invalid index.  When the
    current tab is removed the tab to its right becomes current (the
    default [SelectRightTab]), the last one if there is none, and [-1] on
    an empty bar; a removal before the current tab shifts the index. *)
Definition removeTab (index : Z) (b : t) : t :=
  if validIndex b index then
    let tabs := delete (Z.to_nat index) (tabList b) in
    if index =? currentIndex b then
      if (0 <? length tabs)%nat
      then mk tabs (Z.min index (Z.of_nat (length tabs) - 1))
      else mk tabs (-1)
    else if index <? currentIndex b then
      setCurrentIndex (currentIndex b - 1) (mk tabs (currentIndex b))
    else mk tabs (currentIndex b)
  else b.

Definition tabText (b : t) (index : Z) : string :=
  if validIndex b index
  then default ""%string (text <$> tabList b !! Z.to_nat index) else ""%string.

Definition tabIcon (b : t) (index : Z) : QIcon :=
  if validIndex b index
  then default NullIcon (icon <$> tabList b !! Z.to_nat index) else NullIcon.
End QTabBar.

(** ** TabWidget (tabwidget.py) *)

Module TabWidget.
Record t := mk { _tabbar : QTabBar.t; _stack : QStackedWidget.t }.

Definition empty : t := mk QTabBar.empty [].

Definition addTab (w : QWidget) (title : string) (icon : QIcon) (tw : t) : t * Z :=
  let '(bar, idx) := QTabBar.addTab (QTabBar.mkTab title icon w) (_tabbar tw) in
  (mk bar (QStackedWidget.insertWidget idx w (_stack tw)), idx).

Definition insertTab (index : Z) (w : QWidget) (title : string) (icon : QIcon)
    (tw : t) : t * Z :=
  let stack := QStackedWidget.insertWidget index w (_stack tw) in
  let '(bar, idx) := QTabBar.insertTab index (QTabBar.mkTab title icon w) (_tabbar tw) in
  (mk bar stack, idx).

Definition removeTab (index : Z) (tw : t) : t :=
  let stack :=
    match QStackedWidget.widget (_stack tw) index with
    | Some w => QStackedWidget.removeWidget w (_stack tw)
    | None => _stack tw
    end in
  mk (QTabBar.removeTab index (_tabbar tw)) stack.

Definition count (tw : t) : Z := QStackedWidget.count (_stack tw).

Definition setCurrentIndex (index : Z) (tw : t) : t :=
  if (0 <=? index) && (index <? count tw)
  then mk (QTabBar.setCurrentIndex index (_tabbar tw)) (_stack tw)
  else tw.

Definition currentIndex (tw : t) : Z := QTabBar.currentIndex (_tabbar tw).

Definition widget (tw : t) (index : Z) : option QWidget :=
  QStackedWidget.widget (_stack tw) index.

Definition tabText (tw : t) (index : Z) : string :=
  QTabBar.tabText (_tabbar tw) index.

Definition web_view (tw : t) (index : Z) : option QWidget :=
  match widget tw index with
  | Some w => if isWebView w then Some w else None
  | None => None
  end.

Definition current_web_view (tw : t) : option QWidget :=
  web_view tw (currentIndex tw).

Definition moveTab (from_index to_index : Z) (tw : t) : t :=
  if from_index =? to_index then tw
  else if (from_index <? 0) || (count tw <=? from_index) then tw
  else
    match QStackedWidget.widget (_stack tw) from_index with
    | None => tw
    | Some w =>
      let title := QTabBar.tabText (_tabbar tw) from_index in
      let icon := QTabBar.tabIcon (_tabbar tw) from_index in
      let stack := QStackedWidget.removeWidget w (_stack tw) in
      let bar := QTabBar.removeTab from_index (_tabbar tw) in
      let new_count := QStackedWidget.count stack in
      let to_index :=
        if 0 <? new_count then Z.max 0 (Z.min to_index new_count) else 0 in
      let stack := QStackedWidget.insertWidget to_index w stack in
      let bar := fst (QTabBar.insertTab to_index (QTabBar.mkTab title icon w) bar) in
      setCurrentIndex to_index (mk bar stack)
    end.

Definition next_tab (tw : t) : t :=
  let n := currentIndex tw + 1 in
  let n := if n =? count tw then 0 else n in
  setCurrentIndex n tw.

Definition previous_tab (tw : t) : t :=
  let n := currentIndex tw - 1 in
  let n := if n <? 0 then count tw - 1 else n in
  setCurrentIndex n tw.
End TabWidget.

(** ** BrowserWindow (browserwindow.py): the state one window owns *)

Module BrowserWindow.
(** [_drag_seq_accepted] holds whatever was last marked; the payload's
    [seq] is read with [payload.get("seq")], so Python's [None] is a
    possible value and is modelled by [None].  [pos] is the window
    position set by [move]; [closed] records that [closeEvent] ran. *)
Record t := mk {
  _tab_widget : TabWidget.t;
  _drag_seq_counter : Z;
  _drag_seq_accepted : option Z;
  pos : QPoint;
  closed : bool
}.

(** The state [__init__] leaves: no tab, counter 0, accepted -1. *)
Definition init : t := mk TabWidget.empty 0 (Some (-1)) (mkPoint 0 0) false.

Definition new_drag_seq (w : t) : t * Z :=
  let c := _drag_seq_counter w + 1 in
  (mk (_tab_widget w) c (_drag_seq_accepted w) (pos w) (closed w), c).

Definition mark_drag_seq_accepted (seq : option Z) (w : t) : t :=
  mk (_tab_widget w) (_drag_seq_counter w) seq (pos w) (closed w).

Definition was_drag_seq_accepted (w : t) (seq : option Z) : bool :=
  bool_decide (_drag_seq_accepted w = seq).

Definition with_tab_widget (f : TabWidget.t → TabWidget.t) (w : t) : t :=
  mk (f (_tab_widget w)) (_drag_seq_counter w) (_drag_seq_accepted w) (pos w) (closed w).

Definition move (p : QPoint) (w : t) : t :=
  mk (_tab_widget w) (_drag_seq_counter w) (_drag_seq_accepted w) p (closed w).

Definition set_closed (w : t) : t :=
  mk (_tab_widget w) (_drag_seq_counter w) (_drag_seq_accepted w) (pos w) true.
End BrowserWindow.

(** ** Browser (browser.py): the window objects and the window list *)

Module Browser.
(** [heap] holds every window object ever constructed, at the position
    that serves as its identity; [_windows] is the Python list of
    references to the open windows. *)
Record t := mk { heap : list BrowserWindow.t; _windows : list nat }.

Definition windows (b : t) : list nat := _windows b.

(** Dereference of a window reference (a reference that points nowhere
    reads as a fresh window; references in use always point into [heap]). *)
Definition window (b : t) (r : nat) : BrowserWindow.t :=
  default BrowserWindow.init (heap b !! r).

Definition tab_widget (b : t) (r : nat) : TabWidget.t :=
  BrowserWindow._tab_widget (window b r).

Definition update (r : nat) (f : BrowserWindow.t → BrowserWindow.t) (b : t) : t :=
  mk (alter f r (heap b)) (_windows b).

Definition update_tabs (r : nat) (f : TabWidget.t → TabWidget.t) (b : t) : t :=
  update r (BrowserWindow.with_tab_widget f) b.

(** [lookup_window(index)]: [self._windows[index]], [None] on [IndexError]. *)
Definition lookup_window (b : t) (index : Z) : option nat :=
  PyList.getitem (_windows b) index.

(** [create_hidden_window()]: constructs a window and appends it to the
    list; returns the reference to it. *)
Definition create_hidden_window (b : t) : t * nat :=
  let r := length (heap b) in
  (mk (heap b ++ [BrowserWindow.init]) (_windows b ++ [r]), r).
End Browser.

(** ** A Python call either returns or raises *)

Inductive PyExn := AttributeError.

Inductive result (A : Type) := Ok (a : A) | Raise (e : PyExn).
Arguments Ok {A} a.
Arguments Raise {A} e.

(** ** The BrowserWindow methods that reach into other windows

    Keyboard focus ([hasFocus], [setFocus]) and [show], [raise_],
    [activateWindow] change nothing in the tab collections, the window list
    or the acceptance flag.  What is kept of them is where a call can
    raise: [view.hasFocus()] on a missing view, and
    [current_web_view().setFocus()] when the current page is no web view. *)

Module Window.
(** [close()]: [closeEvent] removes the first reference to the window
    from the list ([ValueError] is swallowed) and the window closes. *)
Definition close (self : nat) (b : Browser.t) : Browser.t :=
  let ws := default (Browser._windows b) (PyList.remove self (Browser._windows b)) in
  Browser.update self BrowserWindow.set_closed (Browser.mk (Browser.heap b) ws).

Definition detach_offset : QPoint := mkPoint 60 20.

(** The body of [detach_tab_to_new_window]: the state it leaves, and the
    exception it stops with if it raises.  [has_focus] is what
    [view.hasFocus()] answers.  The first raise comes before anything is
    changed; the second comes after [removeTab], so the tab has left the
    strip and no window has been created for it. *)
Definition detach_tab_to_new_window_run (has_focus : bool) (self : nat) (from_index : Z)
    (global_pos : QPoint) (b : Browser.t) : Browser.t * option PyExn :=
  if TabWidget.count (Browser.tab_widget b self) =? 1 then
    (Browser.update self (BrowserWindow.move (QPoint_sub global_pos detach_offset)) b, None)
  else
    match TabWidget.web_view (Browser.tab_widget b self) from_index with
    | None => (b, Some AttributeError)   (* view.hasFocus() on None *)
    | Some view =>
      let txt := TabWidget.tabText (Browser.tab_widget b self) from_index in
      let b := Browser.update_tabs self (TabWidget.removeTab from_index) b in
      if has_focus && (0 <? TabWidget.count (Browser.tab_widget b self))
         && bool_decide (TabWidget.current_web_view (Browser.tab_widget b self) = None)
      then (b, Some AttributeError)   (* current_web_view().setFocus() on None *)
      else
        let '(b, child) := Browser.create_hidden_window b in
        let b := Browser.update_tabs child
                   (λ tw, fst (TabWidget.addTab view txt (fav_icon view) tw)) b in
        (Browser.update child (BrowserWindow.move (QPoint_sub global_pos detach_offset)) b,
         None)
    end.

(** [detach_tab_to_new_window(from_index, global_pos)] as a call: it
    returns, or it raises. *)
Definition detach_tab_to_new_window (has_focus : bool) (self : nat) (from_index : Z)
    (global_pos : QPoint) (b : Browser.t) : result Browser.t :=
  match detach_tab_to_new_window_run has_focus self from_index global_pos b with
  | (b', None) => Ok b'
  | (_, Some e) => Raise e
  end.

(** [receive_tab_from(src_window, src_index, dst_index)]: the state it
    leaves.  With [src_index] a [c_int] nothing in it raises: the view is
    tested before it is used, [dst_index] is clamped in Python and the
    focus calls are made on views that are there. *)
Definition receive_tab_from (self src_window : nat) (src_index dst_index : Z)
    (b : Browser.t) : Browser.t :=
  match TabWidget.web_view (Browser.tab_widget b src_window) src_index with
  | None => b
  | Some view =>
    let txt := TabWidget.tabText (Browser.tab_widget b src_window) src_index in
    let b := Browser.update_tabs src_window (TabWidget.removeTab src_index) b in
    let dst_index :=
      Z.max 0 (Z.min dst_index (TabWidget.count (Browser.tab_widget b self))) in
    let b := Browser.update_tabs self
               (λ tw, fst (TabWidget.insertTab dst_index view txt (fav_icon view) tw)) b in
    let b := Browser.update_tabs self (TabWidget.setCurrentIndex dst_index) b in
    if TabWidget.count (Browser.tab_widget b src_window) =? 0
    then close src_window b else b
  end.
End Window.

(** ** DragTabBar (dragtabbar.py) *)

Module DragTabBar.
(** The decoded transfer payload. *)
Record payload := mkPayload {
  src_window_index : Z;
  src_index : Z;
  seq : option Z
}.

(** What Qt's layout answers for a bar at the moment of an event:
    [tabAt(pos)] (-1 over empty strip space) and the x coordinate of
    [tabRect(i).center()]. *)
Record geometry := mkGeometry {
  tabAt : QPoint → Z;
  center_x : Z → Z
}.

Definition _compute_dst_index (g : geometry) (bar : QTabBar.t) (p : QPoint) : Z :=
  let idx := tabAt g p in
  if idx <? 0 then QTabBar.count bar
  else if px p <? center_x g idx then idx else idx + 1.

(** [browser.windows().index(w)], with -1 for [ValueError]. *)
Definition window_index (b : Browser.t) (w : nat) : Z :=
  match PyList.index w (Browser.windows b) with
  | Some i => Z.of_nat i
  | None => -1
  end.

(** [dropEvent] for an event that carries the application's MIME format,
    on the bar of window [dest].  The boolean is [true] when the event is
    accepted ([acceptProposedAction]) and [false] when it is ignored.
    In the cross-window branch the payload's tab index is an argument of
    the signal [tabInsertRequested(object, int, int)], whose slot is
    [receive_tab_from]: the branch is modelled for a [src_index] that is a
    [c_int], as every index [mouseMoveEvent] writes into a payload is (the
    emission fails for any other value). *)
Definition dropEvent (g : geometry) (dest : nat) (p : payload) (at_pos : QPoint)
    (b : Browser.t) : Browser.t * bool :=
  let dst_index :=
    _compute_dst_index g (TabWidget._tabbar (Browser.tab_widget b dest)) at_pos in
  let this_window_index := window_index b dest in
  if src_window_index p =? this_window_index then
    let dst_index := if src_index p <? dst_index then dst_index - 1 else dst_index in
    let b := Browser.update_tabs dest
               (TabWidget.moveTab (src_index p) (Z.max 0 dst_index)) b in
    (Browser.update dest (BrowserWindow.mark_drag_seq_accepted (seq p)) b, true)
  else
    match PyList.getitem (Browser.windows b) (src_window_index p) with
    | None => (b, false)
    | Some src_window =>
      let b := Window.receive_tab_from dest src_window (src_index p) dst_index b in
      (Browser.update src_window (BrowserWindow.mark_drag_seq_accepted (seq p)) b, true)
    end.

(** [mouseMoveEvent] once a tab is armed and the pointer has passed the
    drag threshold.  [exec] is [drag.exec]: the nested event loop in
    which drop targets handle the payload; [cursor] is [QCursor.pos()]
    when it returns; [has_focus] is what the dragged view answers to
    [hasFocus()] if it comes to a detach.  [tabDetachRequested.emit] runs
    the slot [detach_tab_to_new_window]; an exception raised in the slot
    is reported by PySide and does not reach the emitter, so the handler
    returns in every case, with the state the slot has left. *)
Definition mouseMoveEvent (exec : payload → Browser.t → Browser.t) (has_focus : bool)
    (src_win : nat) (drag_start_index : Z) (cursor : QPoint)
    (b : Browser.t) : result Browser.t :=
  let '(w, seq) := BrowserWindow.new_drag_seq (Browser.window b src_win) in
  let b := Browser.update src_win (λ _, w) b in
  let p := mkPayload (window_index b src_win) drag_start_index (Some seq) in
  let b := exec p b in
  if BrowserWindow.was_drag_seq_accepted (Browser.window b src_win) (Some seq)
  then Ok b
  else Ok (Window.detach_tab_to_new_window_run has_focus src_win drag_start_index cursor b).1.
End DragTabBar.

(** ** More of tabwidget.py: tab creation, selection by widget, closing *)

Module TabWidgetOps.
(** [QTabBar.setTabText] and [QTabBar.setTabIcon]: nothing happens for an
    invalid index. *)
Definition bar_setTabText (index : Z) (text : string) (b : QTabBar.t) : QTabBar.t :=
  if QTabBar.validIndex b index
  then QTabBar.mk
         (alter (λ tab, QTabBar.mkTab text (QTabBar.icon tab) (QTabBar.owner tab))
            (Z.to_nat index) (QTabBar.tabList b))
         (QTabBar.currentIndex b)
  else b.

Definition bar_setTabIcon (index : Z) (icon : QIcon) (b : QTabBar.t) : QTabBar.t :=
  if QTabBar.validIndex b index
  then QTabBar.mk
         (alter (λ tab, QTabBar.mkTab (QTabBar.text tab) icon (QTabBar.owner tab))
            (Z.to_nat index) (QTabBar.tabList b))
         (QTabBar.currentIndex b)
  else b.

Definition setTabText (index : Z) (text : string) (tw : TabWidget.t) : TabWidget.t :=
  TabWidget.mk (bar_setTabText index text (TabWidget._tabbar tw)) (TabWidget._stack tw).

Definition setTabIcon (index : Z) (icon : QIcon) (tw : TabWidget.t) : TabWidget.t :=
  TabWidget.mk (bar_setTabIcon index icon (TabWidget._tabbar tw)) (TabWidget._stack tw).

(** [indexOf(w)]: [QStackedWidget.indexOf], -1 when [w] is not a page. *)
Definition indexOf (tw : TabWidget.t) (w : QWidget) : Z :=
  match PyList.index w (TabWidget._stack tw) with
  | Some i => Z.of_nat i
  | None => -1
  end.

Definition setCurrentWidget (w : QWidget) (tw : TabWidget.t) : TabWidget.t :=
  let i := indexOf tw w in
  if i =? -1 then tw else TabWidget.setCurrentIndex i tw.

(** [create_background_tab()].  [web_view] is the object [WebView()]
    constructs and [title] what its [title()] answers; the page setup, the
    resize to the current page's size and [show] touch neither sequence. *)
Definition create_background_tab (web_view : QWidget) (title : string)
    (tw : TabWidget.t) : TabWidget.t :=
  let '(tw, index) := TabWidget.addTab web_view "(Untitled)" NullIcon tw in
  let tw := setTabIcon index (fav_icon web_view) tw in
  if decide (title = ""%string) then tw else setTabText index title tw.

Definition create_tab (web_view : QWidget) (title : string) (tw : TabWidget.t) : TabWidget.t :=
  setCurrentWidget web_view (create_background_tab web_view title tw).

(** [close_tab(index)] of the strip of window [self], for an [index] that
    is a [c_int] (it is handed to Qt at once).  [had_focus] is what
    [view.hasFocus()] answers; with focus and tabs left,
    [current_web_view().setFocus()] raises when the current page is no web
    view.  [deleteLater] is left out. *)
Definition close_tab (had_focus : bool) (self : nat) (index : Z)
    (b : Browser.t) : result Browser.t :=
  match TabWidget.web_view (Browser.tab_widget b self) index with
  | None => Ok b
  | Some view =>
    let b := Browser.update_tabs self (TabWidget.removeTab index) b in
    if had_focus && (0 <? TabWidget.count (Browser.tab_widget b self))
       && bool_decide (TabWidget.current_web_view (Browser.tab_widget b self) = None)
    then Raise AttributeError
    else if TabWidget.count (Browser.tab_widget b self) =? 0
    then Ok (Window.close self b) else Ok b
  end.

(** [range(start, stop, -1)]: start, start - 1, ..., stop + 1. *)
Definition range_down (start stop : Z) : list Z :=
  reverse (seqZ (stop + 1) (start - stop)).

(** A [for] loop whose body may raise. *)
Fixpoint for_each (indices : list Z) (body : Z → Browser.t → result Browser.t)
    (b : Browser.t) : result Browser.t :=
  match indices with
  | [] => Ok b
  | i :: indices =>
    match body i b with
    | Ok b' => for_each indices body b'
    | Raise e => Raise e
    end
  end.

(** [close_other_tabs(index)].  [had_focus i] is what [view.hasFocus()]
    answers inside the call [close_tab(i)]. *)
Definition close_other_tabs (had_focus : Z → bool) (self : nat) (index : Z)
    (b : Browser.t) : result Browser.t :=
  match for_each (range_down (TabWidget.count (Browser.tab_widget b self) - 1) index)
          (λ i, close_tab (had_focus i) self i) b with
  | Raise e => Raise e
  | Ok b => for_each (range_down (index - 1) (-1)) (λ i, close_tab (had_focus i) self i) b
  end.

(** [_window_close_requested(web_view)].  [inspected] is whether
    [web_view.page().inspectedPage()] is set, which it is in a developer
    tools window. *)
Definition _window_close_requested (inspected had_focus : bool) (self : nat)
    (web_view : QWidget) (b : Browser.t) : result Browser.t :=
  let index := indexOf (Browser.tab_widget b self) web_view in
  if inspected then Ok (Window.close self b)
  else if 0 <=? index then close_tab had_focus self index b
  else Ok b.
End TabWidgetOps.

(** ** More of browserwindow.py and browser.py *)

Module WindowOps.
(** [take_tab(index)]: the page widget and the title at [index], and the
    window without that tab. *)
Definition take_tab (index : Z) (w : BrowserWindow.t)
    : BrowserWindow.t * (option QWidget * string) :=
  let page := TabWidget.widget (BrowserWindow._tab_widget w) index in
  let title := TabWidget.tabText (BrowserWindow._tab_widget w) index in
  (BrowserWindow.with_tab_widget (TabWidget.removeTab index) w, (page, title)).

(** [_close_current_tab()]. *)
Definition _close_current_tab (had_focus : bool) (self : nat) (b : Browser.t)
    : result Browser.t :=
  TabWidgetOps.close_tab had_focus self
    (TabWidget.currentIndex (Browser.tab_widget b self)) b.

(** [Browser._remove_window] for the sender [w]: deletes the entry at
    [index(w)] when [w] is in the list. *)
Definition _remove_window (w : nat) (b : Browser.t) : Browser.t :=
  match PyList.index w (Browser._windows b) with
  | Some i => Browser.mk (Browser.heap b) (delete i (Browser._windows b))
  | None => b
  end.

(** [Browser.create_window()]: a hidden window, one tab in it made
    current; [set_url] only loads the page and [show] only displays. *)
Definition create_window (web_view : QWidget) (title : string) (b : Browser.t)
    : Browser.t * nat :=
  let '(b, main_window) := Browser.create_hidden_window b in
  (Browser.update_tabs main_window (TabWidgetOps.create_tab web_view title) b, main_window).
End WindowOps.

(** ** More of dragtabbar.py: the uniform tab width *)

Module DragTabBarLayout.
Definition BASE_TAB_W : Z := 160.
Definition MIN_TAB_W : Z := 8.

(** The sizing state of a bar. *)
Record t := mk { _uniform_tab_width : Z; _last_applied_width : Z }.

(** The values [__init__] assigns, which is the sizing state at the first
    call of [_recompute_uniform_width]. *)
Definition init : t := mk BASE_TAB_W (-1).

(** [_available_width_for_tabs()]: [width] is the bar's width, [plus_w]
    the plus button's, [scroll_w] what [_scroll_buttons_total_width()]
    answers and [m] the style's frame width. *)
Definition _available_width_for_tabs (width plus_w scroll_w m : Z) : Z :=
  Z.max 0 (width - plus_w - scroll_w - m * 2 - 8).

(** The width [_recompute_uniform_width] decides on, for [count] tabs and
    [avail] pixels. *)
Definition target_width (count avail : Z) : Z :=
  let n := Z.max 1 count in
  let need := n * BASE_TAB_W in
  if need <=? avail then BASE_TAB_W else Z.max MIN_TAB_W (avail / n).

Definition _recompute_uniform_width (count avail : Z) (s : t) : t :=
  let target := target_width count avail in
  if target =? _last_applied_width s then s else mk target target.

End DragTabBarLayout.

(** * Properties *)

(** Closes a decidable goal about concrete data by evaluation. *)
Ltac by_compute := apply (bool_decide_unpack _); vm_compute; exact I.

(** ** Sequences: removal by identity, insertion by position *)

Section list_facts.
Context {A : Type} `{EqDecision A}.
Implicit Types (l : list A) (x : A) (i k : nat).

Lemma remove_at_lookup l i x :
  NoDup l → l !! i = Some x → PyList.remove x l = Some (delete i l).
Proof.
  intros Hnd. revert i. induction Hnd as [|y l Hy Hnd IH]; intros i Hi; [done|].
  destruct i as [|i]; simpl in *.
  - simplify_eq. by rewrite decide_True.
  - rewrite decide_False.
    + by rewrite (IH i Hi).
    + intros ->. apply Hy. by eapply list_elem_of_lookup_2.
Qed.

Lemma remove_absent l x : x ∉ l → PyList.remove x l = None.
Proof.
  induction l as [|y l IH]; [done|]. intros [Hxy Hx]%not_elem_of_cons. simpl.
  rewrite decide_False by done. by rewrite IH.
Qed.

Lemma not_elem_of_delete_NoDup i x l : NoDup l → l !! i = Some x → x ∉ delete i l.
Proof.
  intros Hnd Hi [j Hj]%list_elem_of_lookup_1.
  destruct (decide (j < i)%nat).
  - rewrite list_lookup_delete_lt in Hj by done.
    pose proof (NoDup_lookup _ _ _ _ Hnd Hi Hj). lia.
  - rewrite list_lookup_delete_ge in Hj by lia.
    pose proof (NoDup_lookup _ _ _ _ Hnd Hi Hj). lia.
Qed.

Lemma length_delete_lookup i x l : l !! i = Some x → length l = S (length (delete i l)).
Proof.
  intros Hi. rewrite length_delete by eauto.
  apply lookup_lt_Some in Hi. lia.
Qed.

Lemma length_insert_at k x l : length (insert_at k x l) = S (length l).
Proof.
  unfold insert_at. rewrite length_app. simpl.
  rewrite length_take, length_drop. lia.
Qed.

Lemma lookup_insert_at k x l : (k ≤ length l)%nat → insert_at k x l !! k = Some x.
Proof.
  intros Hk. unfold insert_at.
  rewrite lookup_app_r by (rewrite length_take; lia).
  rewrite length_take, Nat.min_l by done. by rewrite Nat.sub_diag.
Qed.

Lemma delete_insert_at k x l : (k ≤ length l)%nat → delete k (insert_at k x l) = l.
Proof.
  intros Hk. unfold insert_at.
  assert (k = length (take k l)) as Hlen by (rewrite length_take; lia).
  rewrite Hlen at 1. rewrite delete_middle. apply take_drop.
Qed.

Lemma insert_at_Permutation k x l : insert_at k x l ≡ₚ x :: l.
Proof.
  unfold insert_at. rewrite <-Permutation_middle. by rewrite take_drop.
Qed.

Lemma insert_at_end x l : insert_at (length l) x l = l ++ [x].
Proof. unfold insert_at. by rewrite take_ge, drop_ge by lia. Qed.

Lemma insert_at_delete_Permutation i k x l :
  l !! i = Some x → insert_at k x (delete i l) ≡ₚ l.
Proof.
  intros Hi. rewrite insert_at_Permutation. symmetry. by apply delete_Permutation.
Qed.

Lemma NoDup_insert_at k x l : NoDup l → x ∉ l → NoDup (insert_at k x l).
Proof.
  intros Hnd Hx. rewrite insert_at_Permutation. by constructor.
Qed.

Lemma NoDup_delete i l : NoDup l → NoDup (delete i l).
Proof. intros Hnd. eapply sublist_NoDup; [done|apply sublist_delete]. Qed.
End list_facts.

Lemma fmap_insert_at {A B} (f : A → B) k x (l : list A) :
  f <$> insert_at k x l = insert_at k (f x) (f <$> l).
Proof. unfold insert_at. by rewrite fmap_app, fmap_cons, fmap_take, fmap_drop. Qed.

(** ** The two sequences of a TabWidget *)

Definition tabs (tw : TabWidget.t) : list QTabBar.Tab :=
  QTabBar.tabList (TabWidget._tabbar tw).

Definition views (tw : TabWidget.t) : list QWidget := TabWidget._stack tw.

(** Index alignment as the strip's invariant states it: equally many visual
    entries and content views, and the view of the entry at [i] is the
    widget at stack position [i]. *)
Definition aligned (tw : TabWidget.t) : Prop :=
  length (tabs tw) = length (views tw) ∧
  ∀ (i : nat) tab, tabs tw !! i = Some tab → views tw !! i = Some (QTabBar.owner tab).

(** A widget sits in a stack at most once (Qt keeps a widget in one layout
    slot), which is what makes removal by identity remove the tab meant. *)
Definition consistent (tw : TabWidget.t) : Prop :=
  QTabBar.owner <$> tabs tw = views tw ∧ NoDup (views tw).

(** The position at which [insertWidget] and [insertTab] place a new entry
    in a sequence of length [n]. *)
Definition insert_pos (index : Z) (n : nat) : nat :=
  if (0 <=? index) && (index <=? Z.of_nat n) then Z.to_nat index else n.

Lemma aligned_fmap tw : aligned tw ↔ QTabBar.owner <$> tabs tw = views tw.
Proof.
  split.
  - intros [Hlen Hal]. apply list_eq. intros i. rewrite list_lookup_fmap.
    destruct (tabs tw !! i) as [tab|] eqn:Hi; simpl.
    + symmetry. by apply Hal.
    + symmetry. apply lookup_ge_None. apply lookup_ge_None in Hi. lia.
  - intros Heq. split.
    + by rewrite <-Heq, length_fmap.
    + intros i tab Hi. by rewrite <-Heq, list_lookup_fmap, Hi.
Qed.

Lemma consistent_aligned tw : consistent tw → aligned tw.
Proof. intros [? _]. by apply aligned_fmap. Qed.

Lemma consistent_length tw : consistent tw → length (tabs tw) = length (views tw).
Proof. intros [<- _]. by rewrite length_fmap. Qed.

Lemma consistent_empty : consistent TabWidget.empty.
Proof. split; [done|constructor]. Qed.

Lemma stack_widget_Some (s : QStackedWidget.t) index w :
  QStackedWidget.widget s index = Some w ↔ 0 <= index ∧ s !! Z.to_nat index = Some w.
Proof.
  unfold QStackedWidget.widget, QStackedWidget.count.
  destruct (Z.leb_spec 0 index); destruct (Z.ltb_spec index (Z.of_nat (length s))); simpl.
  - split; [by split|by intros [_ ?]].
  - split; [done|]. intros [_ Hl%lookup_lt_Some]. lia.
  - split; [done|]. intros [? _]. lia.
  - split; [done|]. intros [? _]. lia.
Qed.

Lemma stack_widget_None (s : QStackedWidget.t) index :
  QStackedWidget.widget s index = None ↔ index < 0 ∨ Z.of_nat (length s) <= index.
Proof.
  unfold QStackedWidget.widget, QStackedWidget.count.
  destruct (Z.leb_spec 0 index); destruct (Z.ltb_spec index (Z.of_nat (length s))); simpl.
  - rewrite lookup_ge_None. lia.
  - split; [lia|done].
  - split; [lia|done].
  - split; [lia|done].
Qed.

Lemma stack_removeWidget_absent w (s : QStackedWidget.t) :
  w ∉ s → QStackedWidget.removeWidget w s = s.
Proof. intros Hw. unfold QStackedWidget.removeWidget. by rewrite remove_absent. Qed.

Lemma stack_insertWidget_pos index w (s : QStackedWidget.t) :
  w ∉ s →
  QStackedWidget.insertWidget index w s = insert_at (insert_pos index (length s)) w s.
Proof.
  intros Hw. unfold QStackedWidget.insertWidget. rewrite stack_removeWidget_absent by done.
  unfold QStackedWidget.count, insert_pos.
  destruct (index <? 0) eqn:H0; destruct (Z.of_nat (length s) <? index) eqn:H1;
    destruct (0 <=? index) eqn:H2; destruct (index <=? Z.of_nat (length s)) eqn:H3;
    simpl; try lia; by rewrite ?Nat2Z.id.
Qed.

Lemma bar_insertTab_tabs index tab (b : QTabBar.t) :
  QTabBar.tabList (QTabBar.insertTab index tab b).1
  = insert_at (insert_pos index (length (QTabBar.tabList b))) tab (QTabBar.tabList b).
Proof.
  unfold QTabBar.insertTab, QTabBar.setCurrentIndex, QTabBar.validIndex, QTabBar.count, insert_pos.
  simpl.
  assert (Z.to_nat (if (0 <=? index) && (index <? Z.of_nat (length (QTabBar.tabList b)))
                    then index else Z.of_nat (length (QTabBar.tabList b)))
          = if (0 <=? index) && (index <=? Z.of_nat (length (QTabBar.tabList b)))
            then Z.to_nat index else length (QTabBar.tabList b)) as ->.
  { destruct (0 <=? index) eqn:H0; destruct (index <? _) eqn:H1;
      destruct (index <=? _) eqn:H2; simpl; lia. }
  repeat case_match; done.
Qed.

Lemma bar_insertTab_index index tab (b : QTabBar.t) :
  (QTabBar.insertTab index tab b).2
  = Z.of_nat (insert_pos index (length (QTabBar.tabList b))).
Proof.
  unfold QTabBar.insertTab, QTabBar.validIndex, QTabBar.count, insert_pos. simpl.
  destruct (0 <=? index) eqn:H0; destruct (index <? _) eqn:H1;
    destruct (index <=? _) eqn:H2; simpl; lia.
Qed.

Lemma bar_setCurrentIndex_tabs index (b : QTabBar.t) :
  QTabBar.tabList (QTabBar.setCurrentIndex index b) = QTabBar.tabList b.
Proof. unfold QTabBar.setCurrentIndex. by case_match. Qed.

Lemma bar_removeTab_tabs index (b : QTabBar.t) :
  QTabBar.tabList (QTabBar.removeTab index b)
  = if QTabBar.validIndex b index then delete (Z.to_nat index) (QTabBar.tabList b)
    else QTabBar.tabList b.
Proof.
  unfold QTabBar.removeTab. destruct (QTabBar.validIndex b index); [|done].
  repeat case_match; rewrite ?bar_setCurrentIndex_tabs; done.
Qed.

Lemma insert_pos_in_range index n :
  0 <= index <= Z.of_nat n → insert_pos index n = Z.to_nat index.
Proof.
  intros ?. unfold insert_pos.
  destruct (0 <=? index) eqn:H0; destruct (index <=? _) eqn:H1; simpl; lia.
Qed.

(** ** What each strip operation does to the two sequences *)

Lemma setCurrentIndex_tabs index tw : tabs (TabWidget.setCurrentIndex index tw) = tabs tw.
Proof.
  unfold TabWidget.setCurrentIndex, tabs. case_match; [|done].
  simpl. apply bar_setCurrentIndex_tabs.
Qed.

Lemma setCurrentIndex_views index tw : views (TabWidget.setCurrentIndex index tw) = views tw.
Proof. unfold TabWidget.setCurrentIndex, views. by case_match. Qed.

Lemma setCurrentIndex_current index tw :
  length (tabs tw) = length (views tw) →
  0 <= index < TabWidget.count tw →
  TabWidget.currentIndex (TabWidget.setCurrentIndex index tw) = index.
Proof.
  intros Hlen Hr.
  unfold TabWidget.setCurrentIndex, TabWidget.currentIndex, QTabBar.setCurrentIndex,
    QTabBar.validIndex, QTabBar.count.
  unfold TabWidget.count, QStackedWidget.count, tabs, views in *.
  destruct (Z.leb_spec 0 index); [|lia].
  destruct (Z.ltb_spec index (Z.of_nat (length (TabWidget._stack tw)))); [|lia].
  simpl. rewrite Hlen.
  destruct (Z.ltb_spec index (Z.of_nat (length (TabWidget._stack tw)))); [done|lia].
Qed.

Lemma insertTab_seqs index w title icon tw :
  length (tabs tw) = length (views tw) → w ∉ views tw →
  let k := insert_pos index (length (views tw)) in
  tabs (TabWidget.insertTab index w title icon tw).1
    = insert_at k (QTabBar.mkTab title icon w) (tabs tw)
  ∧ views (TabWidget.insertTab index w title icon tw).1 = insert_at k w (views tw)
  ∧ (TabWidget.insertTab index w title icon tw).2 = Z.of_nat k.
Proof.
  intros Hlen Hnew k. unfold TabWidget.insertTab.
  pose proof (bar_insertTab_tabs index (QTabBar.mkTab title icon w) (TabWidget._tabbar tw)) as Ht.
  pose proof (bar_insertTab_index index (QTabBar.mkTab title icon w) (TabWidget._tabbar tw)) as Hi.
  destruct (QTabBar.insertTab _ _ _) as [bar idx]. simpl in *.
  unfold tabs, views in *. simpl. rewrite Hlen in Ht, Hi.
  by rewrite stack_insertWidget_pos.
Qed.

Lemma addTab_seqs w title icon tw :
  length (tabs tw) = length (views tw) → w ∉ views tw →
  tabs (TabWidget.addTab w title icon tw).1 = tabs tw ++ [QTabBar.mkTab title icon w]
  ∧ views (TabWidget.addTab w title icon tw).1 = views tw ++ [w]
  ∧ (TabWidget.addTab w title icon tw).2 = Z.of_nat (length (views tw)).
Proof.
  intros Hlen Hnew. unfold TabWidget.addTab, QTabBar.addTab.
  pose proof (bar_insertTab_tabs (-1) (QTabBar.mkTab title icon w) (TabWidget._tabbar tw)) as Ht.
  pose proof (bar_insertTab_index (-1) (QTabBar.mkTab title icon w) (TabWidget._tabbar tw)) as Hi.
  destruct (QTabBar.insertTab _ _ _) as [bar idx]. simpl in *.
  unfold tabs, views in *. simpl. subst idx.
  rewrite stack_insertWidget_pos, Ht, Hlen by done.
  assert (insert_pos (-1) (length (TabWidget._stack tw)) = length (TabWidget._stack tw)) as ->
    by done.
  rewrite insert_pos_in_range by lia. rewrite Nat2Z.id.
  rewrite <-Hlen at 1. by rewrite !insert_at_end.
Qed.

Lemma removeTab_seqs index w tw :
  length (tabs tw) = length (views tw) → NoDup (views tw) →
  TabWidget.widget tw index = Some w →
  tabs (TabWidget.removeTab index tw) = delete (Z.to_nat index) (tabs tw)
  ∧ views (TabWidget.removeTab index tw) = delete (Z.to_nat index) (views tw).
Proof.
  intros Hlen Hnd Hw. unfold TabWidget.widget in Hw.
  unfold TabWidget.removeTab, tabs, views in *. simpl. rewrite Hw.
  apply stack_widget_Some in Hw as [H0 Hl].
  rewrite bar_removeTab_tabs. split.
  - unfold QTabBar.validIndex, QTabBar.count. rewrite Hlen.
    apply lookup_lt_Some in Hl.
    destruct (Z.leb_spec 0 index); [|lia].
    destruct (Z.ltb_spec index (Z.of_nat (length (TabWidget._stack tw)))); [done|lia].
  - unfold QStackedWidget.removeWidget. by rewrite (remove_at_lookup _ _ _ Hnd Hl).
Qed.

Lemma removeTab_out_of_range index tw :
  length (tabs tw) = length (views tw) →
  TabWidget.widget tw index = None → TabWidget.removeTab index tw = tw.
Proof.
  intros Hlen Hw. unfold TabWidget.widget in Hw.
  unfold TabWidget.removeTab, tabs, views in *. rewrite Hw.
  apply stack_widget_None in Hw.
  unfold QTabBar.removeTab, QTabBar.validIndex, QTabBar.count. rewrite Hlen.
  destruct tw as [bar stack]; simpl in *.
  destruct (Z.leb_spec 0 index); destruct (Z.ltb_spec index (Z.of_nat (length stack)));
    simpl; try done; lia.
Qed.

Lemma count_views tw : TabWidget.count tw = Z.of_nat (length (views tw)).
Proof. done. Qed.

(** The index at which [moveTab] re-inserts, given the requested one and
    the number of tabs left after the removal. *)
Definition move_target (to_index : Z) (remaining : nat) : nat :=
  if (0 <? remaining)%nat
  then Z.to_nat (Z.max 0 (Z.min to_index (Z.of_nat remaining))) else 0%nat.

Lemma move_target_le to_index n : (move_target to_index n ≤ n)%nat.
Proof. unfold move_target. destruct (Nat.ltb_spec 0 n); lia. Qed.

Lemma moveTab_seqs from_index to_index tw :
  consistent tw → from_index ≠ to_index → 0 <= from_index < TabWidget.count tw →
  ∃ tab w,
    tabs tw !! Z.to_nat from_index = Some tab ∧
    views tw !! Z.to_nat from_index = Some w ∧
    let k := move_target to_index (length (views tw) - 1) in
    tabs (TabWidget.moveTab from_index to_index tw)
      = insert_at k tab (delete (Z.to_nat from_index) (tabs tw))
    ∧ views (TabWidget.moveTab from_index to_index tw)
      = insert_at k w (delete (Z.to_nat from_index) (views tw))
    ∧ TabWidget.currentIndex (TabWidget.moveTab from_index to_index tw) = Z.of_nat k.
Proof.
  intros Hc Hne Hr. pose proof (consistent_length _ Hc) as Hlen.
  destruct Hc as [Hal Hnd]. rewrite count_views in Hr.
  destruct (lookup_lt_is_Some_2 (views tw) (Z.to_nat from_index)) as [w Hw]; [lia|].
  destruct (lookup_lt_is_Some_2 (tabs tw) (Z.to_nat from_index)) as [tab Htab]; [lia|].
  assert (QTabBar.owner tab = w) as Hown.
  { rewrite <-Hal, list_lookup_fmap, Htab in Hw. by simplify_eq/=. }
  exists tab, w. split; [done|]. split; [done|].
  assert (QStackedWidget.widget (TabWidget._stack tw) from_index = Some w) as Hwid
    by (apply stack_widget_Some; split; [lia|done]).
  unfold TabWidget.moveTab.
  destruct (Z.eqb_spec from_index to_index); [done|].
  rewrite count_views.
  destruct (Z.ltb_spec from_index 0); [lia|].
  destruct (Z.leb_spec (Z.of_nat (length (views tw))) from_index); [lia|]. cbn [orb].
  rewrite Hwid.
  set (stack1 := QStackedWidget.removeWidget w (TabWidget._stack tw)).
  set (bar1 := QTabBar.removeTab from_index (TabWidget._tabbar tw)).
  assert (stack1 = delete (Z.to_nat from_index) (views tw)) as Hs1.
  { unfold stack1, QStackedWidget.removeWidget. by rewrite (remove_at_lookup _ _ _ Hnd Hw). }
  assert (QTabBar.tabList bar1 = delete (Z.to_nat from_index) (tabs tw)) as Hb1.
  { unfold bar1. rewrite bar_removeTab_tabs.
    unfold QTabBar.validIndex, QTabBar.count. fold (tabs tw). rewrite Hlen.
    destruct (Z.leb_spec 0 from_index); [|lia].
    by destruct (Z.ltb_spec from_index (Z.of_nat (length (views tw)))); [|lia]. }
  assert (∀ idx, QStackedWidget.insertWidget idx w stack1
                 = insert_at (insert_pos idx (length stack1)) w stack1) as Hins.
  { intros idx. apply stack_insertWidget_pos. rewrite Hs1.
    by apply not_elem_of_delete_NoDup. }
  assert (length stack1 = (length (views tw) - 1)%nat) as Hl1.
  { rewrite Hs1. pose proof (length_delete_lookup _ _ _ Hw). lia. }
  assert (length (QTabBar.tabList bar1) = length stack1) as Hlen1.
  { rewrite Hb1, Hs1. pose proof (length_delete_lookup _ _ _ Hw).
    pose proof (length_delete_lookup _ _ _ Htab). lia. }
  set (to' := if 0 <? QStackedWidget.count stack1
              then Z.max 0 (Z.min to_index (QStackedWidget.count stack1)) else 0).
  assert (0 <= to' <= Z.of_nat (length stack1)) as Hto.
  { unfold to', QStackedWidget.count. destruct (Z.ltb_spec 0 (Z.of_nat (length stack1))); lia. }
  assert (Z.to_nat to' = move_target to_index (length (views tw) - 1)) as Hk.
  { unfold to', move_target, QStackedWidget.count. rewrite Hl1.
    destruct (Z.ltb_spec 0 (Z.of_nat (length (views tw) - 1)));
      destruct (Nat.ltb_spec 0 (length (views tw) - 1)); try lia; done. }
  assert (QTabBar.tabText (TabWidget._tabbar tw) from_index = QTabBar.text tab
          ∧ QTabBar.tabIcon (TabWidget._tabbar tw) from_index = QTabBar.icon tab) as [-> ->].
  { unfold QTabBar.tabText, QTabBar.tabIcon, QTabBar.validIndex, QTabBar.count.
    fold (tabs tw). rewrite Hlen, Htab.
    destruct (Z.leb_spec 0 from_index); [|lia].
    by destruct (Z.ltb_spec from_index (Z.of_nat (length (views tw)))); [|lia]. }
  assert (QTabBar.mkTab (QTabBar.text tab) (QTabBar.icon tab) w = tab) as ->
    by (destruct tab; simpl in *; by subst).
  cbv zeta.
  rewrite setCurrentIndex_tabs, setCurrentIndex_views.
  unfold tabs at 1, views at 1. cbn [TabWidget._tabbar TabWidget._stack].
  rewrite bar_insertTab_tabs, Hins, Hlen1.
  rewrite insert_pos_in_range by done. rewrite Hk, Hb1, Hs1.
  split; [done|]. split; [done|].
  rewrite <-Hk, Z2Nat.id by lia.
  apply setCurrentIndex_current.
  - unfold tabs, views. cbn [TabWidget._tabbar TabWidget._stack].
    rewrite ?bar_insertTab_tabs, ?Hins, !length_insert_at. by rewrite ?Hlen1, ?Hb1, ?Hs1, ?Hlen1.
  - rewrite count_views. unfold views. cbn [TabWidget._stack].
    rewrite ?Hins, length_insert_at.
    fold (views tw). rewrite <-Hs1. lia.
Qed.

Lemma moveTab_out_of_range from_index to_index tw :
  from_index < 0 ∨ TabWidget.count tw <= from_index →
  TabWidget.moveTab from_index to_index tw = tw.
Proof.
  intros Hr. unfold TabWidget.moveTab.
  destruct (Z.eqb_spec from_index to_index); [done|].
  destruct (Z.ltb_spec from_index 0); [done|].
  destruct (Z.leb_spec (TabWidget.count tw) from_index); [done|lia].
Qed.

Lemma moveTab_same_index index tw : TabWidget.moveTab index index tw = tw.
Proof. unfold TabWidget.moveTab. by rewrite Z.eqb_refl. Qed.

(** ** Reordering inside one strip *)

(** C6.  On a strip whose entries and views are consistent, [moveTab] with a
    source index inside the strip yields a permutation of the views and of
    the visual entries, of unchanged length; the moved handle is found at
    some position [k] of the result, and taking it out there leaves the
    sequence that taking it out of the original at [from_index] leaves, so
    every other handle keeps its relative order.  With equal indices the
    strip is returned as it was. *)
Theorem moveTab_relocates_one_handle from_index to_index tw :
  consistent tw → 0 <= from_index < TabWidget.count tw →
  let tw' := TabWidget.moveTab from_index to_index tw in
  views tw' ≡ₚ views tw ∧ tabs tw' ≡ₚ tabs tw
  ∧ length (views tw') = length (views tw) ∧ length (tabs tw') = length (tabs tw)
  ∧ (∃ k : nat,
        views tw' !! k = views tw !! Z.to_nat from_index
        ∧ tabs tw' !! k = tabs tw !! Z.to_nat from_index
        ∧ delete k (views tw') = delete (Z.to_nat from_index) (views tw)
        ∧ delete k (tabs tw') = delete (Z.to_nat from_index) (tabs tw))
  ∧ (from_index = to_index → tw' = tw).
Proof.
  intros Hc Hr tw'. subst tw'.
  destruct (decide (from_index = to_index)) as [->|Hne].
  { rewrite moveTab_same_index. repeat split; try done. by exists (Z.to_nat to_index). }
  destruct (moveTab_seqs _ _ _ Hc Hne Hr) as (tab & w & Htab & Hw & Ht & Hv & _).
  set (k := move_target to_index (length (views tw) - 1)) in *.
  pose proof (length_delete_lookup _ _ _ Hw) as Hlw.
  pose proof (length_delete_lookup _ _ _ Htab) as Hlt.
  pose proof (consistent_length _ Hc) as Hlen.
  assert (k ≤ length (delete (Z.to_nat from_index) (views tw)))%nat as Hkv
    by (pose proof (move_target_le to_index (length (views tw) - 1)); unfold k; lia).
  assert (k ≤ length (delete (Z.to_nat from_index) (tabs tw)))%nat as Hkt by lia.
  rewrite Ht, Hv. repeat split.
  - by apply insert_at_delete_Permutation.
  - by apply insert_at_delete_Permutation.
  - rewrite length_insert_at. lia.
  - rewrite length_insert_at. lia.
  - exists k. rewrite !lookup_insert_at, !delete_insert_at by done. by rewrite Hw, Htab.
  - done.
Qed.

Lemma moveTab_relocates_one_handle_witness :
  let w0 := mkWidget 0 true NullIcon in
  let w1 := mkWidget 1 true NullIcon in
  let w2 := mkWidget 2 true NullIcon in
  let tw := (TabWidget.addTab w2 "c" NullIcon
              (TabWidget.addTab w1 "b" NullIcon
                (TabWidget.addTab w0 "a" NullIcon TabWidget.empty).1).1).1 in
  views (TabWidget.moveTab 0 2 tw) = [w1; w2; w0]
  ∧ views (TabWidget.moveTab 0 2 tw) ≡ₚ views tw.
Proof.
  intros w0 w1 w2 tw. split; [reflexivity|].
  apply (moveTab_relocates_one_handle 0 2 tw).
  - split; [reflexivity|]. by_compute.
  - split; by_compute.
Defined.

(** ** Alignment of the tab bar and the stack *)

Inductive strip_op :=
  | OpAddTab (w : QWidget) (title : string) (icon : QIcon)
  | OpInsertTab (index : Z) (w : QWidget) (title : string) (icon : QIcon)
  | OpRemoveTab (index : Z)
  | OpMoveTab (from_index to_index : Z).

Definition run_op (op : strip_op) (tw : TabWidget.t) : TabWidget.t :=
  match op with
  | OpAddTab w title icon => (TabWidget.addTab w title icon tw).1
  | OpInsertTab index w title icon => (TabWidget.insertTab index w title icon tw).1
  | OpRemoveTab index => TabWidget.removeTab index tw
  | OpMoveTab from_index to_index => TabWidget.moveTab from_index to_index tw
  end.

(** The widget handed to [addTab] or [insertTab] is not already a page of
    this strip (callers pass a newly created view or one just removed from
    another strip). *)
Definition brings_new_widget (op : strip_op) (tw : TabWidget.t) : Prop :=
  match op with
  | OpAddTab w _ _ | OpInsertTab _ w _ _ => w ∉ views tw
  | OpRemoveTab _ | OpMoveTab _ _ => True
  end.

Lemma insertTab_consistent index w title icon tw :
  consistent tw → w ∉ views tw →
  consistent (TabWidget.insertTab index w title icon tw).1.
Proof.
  intros Hc Hw. destruct (insertTab_seqs index w title icon tw) as (Ht & Hv & _); [|done|].
  { by apply consistent_length. }
  destruct Hc as [Hal Hnd]. split.
  - by rewrite Ht, Hv, fmap_insert_at, Hal.
  - rewrite Hv. by apply NoDup_insert_at.
Qed.

Lemma addTab_consistent w title icon tw :
  consistent tw → w ∉ views tw → consistent (TabWidget.addTab w title icon tw).1.
Proof.
  intros Hc Hw. destruct (addTab_seqs w title icon tw) as (Ht & Hv & _); [|done|].
  { by apply consistent_length. }
  destruct Hc as [Hal Hnd]. split.
  - by rewrite Ht, Hv, fmap_app, Hal.
  - rewrite Hv, <-insert_at_end. by apply NoDup_insert_at.
Qed.

Lemma removeTab_consistent index tw :
  consistent tw → consistent (TabWidget.removeTab index tw).
Proof.
  intros Hc. pose proof (consistent_length _ Hc) as Hlen.
  destruct (TabWidget.widget tw index) as [w|] eqn:Hw.
  - destruct Hc as [Hal Hnd].
    destruct (removeTab_seqs index w tw Hlen Hnd Hw) as [Ht Hv]. split.
    + by rewrite Ht, Hv, list_fmap_delete, Hal.
    + rewrite Hv. by apply NoDup_delete.
  - by rewrite removeTab_out_of_range.
Qed.

Lemma moveTab_consistent from_index to_index tw :
  consistent tw → consistent (TabWidget.moveTab from_index to_index tw).
Proof.
  intros Hc.
  destruct (decide (from_index = to_index)) as [->|Hne]; [by rewrite moveTab_same_index|].
  destruct (decide (0 <= from_index < TabWidget.count tw)) as [Hr|Hr];
    [|rewrite moveTab_out_of_range; [done|lia]].
  destruct (moveTab_seqs _ _ _ Hc Hne Hr) as (tab & w & Htab & Hw & Ht & Hv & _).
  destruct Hc as [Hal Hnd].
  assert (QTabBar.owner tab = w) as Hown.
  { rewrite <-Hal, list_lookup_fmap, Htab in Hw. by simplify_eq/=. }
  split.
  - by rewrite Ht, Hv, fmap_insert_at, list_fmap_delete, Hal, Hown.
  - rewrite Hv. apply NoDup_insert_at; [by apply NoDup_delete|].
    by apply not_elem_of_delete_NoDup.
Qed.

Lemma run_op_consistent op tw :
  consistent tw → brings_new_widget op tw → consistent (run_op op tw).
Proof.
  intros Hc Hnew. destruct op; cbn [run_op brings_new_widget] in *.
  - by apply addTab_consistent.
  - by apply insertTab_consistent.
  - by apply removeTab_consistent.
  - by apply moveTab_consistent.
Qed.

(** C8, as amended.  Each of [addTab], [insertTab], [removeTab] and
    [moveTab], applied to a consistent strip, for the first two with a
    widget the strip does not hold yet, leaves the tab bar and the stack
    with the same number of entries, the view of the entry at every
    position [i] being the widget at stack position [i]; the strip is
    consistent again, so the property carries over to the next
    operation. *)
Theorem strip_operations_keep_alignment op tw :
  consistent tw → brings_new_widget op tw →
  aligned (run_op op tw) ∧ consistent (run_op op tw).
Proof.
  intros Hc Hnew.
  pose proof (run_op_consistent op tw Hc Hnew) as Hc'.
  split; [|done].
  destruct Hc' as [Howner _]. split.
  - by rewrite <-Howner, length_fmap.
  - intros i tab Hi. by rewrite <-Howner, list_lookup_fmap, Hi.
Qed.

Lemma strip_operations_keep_alignment_witness :
  let w0 := mkWidget 0 true NullIcon in
  let w1 := mkWidget 1 true NullIcon in
  let tw := (TabWidget.addTab w0 "a" NullIcon TabWidget.empty).1 in
  aligned (run_op (OpInsertTab 0 w1 "b" NullIcon) tw)
  ∧ views (run_op (OpInsertTab 0 w1 "b" NullIcon) tw) = [w1; w0].
Proof.
  intros w0 w1 tw. split; [|reflexivity].
  apply (strip_operations_keep_alignment (OpInsertTab 0 w1 "b" NullIcon) tw).
  - split; [reflexivity|by_compute].
  - simpl. by_compute.
Defined.

(** C8, as stated, fails for a widget that is already a page.  From the
    aligned strip [w0, w1], [insertTab(0, w1, ...)] moves the page [w1]
    to the front of the stack, which keeps its two pages, and puts a
    third entry into the tab bar; [addTab(w0, ...)] likewise moves [w0] to
    the end of the stack and appends a third entry.  Neither result is
    aligned. *)
Lemma insertTab_of_a_page_breaks_alignment :
  let w0 := mkWidget 0 true NullIcon in
  let w1 := mkWidget 1 true NullIcon in
  let tw := (TabWidget.addTab w1 "b" NullIcon
              (TabWidget.addTab w0 "a" NullIcon TabWidget.empty).1).1 in
  let inserted := run_op (OpInsertTab 0 w1 "b" NullIcon) tw in
  let added := run_op (OpAddTab w0 "a" NullIcon) tw in
  aligned tw ∧ views tw = [w0; w1]
  ∧ views inserted = [w1; w0] ∧ length (tabs inserted) = 3%nat ∧ ¬ aligned inserted
  ∧ views added = [w1; w0] ∧ length (tabs added) = 3%nat ∧ ¬ aligned added.
Proof.
  intros w0 w1 tw inserted added.
  split; [apply consistent_aligned; split; [reflexivity|by_compute]|].
  split; [reflexivity|]. split; [reflexivity|]. split; [reflexivity|].
  split; [intros [Hlen _]; vm_compute in Hlen; discriminate|].
  split; [reflexivity|]. split; [reflexivity|].
  intros [Hlen _]. vm_compute in Hlen. discriminate.
Qed.

(** Any run of strip operations from the empty strip stays aligned. *)
Fixpoint run_ops (ops : list strip_op) (tw : TabWidget.t) : TabWidget.t :=
  match ops with
  | [] => tw
  | op :: ops => run_ops ops (run_op op tw)
  end.

Fixpoint all_bring_new_widgets (ops : list strip_op) (tw : TabWidget.t) : Prop :=
  match ops with
  | [] => True
  | op :: ops => brings_new_widget op tw ∧ all_bring_new_widgets ops (run_op op tw)
  end.

Lemma run_ops_consistent ops tw :
  consistent tw → all_bring_new_widgets ops tw → consistent (run_ops ops tw).
Proof.
  revert tw. induction ops as [|op ops IH]; intros tw Hc Hnew; [done|].
  destruct Hnew as [Hop Hrest]. cbn [run_ops]. apply IH; [|done].
  by apply run_op_consistent.
Qed.

Corollary run_ops_from_empty_aligned ops :
  all_bring_new_widgets ops TabWidget.empty → aligned (run_ops ops TabWidget.empty).
Proof.
  intros Hnew. apply consistent_aligned, run_ops_consistent; [apply consistent_empty|done].
Qed.

(** ** The current index stays on a tab *)

(** On an empty bar the current index is -1; otherwise it is the index of
    one of the tabs. *)
Definition bar_current_ok (b : QTabBar.t) : Prop :=
  (QTabBar.count b = 0 ∧ QTabBar.currentIndex b = -1)
  ∨ 0 <= QTabBar.currentIndex b < QTabBar.count b.

Lemma bar_setCurrentIndex_ok index b :
  bar_current_ok b → bar_current_ok (QTabBar.setCurrentIndex index b).
Proof.
  intros Hok. unfold QTabBar.setCurrentIndex, QTabBar.validIndex.
  destruct (Z.leb_spec 0 index); destruct (Z.ltb_spec index (QTabBar.count b));
    cbn [andb]; try done.
  right. unfold QTabBar.count in *. cbn [QTabBar.tabList QTabBar.currentIndex]. lia.
Qed.

Lemma bar_insertTab_ok index tab b :
  bar_current_ok b → bar_current_ok (QTabBar.insertTab index tab b).1.
Proof.
  intros Hok. unfold QTabBar.insertTab. cbn [fst].
  set (idx := if QTabBar.validIndex b index then index else QTabBar.count b).
  assert (0 <= idx <= Z.of_nat (length (QTabBar.tabList b))) as Hidx.
  { unfold idx, QTabBar.validIndex, QTabBar.count.
    destruct (Z.leb_spec 0 index);
      destruct (Z.ltb_spec index (Z.of_nat (length (QTabBar.tabList b))));
      cbn [andb]; lia. }
  unfold bar_current_ok, QTabBar.count in Hok.
  rewrite length_insert_at.
  destruct (Nat.eqb_spec (S (length (QTabBar.tabList b))) 1) as [Hone|Hmore].
  - unfold QTabBar.setCurrentIndex, QTabBar.validIndex, QTabBar.count.
    cbn [QTabBar.tabList QTabBar.currentIndex]. rewrite length_insert_at.
    destruct (Z.leb_spec 0 idx); [|lia].
    destruct (Z.ltb_spec idx (Z.of_nat (S (length (QTabBar.tabList b))))); [|lia].
    cbn [andb]. right. unfold QTabBar.count.
    cbn [QTabBar.tabList QTabBar.currentIndex]. rewrite length_insert_at. lia.
  - unfold bar_current_ok, QTabBar.count.
    destruct (Z.leb_spec idx (QTabBar.currentIndex b));
      cbn [QTabBar.tabList QTabBar.currentIndex]; rewrite length_insert_at; lia.
Qed.

Lemma bar_removeTab_ok index b :
  bar_current_ok b → bar_current_ok (QTabBar.removeTab index b).
Proof.
  intros Hok. unfold QTabBar.removeTab.
  destruct (QTabBar.validIndex b index) eqn:Hvalid; [|done].
  unfold QTabBar.validIndex in Hvalid. apply andb_true_iff in Hvalid as [H0 H1].
  apply Z.leb_le in H0. apply Z.ltb_lt in H1. unfold QTabBar.count in H1.
  assert (Z.of_nat (length (delete (Z.to_nat index) (QTabBar.tabList b)))
          = Z.of_nat (length (QTabBar.tabList b)) - 1) as Hlen.
  { rewrite length_delete by (apply lookup_lt_is_Some_2; lia). lia. }
  destruct Hok as [[Hz _]|Hin]; [unfold QTabBar.count in Hz; lia|].
  unfold QTabBar.count in Hin.
  destruct (Z.eqb_spec index (QTabBar.currentIndex b)) as [Heq|Hneq].
  - destruct (Nat.ltb_spec 0 (length (delete (Z.to_nat index) (QTabBar.tabList b)))).
    + right. unfold QTabBar.count. cbn [QTabBar.tabList QTabBar.currentIndex]. lia.
    + left. unfold QTabBar.count. cbn [QTabBar.tabList QTabBar.currentIndex]. lia.
  - destruct (Z.ltb_spec index (QTabBar.currentIndex b)).
    + unfold QTabBar.setCurrentIndex, QTabBar.validIndex, QTabBar.count.
      cbn [QTabBar.tabList QTabBar.currentIndex].
      destruct (Z.leb_spec 0 (QTabBar.currentIndex b - 1)); [|lia].
      destruct (Z.ltb_spec (QTabBar.currentIndex b - 1)
                  (Z.of_nat (length (delete (Z.to_nat index) (QTabBar.tabList b)))));
        [|lia].
      cbn [andb]. right. unfold QTabBar.count.
      cbn [QTabBar.tabList QTabBar.currentIndex]. lia.
    + right. unfold QTabBar.count. cbn [QTabBar.tabList QTabBar.currentIndex]. lia.
Qed.

Lemma run_op_bar_current_ok op tw :
  bar_current_ok (TabWidget._tabbar tw) → bar_current_ok (TabWidget._tabbar (run_op op tw)).
Proof.
  intros Hok. destruct op; cbn [run_op].
  - unfold TabWidget.addTab, QTabBar.addTab.
    pose proof (bar_insertTab_ok (-1) (QTabBar.mkTab title icon w) _ Hok) as Hins.
    by destruct (QTabBar.insertTab _ _ _).
  - unfold TabWidget.insertTab.
    pose proof (bar_insertTab_ok index (QTabBar.mkTab title icon w) _ Hok) as Hins.
    by destruct (QTabBar.insertTab _ _ _).
  - by apply bar_removeTab_ok.
  - unfold TabWidget.moveTab.
    destruct (from_index =? to_index); [done|].
    destruct ((from_index <? 0) || (TabWidget.count tw <=? from_index)); [done|].
    destruct (QStackedWidget.widget (TabWidget._stack tw) from_index) as [w|]; [|done].
    cbv zeta. unfold TabWidget.setCurrentIndex.
    match goal with |- context [if ?c then _ else _] => destruct c end;
      cbn [TabWidget._tabbar].
    + by apply bar_setCurrentIndex_ok, bar_insertTab_ok, bar_removeTab_ok.
    + by apply bar_insertTab_ok, bar_removeTab_ok.
Qed.

(** Every non-empty strip reached from the empty one by strip operations
    has its current index on one of its tabs. *)
Lemma run_ops_current_on_a_tab ops :
  all_bring_new_widgets ops TabWidget.empty →
  let tw := run_ops ops TabWidget.empty in
  0 < TabWidget.count tw →
  length (tabs tw) = length (views tw)
  ∧ 0 <= TabWidget.currentIndex tw < TabWidget.count tw.
Proof.
  intros Hnew tw Hpos.
  assert (∀ ops tw0, consistent tw0 → bar_current_ok (TabWidget._tabbar tw0) →
            all_bring_new_widgets ops tw0 →
            consistent (run_ops ops tw0)
            ∧ bar_current_ok (TabWidget._tabbar (run_ops ops tw0))) as Hinv.
  { clear. induction ops as [|op ops IH]; intros tw0 Hc Hok Hnew; [done|].
    destruct Hnew as [Hop Hrest]. cbn [run_ops].
    apply IH; [by apply run_op_consistent|by apply run_op_bar_current_ok|done]. }
  destruct (Hinv ops TabWidget.empty consistent_empty) as [Hc Hok]; [by left|done|].
  fold tw in Hc, Hok. pose proof (consistent_length _ Hc) as Hlen.
  split; [done|]. unfold TabWidget.currentIndex.
  rewrite count_views in *. unfold bar_current_ok, QTabBar.count in Hok.
  fold (tabs tw) in Hok. lia.
Qed.

(** ** Cycling through the tabs *)

Lemma setCurrentIndex_count index tw :
  TabWidget.count (TabWidget.setCurrentIndex index tw) = TabWidget.count tw.
Proof. rewrite !count_views. by rewrite setCurrentIndex_views. Qed.

Lemma next_tab_current tw :
  length (tabs tw) = length (views tw) →
  0 <= TabWidget.currentIndex tw < TabWidget.count tw →
  TabWidget.currentIndex (TabWidget.next_tab tw)
    = (TabWidget.currentIndex tw + 1) mod TabWidget.count tw.
Proof.
  intros Hlen Hc. unfold TabWidget.next_tab.
  destruct (Z.eqb_spec (TabWidget.currentIndex tw + 1) (TabWidget.count tw)) as [He|He].
  - rewrite setCurrentIndex_current by (done || lia).
    by rewrite He, Z_mod_same_full.
  - rewrite setCurrentIndex_current by (done || lia).
    by rewrite Z.mod_small by lia.
Qed.

Lemma previous_tab_current tw :
  length (tabs tw) = length (views tw) →
  0 <= TabWidget.currentIndex tw < TabWidget.count tw →
  TabWidget.currentIndex (TabWidget.previous_tab tw)
    = (TabWidget.currentIndex tw + TabWidget.count tw - 1) mod TabWidget.count tw.
Proof.
  intros Hlen Hc. unfold TabWidget.previous_tab.
  destruct (Z.ltb_spec (TabWidget.currentIndex tw - 1) 0) as [He|He].
  - rewrite setCurrentIndex_current by (done || lia).
    assert (TabWidget.currentIndex tw = 0) as -> by lia.
    by rewrite Z.mod_small by lia.
  - rewrite setCurrentIndex_current by (done || lia).
    replace (TabWidget.currentIndex tw + TabWidget.count tw - 1)
      with (TabWidget.currentIndex tw - 1 + 1 * TabWidget.count tw) by lia.
    rewrite Z_mod_plus_full. by rewrite Z.mod_small by lia.
Qed.

(** C10.  On a strip with [n > 0] tabs whose current index [c] is a tab of
    the strip, [next_tab] makes [(c + 1) mod n] current and [previous_tab]
    makes [(c + n - 1) mod n] current; each undoes the other on the
    current index. *)
Theorem next_previous_tab_cycle tw :
  length (tabs tw) = length (views tw) →
  0 < TabWidget.count tw →
  0 <= TabWidget.currentIndex tw < TabWidget.count tw →
  let n := TabWidget.count tw in
  let c := TabWidget.currentIndex tw in
  TabWidget.currentIndex (TabWidget.next_tab tw) = (c + 1) mod n
  ∧ TabWidget.currentIndex (TabWidget.previous_tab tw) = (c + n - 1) mod n
  ∧ TabWidget.currentIndex (TabWidget.previous_tab (TabWidget.next_tab tw)) = c
  ∧ TabWidget.currentIndex (TabWidget.next_tab (TabWidget.previous_tab tw)) = c.
Proof.
  intros Hlen Hn Hc n c.
  pose proof (next_tab_current tw Hlen Hc) as Hn1.
  pose proof (previous_tab_current tw Hlen Hc) as Hp1.
  assert (TabWidget.count (TabWidget.next_tab tw) = n) as Hn3
    by apply setCurrentIndex_count.
  assert (TabWidget.count (TabWidget.previous_tab tw) = n) as Hp3
    by apply setCurrentIndex_count.
  assert (length (tabs (TabWidget.next_tab tw)) = length (views (TabWidget.next_tab tw)))
    as Hn2 by (unfold TabWidget.next_tab; by rewrite setCurrentIndex_tabs, setCurrentIndex_views).
  assert (length (tabs (TabWidget.previous_tab tw))
          = length (views (TabWidget.previous_tab tw)))
    as Hp2 by (unfold TabWidget.previous_tab;
               by rewrite setCurrentIndex_tabs, setCurrentIndex_views).
  fold n c in Hn1, Hp1.
  assert (0 <= (c + 1) mod n < n) as Hnr by (apply Z.mod_pos_bound; lia).
  assert (0 <= (c + n - 1) mod n < n) as Hpr by (apply Z.mod_pos_bound; lia).
  split; [done|]. split; [done|]. split.
  - rewrite previous_tab_current by (done || (rewrite Hn1, Hn3; lia)).
    rewrite Hn1, Hn3.
    destruct (decide (c + 1 = n)) as [He|He].
    + rewrite He, Z_mod_same_full. replace (0 + n - 1) with c by lia.
      by rewrite Z.mod_small by lia.
    + rewrite (Z.mod_small (c + 1)) by lia.
      replace (c + 1 + n - 1) with (c + 1 * n) by lia.
      rewrite Z_mod_plus_full. by rewrite Z.mod_small by lia.
  - rewrite next_tab_current by (done || (rewrite Hp1, Hp3; lia)).
    rewrite Hp1, Hp3.
    destruct (decide (c = 0)) as [He|He].
    + rewrite He. replace (0 + n - 1) with (n - 1) by lia.
      rewrite (Z.mod_small (n - 1)) by lia.
      replace (n - 1 + 1) with n by lia. by rewrite Z_mod_same_full.
    + replace (c + n - 1) with (c - 1 + 1 * n) by lia.
      rewrite Z_mod_plus_full, (Z.mod_small (c - 1)) by lia.
      replace (c - 1 + 1) with c by lia. by rewrite Z.mod_small by lia.
Qed.

Lemma next_previous_tab_cycle_witness :
  let w0 := mkWidget 0 true NullIcon in
  let w1 := mkWidget 1 true NullIcon in
  let tw := TabWidget.setCurrentIndex 1
              (TabWidget.addTab w1 "b" NullIcon
                (TabWidget.addTab w0 "a" NullIcon TabWidget.empty).1).1 in
  TabWidget.currentIndex tw = 1
  ∧ TabWidget.currentIndex (TabWidget.next_tab tw) = 0.
Proof.
  intros w0 w1 tw. split; [reflexivity|].
  destruct (next_previous_tab_cycle tw) as (Hn & _).
  - reflexivity.
  - by_compute.
  - by_compute.
  - exact Hn.
Defined.

(** ** Stale tab indices *)


(** ** The acceptance flag *)

(** C4.  The flag is one slot: after [mark_drag_seq_accepted s] it holds
    [s] whatever it held before, a later mark replaces an earlier one,
    [was_drag_seq_accepted] answers true exactly for the value marked
    last, and marking the same number a second time changes neither the
    window nor the answer. *)
Theorem acceptance_flag_is_single_slot (w : BrowserWindow.t) (s1 s2 s : option Z) :
  BrowserWindow._drag_seq_accepted (BrowserWindow.mark_drag_seq_accepted s1 w) = s1
  ∧ BrowserWindow.mark_drag_seq_accepted s2 (BrowserWindow.mark_drag_seq_accepted s1 w)
    = BrowserWindow.mark_drag_seq_accepted s2 w
  ∧ (BrowserWindow.was_drag_seq_accepted (BrowserWindow.mark_drag_seq_accepted s1 w) s = true
     ↔ s = s1)
  ∧ BrowserWindow.mark_drag_seq_accepted s1 (BrowserWindow.mark_drag_seq_accepted s1 w)
    = BrowserWindow.mark_drag_seq_accepted s1 w
  ∧ BrowserWindow.was_drag_seq_accepted
      (BrowserWindow.mark_drag_seq_accepted s1 (BrowserWindow.mark_drag_seq_accepted s1 w)) s1
    = true
  ∧ BrowserWindow.was_drag_seq_accepted (BrowserWindow.mark_drag_seq_accepted s1 w) s1 = true.
Proof.
  unfold BrowserWindow.was_drag_seq_accepted, BrowserWindow.mark_drag_seq_accepted; simpl.
  repeat split; try done.
  - intros Heq. symmetry. by apply bool_decide_eq_true in Heq.
  - intros ->. by apply bool_decide_eq_true.
  - by apply bool_decide_eq_true.
  - by apply bool_decide_eq_true.
Qed.

(** ** Windows in the store *)

Definition live (b : Browser.t) (r : nat) : Prop := (r < length (Browser.heap b))%nat.

Global Instance live_dec b r : Decision (live b r).
Proof. unfold live. apply _. Defined.

Lemma window_update_eq r f b :
  live b r → Browser.window (Browser.update r f b) r = f (Browser.window b r).
Proof.
  intros [w Hw]%lookup_lt_is_Some_2. unfold Browser.window, Browser.update. simpl.
  by rewrite list_lookup_alter_eq, Hw.
Qed.

Lemma window_update_ne r r' f b :
  r ≠ r' → Browser.window (Browser.update r f b) r' = Browser.window b r'.
Proof.
  intros Hne. unfold Browser.window, Browser.update. simpl.
  by rewrite list_lookup_alter_ne.
Qed.

Lemma live_update r r' f b : live (Browser.update r f b) r' ↔ live b r'.
Proof. unfold live, Browser.update. simpl. by rewrite length_alter. Qed.

Lemma tab_widget_update_tabs_eq r f b :
  live b r →
  Browser.tab_widget (Browser.update_tabs r f b) r = f (Browser.tab_widget b r).
Proof.
  intros Hl. unfold Browser.tab_widget, Browser.update_tabs.
  by rewrite window_update_eq.
Qed.

Lemma tab_widget_update_tabs_ne r r' f b :
  r ≠ r' → Browser.tab_widget (Browser.update_tabs r f b) r' = Browser.tab_widget b r'.
Proof.
  intros Hne. unfold Browser.tab_widget, Browser.update_tabs.
  by rewrite window_update_ne.
Qed.

Lemma tab_widget_close r r' b :
  Browser.tab_widget (Window.close r b) r' = Browser.tab_widget b r'.
Proof.
  unfold Browser.tab_widget, Window.close, Browser.window, Browser.update. simpl.
  destruct (decide (r = r')) as [->|Hne].
  - rewrite list_lookup_alter_eq. by destruct (Browser.heap b !! r').
  - by rewrite list_lookup_alter_ne.
Qed.

Lemma windows_close r b :
  Browser.windows (Window.close r b)
  = default (Browser.windows b) (PyList.remove r (Browser.windows b)).
Proof. done. Qed.

Lemma closed_close r b :
  live b r → BrowserWindow.closed (Browser.window (Window.close r b) r) = true.
Proof.
  intros Hl. unfold Window.close. by rewrite window_update_eq.
Qed.

Lemma remove_first_gone (l : list nat) (x : nat) :
  NoDup l → x ∉ default l (PyList.remove x l).
Proof.
  intros Hnd. destruct (decide (x ∈ l)) as [[i Hi]%list_elem_of_lookup_1|Hx].
  - rewrite (remove_at_lookup _ _ _ Hnd Hi). simpl. by apply not_elem_of_delete_NoDup.
  - by rewrite remove_absent.
Qed.

Lemma remove_first_others (l : list nat) (x y : nat) :
  y ≠ x → y ∈ default l (PyList.remove x l) ↔ y ∈ l.
Proof.
  intros Hne. induction l as [|z l IH]; [done|]. simpl.
  destruct (decide (x = z)) as [->|Hxz]; simpl.
  - rewrite elem_of_cons. split; [by right|]. by intros [?|?].
  - destruct (PyList.remove x l) as [l'|] eqn:Hr; simpl in *; [|done].
    by rewrite !elem_of_cons, IH.
Qed.

(** ** Cross-window merge *)

Lemma web_view_Some tw index view :
  TabWidget.web_view tw index = Some view ↔
  TabWidget.widget tw index = Some view ∧ isWebView view = true.
Proof.
  unfold TabWidget.web_view. destruct (TabWidget.widget tw index) as [w|].
  - destruct (isWebView w) eqn:Hw.
    + split; [by intros [= ->]|by intros [[= ->] _]].
    + split; [done|]. intros [[= ->] ?]. congruence.
  - split; [done|by intros [? _]].
Qed.

(** The state once the tab has left the source strip, which is the state
    in which the destination's count is read and the insertion happens. *)
Definition source_removed (src_window : nat) (src_index : Z) (b : Browser.t) : Browser.t :=
  Browser.update_tabs src_window (TabWidget.removeTab src_index) b.

(** The index at which [receive_tab_from] inserts. *)
Definition merge_index (self src_window : nat) (src_index dst_index : Z)
    (b : Browser.t) : Z :=
  Z.max 0 (Z.min dst_index
             (TabWidget.count (Browser.tab_widget (source_removed src_window src_index b) self))).

(** The state [receive_tab_from] reaches before it looks at the source
    strip's count. *)
Definition transferred (self src_window : nat) (src_index dst_index : Z) (view : QWidget)
    (b : Browser.t) : Browser.t :=
  let txt := TabWidget.tabText (Browser.tab_widget b src_window) src_index in
  let k := merge_index self src_window src_index dst_index b in
  Browser.update_tabs self (TabWidget.setCurrentIndex k)
    (Browser.update_tabs self
       (λ tw, (TabWidget.insertTab k view txt (fav_icon view) tw).1)
       (source_removed src_window src_index b)).

Lemma receive_tab_from_unfold self src_window src_index dst_index view b :
  TabWidget.web_view (Browser.tab_widget b src_window) src_index = Some view →
  Window.receive_tab_from self src_window src_index dst_index b
  = let b1 := transferred self src_window src_index dst_index view b in
    if TabWidget.count (Browser.tab_widget b1 src_window) =? 0
    then Window.close src_window b1 else b1.
Proof. intros Hv. unfold Window.receive_tab_from. by rewrite Hv. Qed.

Lemma receive_tab_from_tab_widget self src_window src_index dst_index view b r :
  TabWidget.web_view (Browser.tab_widget b src_window) src_index = Some view →
  Browser.tab_widget (Window.receive_tab_from self src_window src_index dst_index b) r
  = Browser.tab_widget (transferred self src_window src_index dst_index view b) r.
Proof.
  intros Hv. rewrite (receive_tab_from_unfold _ _ _ _ view) by done.
  cbv zeta. case_match; [by rewrite tab_widget_close|done].
Qed.

Lemma source_removed_spec src_window src_index view b :
  live b src_window →
  consistent (Browser.tab_widget b src_window) →
  TabWidget.web_view (Browser.tab_widget b src_window) src_index = Some view →
  let b0 := source_removed src_window src_index b in
  views (Browser.tab_widget b0 src_window)
    = delete (Z.to_nat src_index) (views (Browser.tab_widget b src_window))
  ∧ tabs (Browser.tab_widget b0 src_window)
    = delete (Z.to_nat src_index) (tabs (Browser.tab_widget b src_window))
  ∧ consistent (Browser.tab_widget b0 src_window)
  ∧ TabWidget.count (Browser.tab_widget b0 src_window)
    = TabWidget.count (Browser.tab_widget b src_window) - 1.
Proof.
  intros Hl Hc Hv b0. apply web_view_Some in Hv as [Hw _].
  destruct (removeTab_seqs src_index view _ (consistent_length _ Hc) (proj2 Hc) Hw)
    as [Hrt Hrv].
  unfold b0, source_removed. rewrite tab_widget_update_tabs_eq by done.
  split; [done|]. split; [done|]. split; [by apply removeTab_consistent|].
  apply stack_widget_Some in Hw as [_ Hw].
  pose proof (length_delete_lookup _ _ _ Hw) as Hdel.
  fold (views (Browser.tab_widget b src_window)) in Hdel.
  rewrite !count_views, Hrv. lia.
Qed.

(** What the transfer leaves alone. *)
Lemma transferred_frame self src_window src_index dst_index view b :
  let b0 := source_removed src_window src_index b in
  let b1 := transferred self src_window src_index dst_index view b in
  Browser.windows b1 = Browser.windows b
  ∧ (∀ r, live b1 r ↔ live b r)
  ∧ (∀ r, r ≠ self → Browser.window b1 r = Browser.window b0 r).
Proof.
  intros b0 b1. split; [done|]. split.
  - intros r. unfold b1, transferred, source_removed, Browser.update_tabs.
    by rewrite !live_update.
  - intros r Hr. unfold b1, transferred, Browser.update_tabs.
    by rewrite !window_update_ne.
Qed.

(** What the insertion and the selection do to the destination. *)
Lemma transferred_destination self src_window src_index dst_index view b :
  live b self →
  consistent (Browser.tab_widget (source_removed src_window src_index b) self) →
  view ∉ views (Browser.tab_widget (source_removed src_window src_index b) self) →
  let b0 := source_removed src_window src_index b in
  let k := merge_index self src_window src_index dst_index b in
  let b1 := transferred self src_window src_index dst_index view b in
  0 <= k <= TabWidget.count (Browser.tab_widget b0 self)
  ∧ views (Browser.tab_widget b1 self)
    = insert_at (Z.to_nat k) view (views (Browser.tab_widget b0 self))
  ∧ tabs (Browser.tab_widget b1 self)
    = insert_at (Z.to_nat k)
        (QTabBar.mkTab (TabWidget.tabText (Browser.tab_widget b src_window) src_index)
           (fav_icon view) view)
        (tabs (Browser.tab_widget b0 self))
  ∧ TabWidget.currentIndex (Browser.tab_widget b1 self) = k
  ∧ Browser.windows b1 = Browser.windows b
  ∧ (∀ r, live b1 r ↔ live b r)
  ∧ (∀ r, r ≠ self → Browser.window b1 r = Browser.window b0 r).
Proof.
  intros Hls Hc0 Hnew b0 k b1.
  pose proof (consistent_length _ Hc0) as Hlen0. fold b0 in Hlen0.
  assert (0 <= k <= Z.of_nat (length (views (Browser.tab_widget b0 self)))) as Hk
    by (unfold k, merge_index; fold b0; rewrite count_views; lia).
  destruct (insertTab_seqs k view
              (TabWidget.tabText (Browser.tab_widget b src_window) src_index)
              (fav_icon view) (Browser.tab_widget b0 self) Hlen0 Hnew) as (Hit & Hiv & _).
  rewrite insert_pos_in_range in Hit, Hiv by done.
  assert (live b0 self) as Hls0 by by apply live_update.
  unfold b1, transferred. fold k b0.
  set (ins := λ tw, (TabWidget.insertTab k view
             (TabWidget.tabText (Browser.tab_widget b src_window) src_index)
             (fav_icon view) tw).1).
  assert (live (Browser.update_tabs self ins b0) self) as Hls1 by by apply live_update.
  split; [by rewrite count_views|].
  split; [|split; [|split; [|split; [done|split]]]].
  - rewrite !tab_widget_update_tabs_eq by done. by rewrite setCurrentIndex_views.
  - rewrite !tab_widget_update_tabs_eq by done. by rewrite setCurrentIndex_tabs.
  - rewrite !tab_widget_update_tabs_eq by done.
    apply setCurrentIndex_current.
    + unfold ins. rewrite Hit, Hiv, !length_insert_at. by rewrite Hlen0.
    + unfold ins. rewrite count_views, Hiv, length_insert_at. lia.
  - intros r. unfold b0, source_removed, Browser.update_tabs.
    by rewrite !live_update.
  - intros r Hr. unfold Browser.update_tabs. by rewrite !window_update_ne.
Qed.

Lemma source_removed_other src_window src_index b r :
  r ≠ src_window →
  Browser.window (source_removed src_window src_index b) r = Browser.window b r.
Proof.
  intros Hr. unfold source_removed, Browser.update_tabs. by rewrite window_update_ne.
Qed.

(** C1.  [receive_tab_from] on live windows with consistent strips, the
    transferred view being a page of the source only (a widget is a page
    of one stack), for a source index that references a web view: the two
    tab counts add up to
    what they added up to before; the view is inserted at the requested
    index clamped to [0, n], where n is the destination's tab count when
    the insertion happens, that is, once the tab has left the source;
    and after the call the destination's current index is that position
    and its current web view is the transferred view. *)
Theorem receive_tab_from_conserves_and_selects self src_window src_index dst_index view b :
  live b self → live b src_window →
  consistent (Browser.tab_widget b src_window) →
  consistent (Browser.tab_widget b self) →
  TabWidget.web_view (Browser.tab_widget b src_window) src_index = Some view →
  (self ≠ src_window → view ∉ views (Browser.tab_widget b self)) →
  let b' := Window.receive_tab_from self src_window src_index dst_index b in
  let at_insertion := Browser.tab_widget (source_removed src_window src_index b) self in
  let k := Z.max 0 (Z.min dst_index (TabWidget.count at_insertion)) in
  TabWidget.count (Browser.tab_widget b' src_window) + TabWidget.count (Browser.tab_widget b' self)
  = TabWidget.count (Browser.tab_widget b src_window) + TabWidget.count (Browser.tab_widget b self)
  ∧ 0 <= k <= TabWidget.count at_insertion
  ∧ (0 <= dst_index <= TabWidget.count at_insertion → k = dst_index)
  ∧ (self ≠ src_window → at_insertion = Browser.tab_widget b self)
  ∧ views (Browser.tab_widget b' self) = insert_at (Z.to_nat k) view (views at_insertion)
  ∧ TabWidget.currentIndex (Browser.tab_widget b' self) = k
  ∧ TabWidget.current_web_view (Browser.tab_widget b' self) = Some view.
Proof.
  intros Hls Hlr Hcs Hcd Hv Hexcl b' at_insertion k.
  destruct (source_removed_spec src_window src_index view b Hlr Hcs Hv)
    as (Hsv0 & _ & Hc0 & Hcount0).
  assert (self ≠ src_window → at_insertion = Browser.tab_widget b self) as Hat.
  { intros Hne. unfold at_insertion, Browser.tab_widget. by rewrite source_removed_other. }
  assert (consistent at_insertion) as Hcat.
  { destruct (decide (self = src_window)) as [->|Hne]; [done|]. by rewrite Hat. }
  assert (view ∉ views at_insertion) as Hnew.
  { destruct (decide (self = src_window)) as [->|Hne]; [|rewrite Hat by done; by apply Hexcl].
    unfold at_insertion. rewrite Hsv0.
    pose proof Hv as [[_ Hw]%stack_widget_Some _]%web_view_Some.
    apply not_elem_of_delete_NoDup; [apply Hcs|done]. }
  destruct (transferred_destination self src_window src_index dst_index view b Hls Hcat Hnew)
    as (Hk & Hdv & _ & Hcur & _ & _ & Hother).
  fold at_insertion in Hk, Hdv. unfold merge_index in Hk, Hdv, Hcur.
  fold at_insertion k in Hk, Hdv, Hcur.
  unfold b'. rewrite !(receive_tab_from_tab_widget _ _ _ _ view) by done.
  pose proof Hv as [_ Hweb]%web_view_Some.
  assert (TabWidget.count
            (Browser.tab_widget (transferred self src_window src_index dst_index view b) self)
          = TabWidget.count at_insertion + 1) as Hcself
    by (rewrite !count_views, Hdv, length_insert_at; lia).
  split; [|split; [done|split; [intros ?; unfold k; lia|split;
            [|split; [done|split; [done|]]]]]].
  - destruct (decide (self = src_window)) as [->|Hne].
    + rewrite Hcself. unfold at_insertion. rewrite Hcount0. lia.
    + unfold Browser.tab_widget at 1. rewrite Hother by done.
      fold (Browser.tab_widget (source_removed src_window src_index b) src_window).
      rewrite Hcself, Hcount0, Hat by done. lia.
  - done.
  - unfold TabWidget.current_web_view. rewrite Hcur.
    apply web_view_Some. split; [|done].
    apply stack_widget_Some. split; [lia|].
    fold (views (Browser.tab_widget (transferred self src_window src_index dst_index view b) self)).
    rewrite Hdv. apply lookup_insert_at. rewrite count_views in Hk. lia.
Qed.

(** Two windows in the list, [a] and [b] open in window 0 and [c] in
    window 1. *)
Definition view_a : QWidget := mkWidget 10 true NullIcon.
Definition view_b : QWidget := mkWidget 11 true NullIcon.
Definition view_c : QWidget := mkWidget 12 true NullIcon.

Definition two_windows : Browser.t :=
  let '(b, r0) := Browser.create_hidden_window (Browser.mk [] []) in
  let '(b, r1) := Browser.create_hidden_window b in
  let b := Browser.update_tabs r0 (λ tw, (TabWidget.addTab view_a "a" NullIcon tw).1) b in
  let b := Browser.update_tabs r0 (λ tw, (TabWidget.addTab view_b "b" NullIcon tw).1) b in
  Browser.update_tabs r1 (λ tw, (TabWidget.addTab view_c "c" NullIcon tw).1) b.

Lemma consistent_compute tw :
  bool_decide (QTabBar.owner <$> tabs tw = views tw) = true →
  bool_decide (NoDup (views tw)) = true → consistent tw.
Proof. intros H1%bool_decide_eq_true H2%bool_decide_eq_true. by split. Qed.

Lemma receive_tab_from_conserves_and_selects_witness :
  let b' := Window.receive_tab_from 0%nat 1%nat 0 7 two_windows in
  views (Browser.tab_widget b' 0%nat) = [view_a; view_b; view_c]
  ∧ TabWidget.current_web_view (Browser.tab_widget b' 0%nat) = Some view_c.
Proof.
  intros b'. split; [reflexivity|].
  apply (receive_tab_from_conserves_and_selects 0%nat 1%nat 0 7 view_c two_windows).
  - by_compute.
  - by_compute.
  - by apply consistent_compute.
  - by apply consistent_compute.
  - reflexivity.
  - intros _. by_compute.
Defined.

(** C5.  When [receive_tab_from] takes the only tab of a source window
    into a different window, the source strip is empty afterwards, the
    source window has been closed by the end of the call, and it is no
    longer in the browser's window list; every other window that was in the
    list is still in it. *)
Theorem emptied_source_window_is_closed self src_window src_index dst_index view b :
  self ≠ src_window → live b self → live b src_window →
  NoDup (Browser.windows b) →
  consistent (Browser.tab_widget b src_window) →
  consistent (Browser.tab_widget b self) →
  TabWidget.web_view (Browser.tab_widget b src_window) src_index = Some view →
  TabWidget.count (Browser.tab_widget b src_window) = 1 →
  let b' := Window.receive_tab_from self src_window src_index dst_index b in
  TabWidget.count (Browser.tab_widget b' src_window) = 0
  ∧ BrowserWindow.closed (Browser.window b' src_window) = true
  ∧ (src_window ∉ Browser.windows b')
  ∧ (∀ r, r ≠ src_window → (r ∈ Browser.windows b' ↔ r ∈ Browser.windows b)).
Proof.
  intros Hne Hls Hlr Hnd Hcs Hcd Hv Hone b'.
  destruct (source_removed_spec src_window src_index view b Hlr Hcs Hv)
    as (_ & _ & _ & Hcount0).
  destruct (transferred_frame self src_window src_index dst_index view b)
    as (Hws & Hlive & Hother).
  assert (TabWidget.count
            (Browser.tab_widget (transferred self src_window src_index dst_index view b)
               src_window) = 0) as Hzero.
  { unfold Browser.tab_widget at 1. rewrite Hother by done.
    fold (Browser.tab_widget (source_removed src_window src_index b) src_window). lia. }
  split.
  { unfold b'. by rewrite (receive_tab_from_tab_widget _ _ _ _ view). }
  unfold b'. rewrite (receive_tab_from_unfold _ _ _ _ view) by done.
  cbv zeta. rewrite Hzero. change (0 =? 0) with true. cbv iota.
  split; [by apply closed_close, Hlive|].
  rewrite windows_close, Hws. split.
  - by apply remove_first_gone.
  - intros r Hr. by apply remove_first_others.
Qed.

Lemma emptied_source_window_is_closed_witness :
  let b' := Window.receive_tab_from 0%nat 1%nat 0 0 two_windows in
  Browser.windows two_windows = [0%nat; 1%nat]
  ∧ Browser.windows b' = [0%nat]
  ∧ 1%nat ∉ Browser.windows b'.
Proof.
  intros b'. split; [reflexivity|]. split; [reflexivity|].
  apply (emptied_source_window_is_closed 0%nat 1%nat 0 0 view_c two_windows).
  - lia.
  - by_compute.
  - by_compute.
  - by_compute.
  - by apply consistent_compute.
  - by apply consistent_compute.
  - reflexivity.
  - reflexivity.
Defined.

(** ** Drops *)

Lemma dropEvent_same_window g dest p at_pos b :
  DragTabBar.src_window_index p = DragTabBar.window_index b dest →
  DragTabBar.dropEvent g dest p at_pos b
  = let dst_index :=
      DragTabBar._compute_dst_index g
        (TabWidget._tabbar (Browser.tab_widget b dest)) at_pos in
    let dst_index :=
      if DragTabBar.src_index p <? dst_index then dst_index - 1 else dst_index in
    (Browser.update dest (BrowserWindow.mark_drag_seq_accepted (DragTabBar.seq p))
       (Browser.update_tabs dest
          (TabWidget.moveTab (DragTabBar.src_index p) (Z.max 0 dst_index)) b), true).
Proof. intros Heq. unfold DragTabBar.dropEvent. by rewrite Heq, Z.eqb_refl. Qed.

(** C3.  A drop on the window whose index the payload names as the source:
    the index computed from the pointer is lowered by one exactly when it
    is greater than the payload's tab index; the window's strip becomes
    what [moveTab] makes of it for the payload's tab index and that index
    clamped at zero; the window's acceptance flag holds the payload's
    sequence number, so [was_drag_seq_accepted] answers true for it; the
    event is accepted; the window list and every other window are
    untouched. *)
Theorem same_window_drop_reorders_and_accepts g dest p at_pos b :
  live b dest →
  DragTabBar.src_window_index p = DragTabBar.window_index b dest →
  let dst_index :=
    DragTabBar._compute_dst_index g (TabWidget._tabbar (Browser.tab_widget b dest)) at_pos in
  let adjusted := if decide (dst_index > DragTabBar.src_index p)
                  then dst_index - 1 else dst_index in
  let b' := (DragTabBar.dropEvent g dest p at_pos b).1 in
  Browser.tab_widget b' dest
    = TabWidget.moveTab (DragTabBar.src_index p) (Z.max 0 adjusted) (Browser.tab_widget b dest)
  ∧ BrowserWindow._drag_seq_accepted (Browser.window b' dest) = DragTabBar.seq p
  ∧ BrowserWindow.was_drag_seq_accepted (Browser.window b' dest) (DragTabBar.seq p) = true
  ∧ (DragTabBar.dropEvent g dest p at_pos b).2 = true
  ∧ Browser.windows b' = Browser.windows b
  ∧ (∀ r, r ≠ dest → Browser.window b' r = Browser.window b r).
Proof.
  intros Hl Hsame dst_index adjusted b'. unfold b'.
  rewrite dropEvent_same_window by done. cbv zeta. fold dst_index.
  assert ((if DragTabBar.src_index p <? dst_index then dst_index - 1 else dst_index)
          = adjusted) as ->.
  { unfold adjusted. destruct (Z.ltb_spec (DragTabBar.src_index p) dst_index);
      case_decide; lia || done. }
  cbn [fst snd].
  assert (live (Browser.update_tabs dest
                  (TabWidget.moveTab (DragTabBar.src_index p) (0 `max` adjusted)) b) dest)
    as Hl' by by apply live_update.
  repeat split.
  - unfold Browser.tab_widget at 1. rewrite window_update_eq by done.
    cbn [BrowserWindow.mark_drag_seq_accepted BrowserWindow._tab_widget].
    fold (Browser.tab_widget
            (Browser.update_tabs dest
               (TabWidget.moveTab (DragTabBar.src_index p) (0 `max` adjusted)) b) dest).
    by rewrite tab_widget_update_tabs_eq.
  - by rewrite window_update_eq.
  - rewrite window_update_eq by done.
    unfold BrowserWindow.was_drag_seq_accepted. by apply bool_decide_eq_true.
  - intros r Hr. unfold Browser.update_tabs. by rewrite !window_update_ne.
Qed.

(** A bar that lays [n] tabs of width 100 out from x = 0, for examples. *)
Definition strip_geometry (n : Z) : DragTabBar.geometry :=
  DragTabBar.mkGeometry
    (λ p, if (0 <=? px p) && (px p <? 100 * n) then px p / 100 else -1)
    (λ i, 100 * i + 50).

Lemma same_window_drop_reorders_and_accepts_witness :
  let p := DragTabBar.mkPayload 0 0 (Some 1) in
  let b' := (DragTabBar.dropEvent (strip_geometry 2) 0%nat p (mkPoint 180 10) two_windows).1 in
  views (Browser.tab_widget b' 0%nat) = [view_b; view_a]
  ∧ BrowserWindow.was_drag_seq_accepted (Browser.window b' 0%nat) (Some 1) = true.
Proof.
  intros p b'. split; [reflexivity|].
  apply (same_window_drop_reorders_and_accepts (strip_geometry 2) 0%nat p (mkPoint 180 10)
           two_windows).
  - by_compute.
  - reflexivity.
Defined.

(** A payload whose window index lies outside [-len, len) of the window
    list, on a window with another index: the drop is ignored and the state
    is the one given. *)
Lemma drop_with_unresolved_window_index_is_ignored g dest p at_pos b :
  DragTabBar.src_window_index p ≠ DragTabBar.window_index b dest →
  Z.of_nat (length (Browser.windows b)) <= DragTabBar.src_window_index p
  ∨ DragTabBar.src_window_index p < - Z.of_nat (length (Browser.windows b)) →
  DragTabBar.dropEvent g dest p at_pos b = (b, false).
Proof.
  intros Hne Hout. unfold DragTabBar.dropEvent.
  destruct (Z.eqb_spec (DragTabBar.src_window_index p) (DragTabBar.window_index b dest));
    [done|].
  assert (PyList.getitem (Browser.windows b) (DragTabBar.src_window_index p) = None) as ->;
    [|done].
  unfold PyList.getitem.
  destruct (Z.leb_spec 0 (DragTabBar.src_window_index p)).
  - apply lookup_ge_None. lia.
  - destruct (Z.leb_spec (- Z.of_nat (length (Browser.windows b)))
                (DragTabBar.src_window_index p)); [lia|done].
Qed.

(** C7.  The payload's window index -1 does resolve: [windows()[-1]], like
    [lookup_window(-1)], is the last window of the list.  Dropped on
    window 0 of two registered windows, such a payload pulls the tab of
    window 1 into window 0, empties and closes window 1, and the event is
    accepted. *)
Theorem drop_with_window_index_minus_one_pulls_from_last_window :
  let p := DragTabBar.mkPayload (-1) 0 (Some 1) in
  let r := DragTabBar.dropEvent (strip_geometry 2) 0%nat p (mkPoint 250 10) two_windows in
  DragTabBar.window_index two_windows 0%nat = 0
  ∧ PyList.getitem (Browser.windows two_windows) (-1) = Some 1%nat
  ∧ Browser.lookup_window two_windows (-1) = Some 1%nat
  ∧ views (Browser.tab_widget two_windows 0%nat) = [view_a; view_b]
  ∧ views (Browser.tab_widget two_windows 1%nat) = [view_c]
  ∧ views (Browser.tab_widget r.1 0%nat) = [view_a; view_b; view_c]
  ∧ views (Browser.tab_widget r.1 1%nat) = []
  ∧ Browser.windows r.1 = [0%nat]
  ∧ BrowserWindow._drag_seq_accepted (Browser.window r.1 1%nat) = Some 1
  ∧ r.2 = true.
Proof. vm_compute. repeat split. Qed.

(** ** Intact strips *)

(** Every page of the strip is a web view, which is all [create_tab],
    [receive_tab_from] and [detach_tab_to_new_window] ever put in one. *)
Definition all_web_views (tw : TabWidget.t) : Prop :=
  Forall (λ w, isWebView w = true) (views tw).

Definition strip_ok (tw : TabWidget.t) : Prop :=
  consistent tw ∧ bar_current_ok (TabWidget._tabbar tw) ∧ all_web_views tw.

Lemma removeTab_strip_ok index tw : strip_ok tw → strip_ok (TabWidget.removeTab index tw).
Proof.
  intros (Hc & Hok & Hweb). split; [by apply removeTab_consistent|]. split.
  - by apply bar_removeTab_ok.
  - unfold all_web_views in *.
    destruct (TabWidget.widget tw index) as [w|] eqn:Hw.
    + destruct (removeTab_seqs index w tw (consistent_length _ Hc) (proj2 Hc) Hw) as [_ ->].
      by apply Forall_delete.
    + by rewrite removeTab_out_of_range by (by apply consistent_length || done).
Qed.

Lemma strip_ok_current_index tw :
  strip_ok tw → 0 < TabWidget.count tw →
  0 <= TabWidget.currentIndex tw < TabWidget.count tw.
Proof.
  intros (Hc & Hok & _) Hpos. pose proof (consistent_length _ Hc) as Hlen.
  unfold bar_current_ok, QTabBar.count in Hok. fold (tabs tw) in Hok.
  rewrite count_views in *. unfold TabWidget.currentIndex. lia.
Qed.

Lemma strip_ok_web_view tw index :
  strip_ok tw → 0 <= index < TabWidget.count tw →
  ∃ view, TabWidget.web_view tw index = Some view
          ∧ views tw !! Z.to_nat index = Some view.
Proof.
  intros (Hc & _ & Hweb) Hr. rewrite count_views in Hr.
  destruct (lookup_lt_is_Some_2 (views tw) (Z.to_nat index)) as [w Hw]; [lia|].
  exists w. split; [|done]. apply web_view_Some. split.
  - apply stack_widget_Some. split; [lia|done].
  - unfold all_web_views in Hweb. rewrite Forall_lookup in Hweb. by eapply Hweb.
Qed.

(** After a tab has been taken out of an intact strip, the strip is
    empty or its current page is a web view, so the focus can be handed
    on. *)
Lemma focus_can_be_handed_on has_focus self index b :
  live b self → strip_ok (Browser.tab_widget b self) →
  let b1 := Browser.update_tabs self (TabWidget.removeTab index) b in
  has_focus && (0 <? TabWidget.count (Browser.tab_widget b1 self))
  && bool_decide (TabWidget.current_web_view (Browser.tab_widget b1 self) = None) = false.
Proof.
  intros Hl Hok b1.
  assert (strip_ok (Browser.tab_widget b1 self)) as Hok1.
  { unfold b1. rewrite tab_widget_update_tabs_eq by done. by apply removeTab_strip_ok. }
  destruct has_focus; [|done].
  destruct (Z.ltb_spec 0 (TabWidget.count (Browser.tab_widget b1 self))) as [Hpos|]; [|done].
  cbn [andb]. apply bool_decide_eq_false.
  destruct (strip_ok_web_view _ (TabWidget.currentIndex (Browser.tab_widget b1 self)) Hok1)
    as (cur & Hcur & _); [by apply strip_ok_current_index|].
  unfold TabWidget.current_web_view. by rewrite Hcur.
Qed.

(** ** Drags that no drop target accepted *)

Lemma window_create_old b r :
  r ≠ length (Browser.heap b) →
  Browser.window (Browser.create_hidden_window b).1 r = Browser.window b r.
Proof.
  intros Hr. unfold Browser.window, Browser.create_hidden_window. simpl.
  destruct (decide (r < length (Browser.heap b))%nat).
  - by rewrite lookup_app_l.
  - rewrite (proj2 (lookup_ge_None (Browser.heap b) r)) by lia.
    rewrite (proj2 (lookup_ge_None _ r)); [done|]. rewrite length_app. simpl. lia.
Qed.

Lemma window_create_new b :
  Browser.window (Browser.create_hidden_window b).1 (length (Browser.heap b))
  = BrowserWindow.init.
Proof.
  unfold Browser.window, Browser.create_hidden_window. simpl.
  by rewrite lookup_app_r, Nat.sub_diag.
Qed.

Lemma addTab_empty view title icon :
  (TabWidget.addTab view title icon TabWidget.empty).1
  = TabWidget.mk (QTabBar.mk [QTabBar.mkTab title icon view] 0) [view].
Proof. reflexivity. Qed.

(** The state [detach_tab_to_new_window] builds when the strip does not
    hold exactly one tab and [from_index] references the web view [view]. *)
Definition detached (self : nat) (from_index : Z) (global_pos : QPoint) (view : QWidget)
    (b : Browser.t) : Browser.t :=
  let txt := TabWidget.tabText (Browser.tab_widget b self) from_index in
  let b1 := Browser.update_tabs self (TabWidget.removeTab from_index) b in
  let child := length (Browser.heap b) in
  Browser.update child (BrowserWindow.move (QPoint_sub global_pos Window.detach_offset))
    (Browser.update_tabs child (λ tw, (TabWidget.addTab view txt (fav_icon view) tw).1)
       (Browser.create_hidden_window b1).1).

Lemma heap_after_removeTab self from_index b :
  length (Browser.heap (Browser.update_tabs self (TabWidget.removeTab from_index) b))
  = length (Browser.heap b).
Proof. unfold Browser.update_tabs, Browser.update. cbn [Browser.heap]. apply length_alter. Qed.

(** What [detach_tab_to_new_window] has done when it returns from a
    strip that does not hold exactly one tab. *)
Lemma detach_tab_to_new_window_returned has_focus self from_index global_pos view b b' :
  TabWidget.count (Browser.tab_widget b self) ≠ 1 →
  TabWidget.web_view (Browser.tab_widget b self) from_index = Some view →
  Window.detach_tab_to_new_window has_focus self from_index global_pos b = Ok b' →
  b' = detached self from_index global_pos view b.
Proof.
  intros Hcount Hv.
  unfold Window.detach_tab_to_new_window, Window.detach_tab_to_new_window_run, detached.
  destruct (Z.eqb_spec (TabWidget.count (Browser.tab_widget b self)) 1); [done|].
  rewrite Hv. cbv zeta.
  match goal with |- context [if ?c then (_, Some _) else _] => destruct c end; [done|].
  unfold Browser.create_hidden_window. cbn [fst snd].
  rewrite !heap_after_removeTab. by intros [= <-].
Qed.

(** From an intact strip with another number of tabs than one, and a
    source index that references a web view, the call returns. *)
Lemma detach_tab_to_new_window_many has_focus self from_index global_pos view b :
  live b self → strip_ok (Browser.tab_widget b self) →
  TabWidget.count (Browser.tab_widget b self) ≠ 1 →
  TabWidget.web_view (Browser.tab_widget b self) from_index = Some view →
  Window.detach_tab_to_new_window_run has_focus self from_index global_pos b
  = (detached self from_index global_pos view b, None).
Proof.
  intros Hl Hok Hcount Hv. unfold Window.detach_tab_to_new_window_run, detached.
  destruct (Z.eqb_spec (TabWidget.count (Browser.tab_widget b self)) 1); [done|].
  rewrite Hv. cbv zeta. rewrite focus_can_be_handed_on by done.
  unfold Browser.create_hidden_window. cbn [fst snd].
  by rewrite !heap_after_removeTab.
Qed.

Lemma detached_spec self from_index global_pos view b :
  live b self → consistent (Browser.tab_widget b self) →
  TabWidget.web_view (Browser.tab_widget b self) from_index = Some view →
  let b' := detached self from_index global_pos view b in
  let child := length (Browser.heap b) in
  views (Browser.tab_widget b' self)
    = delete (Z.to_nat from_index) (views (Browser.tab_widget b self))
  ∧ tabs (Browser.tab_widget b' self)
    = delete (Z.to_nat from_index) (tabs (Browser.tab_widget b self))
  ∧ length (Browser.heap b') = S (length (Browser.heap b))
  ∧ Browser.windows b' = Browser.windows b ++ [child]
  ∧ Browser.window b' child
    = BrowserWindow.move (QPoint_sub global_pos Window.detach_offset)
        (BrowserWindow.with_tab_widget
           (λ _, TabWidget.mk
                   (QTabBar.mk
                      [QTabBar.mkTab (TabWidget.tabText (Browser.tab_widget b self) from_index)
                         (fav_icon view) view] 0) [view])
           BrowserWindow.init)
  ∧ (∀ r, r ≠ self → r ≠ child → Browser.window b' r = Browser.window b r).
Proof.
  intros Hl Hc Hv b' child.
  apply web_view_Some in Hv as [Hw _].
  destruct (removeTab_seqs from_index view _ (consistent_length _ Hc) (proj2 Hc) Hw)
    as [Hrt Hrv].
  set (b1 := Browser.update_tabs self (TabWidget.removeTab from_index) b).
  assert (length (Browser.heap b1) = length (Browser.heap b)) as Hlen1
    by (unfold b1, Browser.update_tabs, Browser.update; simpl; by rewrite length_alter).
  assert (self ≠ child) as Hsc by (unfold live, child in *; lia).
  assert (live (Browser.create_hidden_window b1).1 child) as Hlc.
  { unfold live, Browser.create_hidden_window. cbn [fst Browser.heap].
    rewrite length_app, Hlen1. cbn [length]. unfold child. lia. }
  assert (∀ r, r ≠ child → Browser.window b' r = Browser.window b1 r) as Hold.
  { intros r Hr. unfold b', detached. fold b1 child. unfold Browser.update_tabs at 1.
    rewrite !window_update_ne by done. apply window_create_old. by rewrite Hlen1. }
  assert (Browser.tab_widget b' self = TabWidget.removeTab from_index (Browser.tab_widget b self))
    as Hself.
  { unfold Browser.tab_widget at 1. rewrite Hold by done.
    fold (Browser.tab_widget b1 self). unfold b1. by rewrite tab_widget_update_tabs_eq. }
  split; [by rewrite Hself|]. split; [by rewrite Hself|].
  split; [|split; [|split]].
  - unfold b', detached. fold b1 child. unfold Browser.update_tabs at 1, Browser.update.
    cbn [fst Browser.heap Browser.create_hidden_window].
    rewrite !length_alter, length_app, Hlen1. cbn [length]. lia.
  - unfold b', detached. fold b1 child.
    cbn [fst Browser.windows Browser._windows Browser.update_tabs Browser.update
         Browser.create_hidden_window].
    by rewrite Hlen1.
  - unfold b', detached. fold b1 child.
    rewrite window_update_eq by by apply live_update.
    unfold Browser.update_tabs at 1. rewrite window_update_eq by done.
    unfold child. rewrite <-Hlen1, window_create_new.
    unfold BrowserWindow.with_tab_widget at 1. cbn [BrowserWindow._tab_widget BrowserWindow.init].
    by rewrite addTab_empty.
  - intros r Hr1 Hr2. rewrite Hold by done.
    unfold b1, Browser.update_tabs. by rewrite window_update_ne.
Qed.

Lemma detach_tab_to_new_window_single has_focus self from_index global_pos b :
  TabWidget.count (Browser.tab_widget b self) = 1 →
  Window.detach_tab_to_new_window_run has_focus self from_index global_pos b
  = (Browser.update self
       (BrowserWindow.move (QPoint_sub global_pos Window.detach_offset)) b, None).
Proof. intros Hone. unfold Window.detach_tab_to_new_window_run. by rewrite Hone. Qed.

(** With more or fewer than one tab and a source index that references no
    web view, [detach_tab_to_new_window] has no guard like the one in
    [receive_tab_from]: [view] is [None] and [view.hasFocus()] raises. *)
Lemma detach_tab_to_new_window_stale_index has_focus self from_index global_pos b :
  TabWidget.count (Browser.tab_widget b self) ≠ 1 →
  TabWidget.web_view (Browser.tab_widget b self) from_index = None →
  Window.detach_tab_to_new_window_run has_focus self from_index global_pos b
  = (b, Some AttributeError).
Proof.
  intros Hcount Hv. unfold Window.detach_tab_to_new_window_run.
  destruct (Z.eqb_spec (TabWidget.count (Browser.tab_widget b self)) 1); [done|].
  by rewrite Hv.
Qed.

(** The state in which [drag.exec] returns, for a drag started on window
    [src_win] at tab [drag_start_index] from state [b], together with the
    sequence number of the drag. *)
Definition after_exec (exec : DragTabBar.payload → Browser.t → Browser.t)
    (src_win : nat) (drag_start_index : Z) (b : Browser.t) : Browser.t * Z :=
  let w_seq := BrowserWindow.new_drag_seq (Browser.window b src_win) in
  let b1 := Browser.update src_win (λ _, w_seq.1) b in
  let p := DragTabBar.mkPayload (DragTabBar.window_index b1 src_win) drag_start_index
             (Some w_seq.2) in
  (exec p b1, w_seq.2).

Lemma mouseMoveEvent_unaccepted exec has_focus src_win drag_start_index cursor b :
  let '(b2, seq) := after_exec exec src_win drag_start_index b in
  BrowserWindow.was_drag_seq_accepted (Browser.window b2 src_win) (Some seq) = false →
  DragTabBar.mouseMoveEvent exec has_focus src_win drag_start_index cursor b
  = Ok (Window.detach_tab_to_new_window_run has_focus src_win drag_start_index cursor b2).1.
Proof.
  unfold after_exec, DragTabBar.mouseMoveEvent.
  destruct (BrowserWindow.new_drag_seq (Browser.window b src_win)) as [w seq].
  cbn [fst snd]. by intros ->.
Qed.

(** C2.  A drag whose sequence number is not the originating window's
    accepted one when [drag.exec] returns.  With exactly one tab in that
    window: the window is moved to the release pointer minus the offset
    (60, 20), its strip is the one it had, no window object is created and
    the window list is the same.  With two or more tabs, an intact strip
    (consistent, current index on a tab, web views only) and a source
    index that references a web view: that tab is deleted from the
    strip's two sequences, the other entries keeping their order; one
    window object is created and appended to the window list; its strip
    holds exactly the detached view under the tab's title; and it is
    positioned at the release pointer minus the same offset.  In both
    cases the slot returns without raising, whether or not the dragged
    view had the focus, and all other windows are untouched. *)
Theorem unaccepted_drag_moves_window_or_detaches_tab exec has_focus src_win drag_start_index
    cursor b :
  let b2 := (after_exec exec src_win drag_start_index b).1 in
  let seq := (after_exec exec src_win drag_start_index b).2 in
  let tw := Browser.tab_widget b2 src_win in
  let target := QPoint_sub cursor (mkPoint 60 20) in
  let outcome := DragTabBar.mouseMoveEvent exec has_focus src_win drag_start_index cursor b in
  live b2 src_win →
  BrowserWindow.was_drag_seq_accepted (Browser.window b2 src_win) (Some seq) = false →
  (TabWidget.count tw = 1 →
     ∃ b3, outcome = Ok b3
       ∧ Window.detach_tab_to_new_window has_focus src_win drag_start_index cursor b2 = Ok b3
       ∧ BrowserWindow.pos (Browser.window b3 src_win) = target
       ∧ Browser.tab_widget b3 src_win = tw
       ∧ length (Browser.heap b3) = length (Browser.heap b2)
       ∧ Browser.windows b3 = Browser.windows b2
       ∧ (∀ r, r ≠ src_win → Browser.window b3 r = Browser.window b2 r))
  ∧ (2 <= TabWidget.count tw → strip_ok tw →
     ∀ view, TabWidget.web_view tw drag_start_index = Some view →
     ∃ b3, outcome = Ok b3
       ∧ Window.detach_tab_to_new_window has_focus src_win drag_start_index cursor b2 = Ok b3
       ∧ views (Browser.tab_widget b3 src_win) = delete (Z.to_nat drag_start_index) (views tw)
       ∧ tabs (Browser.tab_widget b3 src_win) = delete (Z.to_nat drag_start_index) (tabs tw)
       ∧ length (Browser.heap b3) = S (length (Browser.heap b2))
       ∧ Browser.windows b3 = Browser.windows b2 ++ [length (Browser.heap b2)]
       ∧ views (Browser.tab_widget b3 (length (Browser.heap b2))) = [view]
       ∧ tabs (Browser.tab_widget b3 (length (Browser.heap b2)))
         = [QTabBar.mkTab (TabWidget.tabText tw drag_start_index) (fav_icon view) view]
       ∧ BrowserWindow.pos (Browser.window b3 (length (Browser.heap b2))) = target
       ∧ (∀ r, r ≠ src_win → r ≠ length (Browser.heap b2) →
            Browser.window b3 r = Browser.window b2 r)).
Proof.
  intros b2 seq tw target outcome Hl Hno.
  pose proof (mouseMoveEvent_unaccepted exec has_focus src_win drag_start_index cursor b) as Hmm.
  destruct (after_exec exec src_win drag_start_index b) as [b2' seq'] eqn:Hae.
  cbn [fst snd] in b2, seq. subst b2 seq. specialize (Hmm Hno). split.
  - intros Hone.
    exists (Browser.update src_win
              (BrowserWindow.move (QPoint_sub cursor Window.detach_offset)) b2').
    split; [|split].
    { unfold outcome. rewrite Hmm. by rewrite detach_tab_to_new_window_single. }
    { unfold Window.detach_tab_to_new_window.
      by rewrite detach_tab_to_new_window_single. }
    repeat split.
    + by rewrite window_update_eq.
    + unfold Browser.tab_widget at 1. by rewrite window_update_eq.
    + unfold Browser.update. cbn [Browser.heap]. apply length_alter.
    + intros r Hr. by rewrite window_update_ne.
  - intros Hmany Hok view Hv.
    assert (TabWidget.count (Browser.tab_widget b2' src_win) ≠ 1) as Hne by (fold tw; lia).
    pose proof (detach_tab_to_new_window_many has_focus src_win drag_start_index cursor view
                  b2' Hl Hok Hne Hv) as Hrun.
    exists (detached src_win drag_start_index cursor view b2'). split; [|split].
    { unfold outcome. rewrite Hmm. by rewrite Hrun. }
    { unfold Window.detach_tab_to_new_window. by rewrite Hrun. }
    destruct (detached_spec src_win drag_start_index cursor view b2' Hl (proj1 Hok) Hv)
      as (Hsv & Hst & Hheap & Hws & Hchild & Hother).
    repeat split; try done.
    + unfold Browser.tab_widget at 1. by rewrite Hchild.
    + unfold Browser.tab_widget at 1. by rewrite Hchild.
    + by rewrite Hchild.
Qed.

Definition three_tabs : Browser.t :=
  let '(b, r0) := Browser.create_hidden_window (Browser.mk [] []) in
  let b := Browser.update_tabs r0 (λ tw, (TabWidget.addTab view_a "a" NullIcon tw).1) b in
  let b := Browser.update_tabs r0 (λ tw, (TabWidget.addTab view_b "b" NullIcon tw).1) b in
  Browser.update_tabs r0 (λ tw, (TabWidget.addTab view_c "c" NullIcon tw).1) b.

Lemma unaccepted_drag_moves_window_or_detaches_tab_witness :
  ∃ b3, DragTabBar.mouseMoveEvent (λ _ b, b) true 0%nat 1 (mkPoint 500 300) three_tabs = Ok b3
    ∧ views (Browser.tab_widget b3 0%nat) = [view_a; view_c]
    ∧ views (Browser.tab_widget b3 1%nat) = [view_b]
    ∧ Browser.windows b3 = [0%nat; 1%nat].
Proof.
  destruct (unaccepted_drag_moves_window_or_detaches_tab
              (λ _ b, b) true 0%nat 1 (mkPoint 500 300) three_tabs) as [_ Hmany].
  - by_compute.
  - reflexivity.
  - assert (strip_ok (Browser.tab_widget three_tabs 0%nat)) as Hok.
    { split; [by apply consistent_compute|]. split; [right; by_compute|by_compute]. }
    destruct (Hmany ltac:(by_compute) Hok view_b eq_refl)
      as (b3 & Hret & _ & Hsv & _ & _ & Hws & Hcv & _).
    exists b3. repeat split; assumption.
Defined.



(** * Further properties of the code around the transfer protocol *)

(** ** The uniform tab width (dragtabbar.py) *)

(** X1.  The width [_recompute_uniform_width] decides on lies between
    [MIN_TAB_W] and [BASE_TAB_W]; whenever it is above the minimum, the
    tabs (one at least) fit in the available width at that size; and
    whenever it is below the base width, one more pixel per tab would not
    fit. *)
Theorem target_width_bounds_and_fit (count avail : Z) :
  let target := DragTabBarLayout.target_width count avail in
  let n := Z.max 1 count in
  DragTabBarLayout.MIN_TAB_W <= target <= DragTabBarLayout.BASE_TAB_W
  ∧ (DragTabBarLayout.MIN_TAB_W < target → n * target <= avail)
  ∧ (target < DragTabBarLayout.BASE_TAB_W → avail < n * (target + 1)).
Proof.
  intros target n. unfold target, DragTabBarLayout.target_width.
  fold n. unfold DragTabBarLayout.MIN_TAB_W, DragTabBarLayout.BASE_TAB_W.
  assert (0 < n) as Hn by (unfold n; lia).
  pose proof (Z.mul_div_le avail n Hn) as Hle.
  pose proof (Z.mul_succ_div_gt avail n Hn) as Hgt.
  destruct (Z.leb_spec (n * 160) avail) as [Hfit|Hnofit].
  - split; [lia|]. split; [lia|]. lia.
  - assert (avail / n < 160) as Hq by (apply Z.div_lt_upper_bound; lia).
    split; [lia|]. split.
    + intros Hmin. replace (8 `max` (avail / n)) with (avail / n) by lia. lia.
    + intros _. unfold Z.succ in Hgt.
      destruct (Z.max_spec 8 (avail / n)) as [[? ->]|[? ->]]; [done|].
      assert (n * (avail / n + 1) <= n * (8 + 1)) by (apply Z.mul_le_mono_nonneg_l; lia).
      lia.
Qed.

(** The skip guard of [_recompute_uniform_width] is sound when the width in
    use is the one applied last, or nothing was applied yet. *)
Definition width_applied (s : DragTabBarLayout.t) : Prop :=
  DragTabBarLayout._last_applied_width s = -1
  ∨ DragTabBarLayout._uniform_tab_width s = DragTabBarLayout._last_applied_width s.

(** X2.  [_recompute_uniform_width] skips the update when the width it
    decides on equals the one applied last; all the same, from the initial
    state on, the width in use after every call is the width decided on for
    that call's tab count and available width. *)
Theorem recompute_uniform_width_is_never_stale (count avail : Z) (s : DragTabBarLayout.t) :
  width_applied s →
  let s' := DragTabBarLayout._recompute_uniform_width count avail s in
  DragTabBarLayout._uniform_tab_width s' = DragTabBarLayout.target_width count avail
  ∧ DragTabBarLayout._last_applied_width s' = DragTabBarLayout.target_width count avail
  ∧ width_applied s'.
Proof.
  intros Hs s'. unfold s', DragTabBarLayout._recompute_uniform_width.
  assert (8 <= DragTabBarLayout.target_width count avail) as Hmin.
  { unfold DragTabBarLayout.target_width, DragTabBarLayout.MIN_TAB_W,
      DragTabBarLayout.BASE_TAB_W. case_match; lia. }
  destruct (Z.eqb_spec (DragTabBarLayout.target_width count avail)
              (DragTabBarLayout._last_applied_width s)) as [Heq|Hne].
  - destruct Hs as [Hinit|Hsame]; [lia|].
    split; [congruence|]. split; [done|]. by right.
  - cbn. split; [done|]. split; [done|]. by right.
Qed.

Lemma recompute_uniform_width_is_never_stale_witness :
  let s1 := DragTabBarLayout._recompute_uniform_width 10 800 DragTabBarLayout.init in
  let s2 := DragTabBarLayout._recompute_uniform_width 10 805 s1 in
  DragTabBarLayout._uniform_tab_width s1 = 80
  ∧ DragTabBarLayout._uniform_tab_width s2 = DragTabBarLayout.target_width 10 805.
Proof.
  intros s1 s2. split; [reflexivity|].
  apply (recompute_uniform_width_is_never_stale 10 805 s1).
  right. reflexivity.
Defined.

(** ** Taking a tab out and putting it back (tabwidget.py, browserwindow.py) *)

Lemma insert_at_delete {A} (l : list A) (i : nat) (x : A) :
  l !! i = Some x → insert_at i x (delete i l) = l.
Proof.
  intros Hi. unfold insert_at. rewrite delete_take_drop.
  pose proof (lookup_lt_Some _ _ _ Hi) as Hlt.
  rewrite take_app_le by (rewrite length_take; lia).
  rewrite take_take, Nat.min_id.
  rewrite drop_app_ge by (rewrite length_take; lia).
  rewrite length_take, Nat.min_l, Nat.sub_diag by lia. cbn [drop].
  by apply take_drop_middle.
Qed.

(** X3.  [take_tab(index)] on a window with a consistent strip and an index
    inside it returns the page widget and the title of that tab and leaves
    the strip without it; [insertTab] of that widget at the same index,
    with the title returned and the tab's icon, gives back the two
    sequences the strip had. *)
Theorem take_tab_then_insertTab_restores (index : Z) (w : BrowserWindow.t) tab :
  consistent (BrowserWindow._tab_widget w) →
  0 <= index →
  tabs (BrowserWindow._tab_widget w) !! Z.to_nat index = Some tab →
  let tw := BrowserWindow._tab_widget w in
  let taken := WindowOps.take_tab index w in
  let tw' := BrowserWindow._tab_widget taken.1 in
  taken.2 = (Some (QTabBar.owner tab), QTabBar.text tab)
  ∧ views tw' = delete (Z.to_nat index) (views tw)
  ∧ tabs tw' = delete (Z.to_nat index) (tabs tw)
  ∧ views (TabWidget.insertTab index (QTabBar.owner tab) (QTabBar.text tab)
             (QTabBar.icon tab) tw').1 = views tw
  ∧ tabs (TabWidget.insertTab index (QTabBar.owner tab) (QTabBar.text tab)
            (QTabBar.icon tab) tw').1 = tabs tw.
Proof.
  intros Hc H0 Htab tw taken tw'. fold tw in Hc, Htab.
  pose proof (consistent_length _ Hc) as Hlen. destruct Hc as [Hal Hnd].
  assert (views tw !! Z.to_nat index = Some (QTabBar.owner tab)) as Hw
    by (by rewrite <-Hal, list_lookup_fmap, Htab).
  assert (TabWidget.widget tw index = Some (QTabBar.owner tab)) as Hwid
    by (by apply stack_widget_Some).
  destruct (removeTab_seqs index _ tw Hlen Hnd Hwid) as [Hrt Hrv].
  assert (TabWidget.tabText tw index = QTabBar.text tab) as Htxt.
  { unfold TabWidget.tabText, QTabBar.tabText, QTabBar.validIndex, QTabBar.count.
    fold (tabs tw). rewrite Htab. apply lookup_lt_Some in Htab.
    destruct (Z.leb_spec 0 index); [|lia].
    by destruct (Z.ltb_spec index (Z.of_nat (length (tabs tw)))); [|lia]. }
  assert (tw' = TabWidget.removeTab index tw) as Htw' by done.
  split.
  { unfold taken, WindowOps.take_tab. cbn [snd]. fold tw. by f_equal. }
  rewrite Htw'. split; [done|]. split; [done|].
  pose proof (length_delete_lookup _ _ _ Hw) as Hdw.
  pose proof (length_delete_lookup _ _ _ Htab) as Hdt.
  destruct (insertTab_seqs index (QTabBar.owner tab) (QTabBar.text tab) (QTabBar.icon tab)
              (TabWidget.removeTab index tw)) as (Hit & Hiv & _).
  { rewrite Hrt, Hrv. lia. }
  { rewrite Hrv. by apply not_elem_of_delete_NoDup. }
  rewrite Hiv, Hit, Hrv, Hrt.
  pose proof (lookup_lt_Some _ _ _ Hw) as Hlt.
  rewrite insert_pos_in_range by lia.
  split; [by apply insert_at_delete|].
  replace (QTabBar.mkTab (QTabBar.text tab) (QTabBar.icon tab) (QTabBar.owner tab))
    with tab by (by destruct tab).
  by apply insert_at_delete.
Qed.

Lemma take_tab_then_insertTab_restores_witness :
  let w := Browser.window two_windows 0%nat in
  views (TabWidget.insertTab 0 view_a "a" NullIcon
           (BrowserWindow._tab_widget (WindowOps.take_tab 0 w).1)).1
  = [view_a; view_b].
Proof.
  intros w.
  apply (take_tab_then_insertTab_restores 0 w (QTabBar.mkTab "a" NullIcon view_a)).
  - by apply consistent_compute.
  - lia.
  - reflexivity.
Defined.

(** ** Moving a tab back (tabwidget.py) *)

(** X4.  On a consistent strip, [moveTab(from_index, to_index)] with a
    source index inside the strip, followed by [moveTab] from the
    position the tab landed on (the current index) back to [from_index],
    restores both sequences, and the tab is current at its old place. *)
Theorem moveTab_back_restores from_index to_index tw :
  consistent tw → 0 <= from_index < TabWidget.count tw →
  let moved := TabWidget.moveTab from_index to_index tw in
  let back := TabWidget.moveTab (TabWidget.currentIndex moved) from_index moved in
  (from_index ≠ to_index →
     views back = views tw ∧ tabs back = tabs tw
     ∧ TabWidget.currentIndex back = from_index)
  ∧ (from_index = to_index → moved = tw).
Proof.
  intros Hc Hr moved back. split; [|intros <-; apply moveTab_same_index].
  intros Hne.
  destruct (moveTab_seqs _ _ _ Hc Hne Hr) as (tab & w & Htab & Hw & Ht & Hv & Hcur).
  set (k := move_target to_index (length (views tw) - 1)) in *.
  fold moved in Ht, Hv, Hcur.
  pose proof (length_delete_lookup _ _ _ Hw) as Hlw.
  pose proof (length_delete_lookup _ _ _ Htab) as Hlt.
  pose proof (consistent_length _ Hc) as Hlen.
  assert (k ≤ length (delete (Z.to_nat from_index) (views tw)))%nat as Hkv
    by (pose proof (move_target_le to_index (length (views tw) - 1)); unfold k; lia).
  assert (k ≤ length (delete (Z.to_nat from_index) (tabs tw)))%nat as Hkt by lia.
  assert (consistent moved) as Hcm by by apply moveTab_consistent.
  rewrite count_views in Hr.
  destruct (decide (Z.of_nat k = from_index)) as [Hsame|Hdiff].
  - assert (k = Z.to_nat from_index) as Hk by lia.
    unfold back. rewrite Hcur, Hsame, moveTab_same_index.
    rewrite Hv, Ht, Hk.
    split; [by apply insert_at_delete|]. split; [by apply insert_at_delete|].
    by rewrite Hcur.
  - destruct (moveTab_seqs (Z.of_nat k) from_index moved Hcm) as
      (tab' & w' & Htab' & Hw' & Ht' & Hv' & Hcur'); [done| |].
    { rewrite count_views, Hv, length_insert_at. lia. }
    rewrite Nat2Z.id in *.
    rewrite Hv, lookup_insert_at in Hw' by done.
    rewrite Ht, lookup_insert_at in Htab' by done.
    simplify_eq.
    assert (move_target from_index (length (views moved) - 1) = Z.to_nat from_index) as Hback.
    { unfold move_target. rewrite Hv, length_insert_at.
      destruct (Nat.ltb_spec 0 (S (length (delete (Z.to_nat from_index) (views tw))) - 1));
        lia. }
    unfold back. rewrite Hcur, Hv', Ht', Hcur', Hback.
    rewrite Hv, Ht, !delete_insert_at by done.
    split; [by apply insert_at_delete|]. split; [by apply insert_at_delete|]. lia.
Qed.

Lemma moveTab_back_restores_witness :
  let tw := Browser.tab_widget three_tabs 0%nat in
  let moved := TabWidget.moveTab 0 2 tw in
  views moved = [view_b; view_c; view_a]
  ∧ views (TabWidget.moveTab (TabWidget.currentIndex moved) 0 moved) = views tw.
Proof.
  intros tw moved. split; [reflexivity|].
  destruct (moveTab_back_restores 0 2 tw) as [Hback _].
  - by apply consistent_compute.
  - by_compute.
  - destruct Hback as [Hv _]; [lia|exact Hv].
Defined.

(** ** Cycling all the way round (tabwidget.py) *)

Lemma next_tab_seqs tw :
  views (TabWidget.next_tab tw) = views tw ∧ tabs (TabWidget.next_tab tw) = tabs tw
  ∧ TabWidget.count (TabWidget.next_tab tw) = TabWidget.count tw.
Proof.
  unfold TabWidget.next_tab. cbv zeta.
  by rewrite setCurrentIndex_views, setCurrentIndex_tabs, setCurrentIndex_count.
Qed.

Lemma next_tab_iter_current (k : nat) tw :
  length (tabs tw) = length (views tw) →
  0 <= TabWidget.currentIndex tw < TabWidget.count tw →
  length (tabs (Nat.iter k TabWidget.next_tab tw))
    = length (views (Nat.iter k TabWidget.next_tab tw))
  ∧ TabWidget.count (Nat.iter k TabWidget.next_tab tw) = TabWidget.count tw
  ∧ TabWidget.currentIndex (Nat.iter k TabWidget.next_tab tw)
    = (TabWidget.currentIndex tw + Z.of_nat k) mod TabWidget.count tw.
Proof.
  intros Hlen Hc. induction k as [|k (IHl & IHn & IHc)].
  - cbn [Nat.iter nat_rect]. split; [done|]. split; [done|].
    by rewrite Z.add_0_r, Z.mod_small.
  - rewrite !Nat.iter_succ.
    assert (0 <= (TabWidget.currentIndex tw + Z.of_nat k) mod TabWidget.count tw
            < TabWidget.count tw) as Hr by (apply Z.mod_pos_bound; lia).
    destruct (next_tab_seqs (Nat.iter k TabWidget.next_tab tw)) as (Hv & Ht & Hn).
    split; [|split].
    + by rewrite Hv, Ht.
    + by rewrite Hn.
    + rewrite next_tab_current by (done || (rewrite IHc, IHn; lia)).
      rewrite IHc, IHn, Zplus_mod_idemp_l. f_equal. lia.
Qed.

(** X5.  On a strip with the current index on one of its [n] tabs,
    [next_tab] called [k] times makes [(c + k) mod n] current without
    touching either sequence; so [n] calls come back to the tab they
    started from, and every tab of the strip is reached on the way. *)
Theorem next_tab_goes_all_the_way_round tw :
  length (tabs tw) = length (views tw) →
  0 <= TabWidget.currentIndex tw < TabWidget.count tw →
  let n := TabWidget.count tw in
  let c := TabWidget.currentIndex tw in
  (∀ k : nat, TabWidget.currentIndex (Nat.iter k TabWidget.next_tab tw)
                = (c + Z.of_nat k) mod n
              ∧ views (Nat.iter k TabWidget.next_tab tw) = views tw
              ∧ tabs (Nat.iter k TabWidget.next_tab tw) = tabs tw)
  ∧ TabWidget.currentIndex (Nat.iter (Z.to_nat n) TabWidget.next_tab tw) = c
  ∧ (∀ j, 0 <= j < n →
       ∃ k : nat, (k < Z.to_nat n)%nat
                  ∧ TabWidget.currentIndex (Nat.iter k TabWidget.next_tab tw) = j).
Proof.
  intros Hlen Hc n c.
  assert (∀ k : nat, views (Nat.iter k TabWidget.next_tab tw) = views tw
                     ∧ tabs (Nat.iter k TabWidget.next_tab tw) = tabs tw) as Hseq.
  { induction k as [|k [IHv IHt]]; [done|]. rewrite !Nat.iter_succ.
    destruct (next_tab_seqs (Nat.iter k TabWidget.next_tab tw)) as (Hv & Ht & _).
    by rewrite Hv, Ht. }
  split; [|split].
  - intros k. split; [|apply Hseq].
    by destruct (next_tab_iter_current k tw Hlen Hc) as (_ & _ & ->).
  - destruct (next_tab_iter_current (Z.to_nat n) tw Hlen Hc) as (_ & _ & ->).
    fold n c. rewrite Z2Nat.id by lia.
    replace (c + n) with (c + 1 * n) by lia.
    rewrite Z_mod_plus_full. apply Z.mod_small. lia.
  - intros j Hj. exists (Z.to_nat ((j - c) mod n)).
    assert (0 <= (j - c) mod n < n) as Hr by (apply Z.mod_pos_bound; lia).
    split; [lia|].
    destruct (next_tab_iter_current (Z.to_nat ((j - c) mod n)) tw Hlen Hc) as (_ & _ & ->).
    fold n c. rewrite Z2Nat.id by lia.
    rewrite Zplus_mod_idemp_r. replace (c + (j - c)) with j by lia.
    apply Z.mod_small. lia.
Qed.

Lemma next_tab_goes_all_the_way_round_witness :
  let tw := Browser.tab_widget three_tabs 0%nat in
  TabWidget.currentIndex tw = 0
  ∧ TabWidget.currentIndex (Nat.iter 3 TabWidget.next_tab tw) = 0.
Proof.
  intros tw. split; [reflexivity|].
  destruct (next_tab_goes_all_the_way_round tw) as (_ & Hround & _).
  - reflexivity.
  - by_compute.
  - exact Hround.
Defined.

(** ** Opening tabs (tabwidget.py) *)

Lemma addTab_current w title icon tw :
  bar_current_ok (TabWidget._tabbar tw) →
  TabWidget.currentIndex (TabWidget.addTab w title icon tw).1
  = if decide (tabs tw = []) then 0 else TabWidget.currentIndex tw.
Proof.
  intros Hok. unfold TabWidget.addTab, QTabBar.addTab, QTabBar.insertTab, tabs.
  unfold bar_current_ok in Hok.
  change (QTabBar.validIndex (TabWidget._tabbar tw) (-1)) with false. cbv iota.
  unfold TabWidget.currentIndex. cbn [fst snd TabWidget._tabbar].
  rewrite length_insert_at. unfold QTabBar.setCurrentIndex, QTabBar.validIndex.
  unfold QTabBar.count in *. cbn [QTabBar.tabList QTabBar.currentIndex].
  rewrite length_insert_at.
  destruct (QTabBar.tabList (TabWidget._tabbar tw)) as [|t l].
  - reflexivity.
  - rewrite decide_False by done. cbn [length] in *.
    destruct (Nat.eqb_spec (S (S (length l))) 1) as [Hone|_]; [lia|].
    destruct (Z.leb_spec (Z.of_nat (S (length l)))
                (QTabBar.currentIndex (TabWidget._tabbar tw))); [lia|done].
Qed.

Lemma setTabIcon_spec index icon tw :
  views (TabWidgetOps.setTabIcon index icon tw) = views tw
  ∧ TabWidget.currentIndex (TabWidgetOps.setTabIcon index icon tw) = TabWidget.currentIndex tw
  ∧ (0 <= index < Z.of_nat (length (tabs tw)) →
       tabs (TabWidgetOps.setTabIcon index icon tw)
       = alter (λ tab, QTabBar.mkTab (QTabBar.text tab) icon (QTabBar.owner tab))
           (Z.to_nat index) (tabs tw)).
Proof.
  unfold TabWidgetOps.setTabIcon, TabWidgetOps.bar_setTabIcon, views, tabs,
    TabWidget.currentIndex, QTabBar.validIndex, QTabBar.count.
  cbn [TabWidget._stack TabWidget._tabbar].
  destruct (Z.leb_spec 0 index);
    destruct (Z.ltb_spec index (Z.of_nat (length (QTabBar.tabList (TabWidget._tabbar tw)))));
    cbn [andb QTabBar.tabList QTabBar.currentIndex]; repeat split; try done; lia.
Qed.

Lemma setTabText_spec index text tw :
  views (TabWidgetOps.setTabText index text tw) = views tw
  ∧ TabWidget.currentIndex (TabWidgetOps.setTabText index text tw) = TabWidget.currentIndex tw
  ∧ (0 <= index < Z.of_nat (length (tabs tw)) →
       tabs (TabWidgetOps.setTabText index text tw)
       = alter (λ tab, QTabBar.mkTab text (QTabBar.icon tab) (QTabBar.owner tab))
           (Z.to_nat index) (tabs tw)).
Proof.
  unfold TabWidgetOps.setTabText, TabWidgetOps.bar_setTabText, views, tabs,
    TabWidget.currentIndex, QTabBar.validIndex, QTabBar.count.
  cbn [TabWidget._stack TabWidget._tabbar].
  destruct (Z.leb_spec 0 index);
    destruct (Z.ltb_spec index (Z.of_nat (length (QTabBar.tabList (TabWidget._tabbar tw)))));
    cbn [andb QTabBar.tabList QTabBar.currentIndex]; repeat split; try done; lia.
Qed.

Lemma alter_last {A} (f : A → A) (l : list A) (x : A) :
  alter f (length l) (l ++ [x]) = l ++ [f x].
Proof.
  replace (length l) with (length l + 0)%nat at 1 by lia. by rewrite alter_app_r.
Qed.

(** The title a new tab is shown with. *)
Definition new_tab_text (title : string) : string :=
  if decide (title = ""%string) then "(Untitled)"%string else title.

Lemma create_background_tab_spec web_view title tw :
  consistent tw → bar_current_ok (TabWidget._tabbar tw) → web_view ∉ views tw →
  let tw' := TabWidgetOps.create_background_tab web_view title tw in
  views tw' = views tw ++ [web_view]
  ∧ tabs tw' = tabs tw ++ [QTabBar.mkTab (new_tab_text title) (fav_icon web_view) web_view]
  ∧ TabWidget.currentIndex tw'
    = (if decide (tabs tw = []) then 0 else TabWidget.currentIndex tw).
Proof.
  intros Hc Hok Hnew tw'. pose proof (consistent_length _ Hc) as Hlen.
  destruct (addTab_seqs web_view "(Untitled)" NullIcon tw Hlen Hnew) as (Ht & Hv & Hidx).
  pose proof (addTab_current web_view "(Untitled)" NullIcon tw Hok) as Hcur.
  unfold tw', TabWidgetOps.create_background_tab.
  destruct (TabWidget.addTab web_view "(Untitled)" NullIcon tw) as [tw1 index].
  cbn [fst snd] in *. rewrite <-Hlen in Hidx. subst index.
  destruct (setTabIcon_spec (Z.of_nat (length (tabs tw))) (fav_icon web_view) tw1)
    as (Hiv & Hic & Hit).
  assert (length (tabs tw1) = S (length (tabs tw))) as Hl1
    by (rewrite Ht, length_app; cbn [length]; lia).
  specialize (Hit ltac:(lia)).
  rewrite Ht, Nat2Z.id, alter_last in Hit. cbn [QTabBar.text QTabBar.owner] in Hit.
  set (tw2 := TabWidgetOps.setTabIcon (Z.of_nat (length (tabs tw))) (fav_icon web_view) tw1)
    in *.
  unfold new_tab_text. destruct (decide (title = ""%string)) as [->|Hne].
  - by rewrite Hiv, Hv, Hic, Hcur, Hit.
  - destruct (setTabText_spec (Z.of_nat (length (tabs tw))) title tw2) as (Hsv & Hsc & Hst).
    assert (length (tabs tw2) = S (length (tabs tw))) as Hl2
      by (rewrite Hit, length_app; cbn [length]; lia).
    specialize (Hst ltac:(lia)).
    rewrite Hit, Nat2Z.id, alter_last in Hst. cbn [QTabBar.icon QTabBar.owner] in Hst.
    by rewrite Hsv, Hsc, Hiv, Hv, Hic, Hcur, Hst.
Qed.

Lemma consistent_appended tw tw' tab w :
  consistent tw → w ∉ views tw → QTabBar.owner tab = w →
  views tw' = views tw ++ [w] → tabs tw' = tabs tw ++ [tab] → consistent tw'.
Proof.
  intros [Hal Hnd] Hw Hown Hv Ht. split.
  - by rewrite Ht, Hv, fmap_app, Hal; cbn; rewrite Hown.
  - rewrite Hv, <-insert_at_end. by apply NoDup_insert_at.
Qed.

(** X6.  [create_background_tab] on a consistent strip, with a new web
    view: the view and its visual entry are appended (untitled views are
    shown as "(Untitled)", with the view's icon), every tab there was
    keeps its position, and a non-empty strip keeps its current tab; in
    an empty strip the new tab becomes current.  The strip is consistent
    again. *)
Theorem create_background_tab_appends_and_keeps_current web_view title tw :
  consistent tw → bar_current_ok (TabWidget._tabbar tw) → web_view ∉ views tw →
  let tw' := TabWidgetOps.create_background_tab web_view title tw in
  views tw' = views tw ++ [web_view]
  ∧ tabs tw' = tabs tw ++ [QTabBar.mkTab (new_tab_text title) (fav_icon web_view) web_view]
  ∧ (views tw ≠ [] →
       TabWidget.currentIndex tw' = TabWidget.currentIndex tw
       ∧ TabWidget.widget tw' (TabWidget.currentIndex tw')
         = TabWidget.widget tw (TabWidget.currentIndex tw))
  ∧ (views tw = [] → TabWidget.currentIndex tw' = 0)
  ∧ consistent tw'.
Proof.
  intros Hc Hok Hnew tw'.
  destruct (create_background_tab_spec web_view title tw Hc Hok Hnew) as (Hv & Ht & Hcur).
  fold tw' in Hv, Ht, Hcur. pose proof (consistent_length _ Hc) as Hlen.
  split; [done|]. split; [done|]. split; [|split].
  - intros Hne.
    assert (tabs tw ≠ []) as Hnt by (intros Hnil; rewrite Hnil in Hlen; by destruct (views tw)).
    rewrite decide_False in Hcur by done. split; [done|]. rewrite Hcur.
    unfold bar_current_ok, QTabBar.count in Hok. fold (tabs tw) in Hok.
    assert (0 <= TabWidget.currentIndex tw < Z.of_nat (length (views tw))) as Hr.
    { unfold TabWidget.currentIndex. destruct Hok as [[Hz _]|Hin]; [|lia].
      destruct (tabs tw); [done|cbn in Hz; lia]. }
    destruct (lookup_lt_is_Some_2 (views tw) (Z.to_nat (TabWidget.currentIndex tw)))
      as [w Hw]; [lia|].
    transitivity (Some w); [|symmetry]; apply stack_widget_Some; (split; [lia|]).
    + fold (views tw'). rewrite Hv. by apply lookup_app_l_Some.
    + done.
  - intros Hnil. rewrite Hnil in Hlen. rewrite decide_True in Hcur; [done|].
    by destruct (tabs tw).
  - exact (consistent_appended tw tw'
             (QTabBar.mkTab (new_tab_text title) (fav_icon web_view) web_view)
             web_view Hc Hnew eq_refl Hv Ht).
Qed.

Lemma create_background_tab_appends_and_keeps_current_witness :
  let tw := Browser.tab_widget two_windows 0%nat in
  let tw' := TabWidgetOps.create_background_tab view_c "" tw in
  TabWidget.currentIndex tw' = 0
  ∧ views tw' = views tw ++ [view_c].
Proof.
  intros tw tw'. split; [reflexivity|].
  apply (create_background_tab_appends_and_keeps_current view_c "" tw).
  - by apply consistent_compute.
  - right. by_compute.
  - by_compute.
Defined.

Lemma index_app_fresh {A} `{EqDecision A} (l : list A) (x : A) :
  x ∉ l → PyList.index x (l ++ [x]) = Some (length l).
Proof.
  induction l as [|y l IH]; intros Hx; cbn.
  - by rewrite decide_True.
  - apply not_elem_of_cons in Hx as [Hxy Hx].
    rewrite decide_False by done. by rewrite IH.
Qed.

Lemma create_tab_spec web_view title tw :
  consistent tw → bar_current_ok (TabWidget._tabbar tw) → web_view ∉ views tw →
  isWebView web_view = true →
  let tw' := TabWidgetOps.create_tab web_view title tw in
  views tw' = views tw ++ [web_view]
  ∧ tabs tw' = tabs tw ++ [QTabBar.mkTab (new_tab_text title) (fav_icon web_view) web_view]
  ∧ TabWidget.currentIndex tw' = TabWidget.count tw
  ∧ TabWidget.current_web_view tw' = Some web_view
  ∧ consistent tw'.
Proof.
  intros Hc Hok Hnew Hweb tw'.
  destruct (create_background_tab_spec web_view title tw Hc Hok Hnew) as (Hv & Ht & _).
  set (tw1 := TabWidgetOps.create_background_tab web_view title tw) in *.
  pose proof (consistent_length _ Hc) as Hlen.
  assert (TabWidgetOps.indexOf tw1 web_view = Z.of_nat (length (views tw))) as Hidx.
  { unfold TabWidgetOps.indexOf. fold (views tw1). by rewrite Hv, index_app_fresh. }
  assert (tw' = TabWidget.setCurrentIndex (Z.of_nat (length (views tw))) tw1) as ->.
  { unfold tw', TabWidgetOps.create_tab, TabWidgetOps.setCurrentWidget. fold tw1.
    rewrite Hidx. by destruct (Z.eqb_spec (Z.of_nat (length (views tw))) (-1)); [lia|]. }
  rewrite setCurrentIndex_views, setCurrentIndex_tabs.
  assert (TabWidget.currentIndex
            (TabWidget.setCurrentIndex (Z.of_nat (length (views tw))) tw1)
          = Z.of_nat (length (views tw))) as Hcur.
  { apply setCurrentIndex_current.
    - rewrite Ht, Hv, !length_app. cbn [length]. lia.
    - rewrite count_views, Hv, length_app. cbn [length]. lia. }
  split; [done|]. split; [done|]. split; [by rewrite count_views|]. split.
  - unfold TabWidget.current_web_view. rewrite Hcur.
    apply web_view_Some. split; [|done]. apply stack_widget_Some. split; [lia|].
    fold (views (TabWidget.setCurrentIndex (Z.of_nat (length (views tw))) tw1)).
    rewrite setCurrentIndex_views, Hv, Nat2Z.id.
    by apply list_lookup_middle.
  - apply (consistent_appended tw _
             (QTabBar.mkTab (new_tab_text title) (fav_icon web_view) web_view)
             web_view Hc Hnew eq_refl).
    + by rewrite setCurrentIndex_views.
    + by rewrite setCurrentIndex_tabs.
Qed.

(** X7.  [create_tab] on a consistent strip, with a new web view: the tab
    is appended as by [create_background_tab] and is the current tab
    afterwards, its web view the current web view. *)
Theorem create_tab_appends_and_selects web_view title tw :
  consistent tw → bar_current_ok (TabWidget._tabbar tw) → web_view ∉ views tw →
  isWebView web_view = true →
  let tw' := TabWidgetOps.create_tab web_view title tw in
  views tw' = views tw ++ [web_view]
  ∧ tabs tw' = tabs tw ++ [QTabBar.mkTab (new_tab_text title) (fav_icon web_view) web_view]
  ∧ TabWidget.currentIndex tw' = TabWidget.count tw
  ∧ TabWidget.current_web_view tw' = Some web_view
  ∧ consistent tw'.
Proof. apply create_tab_spec. Qed.

Lemma create_tab_appends_and_selects_witness :
  let tw := Browser.tab_widget two_windows 0%nat in
  let tw' := TabWidgetOps.create_tab view_c "news" tw in
  TabWidget.tabText tw' 2 = "news"%string
  ∧ TabWidget.current_web_view tw' = Some view_c.
Proof.
  intros tw tw'. split; [reflexivity|].
  apply (create_tab_appends_and_selects view_c "news" tw).
  - by apply consistent_compute.
  - right. by_compute.
  - by_compute.
  - reflexivity.
Defined.

(** ** Closing tabs (tabwidget.py) *)

(** [b'] differs from [b] in the strip of window [self] at most. *)
Definition only_strip_changed (self : nat) (b b' : Browser.t) : Prop :=
  Browser.windows b' = Browser.windows b
  ∧ length (Browser.heap b') = length (Browser.heap b)
  ∧ (∀ r, r ≠ self → Browser.window b' r = Browser.window b r)
  ∧ Browser.window b' self
    = BrowserWindow.with_tab_widget (λ _, Browser.tab_widget b' self) (Browser.window b self).

Lemma only_strip_changed_refl self b : only_strip_changed self b b.
Proof.
  repeat split; try done. unfold Browser.tab_widget. by destruct (Browser.window b self).
Qed.

Lemma only_strip_changed_trans self b1 b2 b3 :
  only_strip_changed self b1 b2 → only_strip_changed self b2 b3 →
  only_strip_changed self b1 b3.
Proof.
  intros (Hw1 & Hl1 & Ho1 & Hs1) (Hw2 & Hl2 & Ho2 & Hs2). repeat split.
  - congruence.
  - congruence.
  - intros r Hr. by rewrite Ho2, Ho1.
  - rewrite Hs2, Hs1. done.
Qed.

Lemma only_strip_changed_update_tabs self f b :
  live b self → only_strip_changed self b (Browser.update_tabs self f b).
Proof.
  intros Hl. unfold Browser.update_tabs. repeat split.
  - unfold Browser.update. cbn [Browser.heap]. apply length_alter.
  - intros r Hr. by rewrite window_update_ne.
  - unfold Browser.tab_widget. rewrite window_update_eq by done. done.
Qed.

Lemma close_tab_stale had_focus self index b :
  TabWidget.web_view (Browser.tab_widget b self) index = None →
  TabWidgetOps.close_tab had_focus self index b = Ok b.
Proof. intros Hv. unfold TabWidgetOps.close_tab. by rewrite Hv. Qed.

(** What [close_tab] returns for an index inside an intact strip. *)
Lemma close_tab_in_range had_focus self index b :
  live b self → strip_ok (Browser.tab_widget b self) →
  0 <= index < TabWidget.count (Browser.tab_widget b self) →
  let b1 := Browser.update_tabs self (TabWidget.removeTab index) b in
  TabWidgetOps.close_tab had_focus self index b
  = Ok (if TabWidget.count (Browser.tab_widget b self) =? 1
        then Window.close self b1 else b1)
  ∧ views (Browser.tab_widget b1 self)
    = delete (Z.to_nat index) (views (Browser.tab_widget b self))
  ∧ tabs (Browser.tab_widget b1 self)
    = delete (Z.to_nat index) (tabs (Browser.tab_widget b self))
  ∧ strip_ok (Browser.tab_widget b1 self)
  ∧ TabWidget.count (Browser.tab_widget b1 self)
    = TabWidget.count (Browser.tab_widget b self) - 1.
Proof.
  intros Hl Hok Hr b1.
  destruct (strip_ok_web_view _ index Hok Hr) as (view & Hv & Hw).
  pose proof Hok as (Hc & _ & _).
  pose proof Hv as [Hwid _]%web_view_Some.
  destruct (removeTab_seqs index view _ (consistent_length _ Hc) (proj2 Hc) Hwid)
    as [Hrt Hrv].
  assert (Browser.tab_widget b1 self
          = TabWidget.removeTab index (Browser.tab_widget b self)) as Htw1
    by (unfold b1; by rewrite tab_widget_update_tabs_eq).
  assert (strip_ok (Browser.tab_widget b1 self)) as Hok1
    by (rewrite Htw1; by apply removeTab_strip_ok).
  pose proof (length_delete_lookup _ _ _ Hw) as Hdel.
  assert (TabWidget.count (Browser.tab_widget b1 self)
          = TabWidget.count (Browser.tab_widget b self) - 1) as Hcount
    by (rewrite !count_views, Htw1, Hrv; lia).
  split; [|split; [by rewrite Htw1|split; [by rewrite Htw1|done]]].
  unfold TabWidgetOps.close_tab. rewrite Hv. fold b1.
  assert (had_focus && (0 <? TabWidget.count (Browser.tab_widget b1 self))
          && bool_decide (TabWidget.current_web_view (Browser.tab_widget b1 self) = None)
          = false) as ->.
  { destruct had_focus; [|done].
    destruct (Z.ltb_spec 0 (TabWidget.count (Browser.tab_widget b1 self))) as [Hpos|];
      [|done].
    cbn [andb]. apply bool_decide_eq_false.
    destruct (strip_ok_web_view _ (TabWidget.currentIndex (Browser.tab_widget b1 self)) Hok1)
      as (cur & Hcur & _); [by apply strip_ok_current_index|].
    unfold TabWidget.current_web_view. by rewrite Hcur. }
  rewrite Hcount.
  destruct (Z.eqb_spec (TabWidget.count (Browser.tab_widget b self) - 1) 0);
    destruct (Z.eqb_spec (TabWidget.count (Browser.tab_widget b self)) 1); done || lia.
Qed.

Lemma window_close_ne self r b :
  r ≠ self → Browser.window (Window.close self b) r = Browser.window b r.
Proof. intros Hr. unfold Window.close. by rewrite window_update_ne. Qed.

(** X8.  [close_tab] on a live window whose strip is intact (consistent,
    current index on a tab, web views only): for an index that Qt accepts
    as an [int] and that references no web view, the call returns and
    nothing changes; for an index inside the strip the call
    returns, that tab is deleted from both sequences and no other window
    is touched; when it was the only tab the window is closed and no
    longer in the window list, otherwise the window stays open and the
    list is the same. *)
Theorem close_tab_deletes_and_closes_emptied_window had_focus self index b :
  live b self → NoDup (Browser.windows b) → strip_ok (Browser.tab_widget b self) →
  let tw := Browser.tab_widget b self in
  (c_int index → TabWidget.web_view tw index = None →
     TabWidgetOps.close_tab had_focus self index b = Ok b)
  ∧ (0 <= index < TabWidget.count tw →
     ∃ b', TabWidgetOps.close_tab had_focus self index b = Ok b'
       ∧ views (Browser.tab_widget b' self) = delete (Z.to_nat index) (views tw)
       ∧ tabs (Browser.tab_widget b' self) = delete (Z.to_nat index) (tabs tw)
       ∧ (∀ r, r ≠ self → Browser.window b' r = Browser.window b r)
       ∧ (TabWidget.count tw = 1 →
            BrowserWindow.closed (Browser.window b' self) = true
            ∧ self ∉ Browser.windows b')
       ∧ (TabWidget.count tw ≠ 1 →
            Browser.windows b' = Browser.windows b
            ∧ BrowserWindow.closed (Browser.window b' self)
              = BrowserWindow.closed (Browser.window b self))).
Proof.
  intros Hl Hnd Hok tw. split; [intros _; apply close_tab_stale|].
  intros Hr.
  destruct (close_tab_in_range had_focus self index b Hl Hok Hr) as (Hret & Hv & Ht & _ & _).
  set (b1 := Browser.update_tabs self (TabWidget.removeTab index) b) in *.
  destruct (only_strip_changed_update_tabs self (TabWidget.removeTab index) b Hl)
    as (Hws & Hlen & Hother & Hself). fold b1 in Hws, Hlen, Hother, Hself.
  assert (live b1 self) as Hl1 by (unfold live in *; lia).
  eexists. split; [exact Hret|]. fold tw.
  destruct (Z.eqb_spec (TabWidget.count tw) 1) as [Hone|Hmany].
  - rewrite tab_widget_close. split; [done|]. split; [done|]. split.
    + intros r Hne. by rewrite window_close_ne, Hother.
    + split; [|done]. intros _. split; [by apply closed_close|].
      rewrite windows_close, Hws. by apply remove_first_gone.
  - split; [done|]. split; [done|]. split; [done|]. split; [done|].
    intros _. split; [done|]. by rewrite Hself.
Qed.

Lemma close_tab_deletes_and_closes_emptied_window_witness :
  ∃ b', TabWidgetOps.close_tab true 1%nat 0 two_windows = Ok b'
        ∧ Browser.windows b' = [0%nat].
Proof.
  destruct (close_tab_deletes_and_closes_emptied_window true 1%nat 0 two_windows)
    as [_ Hin].
  - by_compute.
  - by_compute.
  - split; [by apply consistent_compute|]. split; [right; by_compute|by_compute].
  - destruct Hin as (b' & Hret & _); [by_compute|].
    exists b'. split; [exact Hret|].
    assert (Ok b' = TabWidgetOps.close_tab true 1%nat 0 two_windows) as Heq by done.
    vm_compute in Heq. by injection Heq as ->.
Defined.

Lemma range_down_nil start stop : start <= stop → TabWidgetOps.range_down start stop = [].
Proof.
  intros Hle. unfold TabWidgetOps.range_down, seqZ.
  replace (Z.to_nat (start - stop)) with 0%nat by lia. done.
Qed.

Lemma range_down_cons start stop :
  stop < start →
  TabWidgetOps.range_down start stop = start :: TabWidgetOps.range_down (start - 1) stop.
Proof.
  intros Hlt. unfold TabWidgetOps.range_down.
  replace (start - stop) with ((start - 1 - stop) + 1) by lia.
  rewrite seqZ_app by lia. rewrite reverse_app.
  replace (stop + 1 + (start - 1 - stop)) with start by lia. done.
Qed.

Lemma delete_last_take {A} (l : list A) :
  delete (length l - 1)%nat l = take (length l - 1)%nat l.
Proof.
  rewrite delete_take_drop. rewrite drop_ge by lia. by rewrite app_nil_r.
Qed.

Lemma drop_delete_same {A} (l : list A) (k : nat) :
  (k < length l)%nat → drop k (delete k l) = drop (S k) l.
Proof.
  intros Hk. rewrite delete_take_drop.
  rewrite drop_app_ge by (rewrite length_take; lia).
  rewrite length_take, Nat.min_l by lia. by rewrite Nat.sub_diag.
Qed.

(** One [close_tab] of a loop that leaves a tab behind. *)
Lemma close_tab_step had_focus self index b :
  live b self → strip_ok (Browser.tab_widget b self) →
  0 <= index < TabWidget.count (Browser.tab_widget b self) →
  2 <= TabWidget.count (Browser.tab_widget b self) →
  ∃ b1, TabWidgetOps.close_tab had_focus self index b = Ok b1
    ∧ only_strip_changed self b b1 ∧ live b1 self
    ∧ strip_ok (Browser.tab_widget b1 self)
    ∧ views (Browser.tab_widget b1 self)
      = delete (Z.to_nat index) (views (Browser.tab_widget b self))
    ∧ tabs (Browser.tab_widget b1 self)
      = delete (Z.to_nat index) (tabs (Browser.tab_widget b self)).
Proof.
  intros Hl Hok Hr Htwo.
  destruct (close_tab_in_range had_focus self index b Hl Hok Hr) as (Hret & Hv & Ht & Hok1 & _).
  exists (Browser.update_tabs self (TabWidget.removeTab index) b).
  destruct (Z.eqb_spec (TabWidget.count (Browser.tab_widget b self)) 1); [lia|].
  split; [done|].
  pose proof (only_strip_changed_update_tabs self (TabWidget.removeTab index) b Hl) as Hch.
  split; [done|]. split; [|done].
  destruct Hch as (_ & Hlen & _). unfold live in *. lia.
Qed.

(** The first loop of [close_other_tabs]: the tabs after [index] go. *)
Lemma close_tabs_after had_focus self (index : Z) (m : nat) b :
  live b self → strip_ok (Browser.tab_widget b self) → 0 <= index →
  TabWidget.count (Browser.tab_widget b self) = index + 1 + Z.of_nat m →
  ∃ b', TabWidgetOps.for_each
          (TabWidgetOps.range_down (TabWidget.count (Browser.tab_widget b self) - 1) index)
          (λ i, TabWidgetOps.close_tab (had_focus i) self i) b = Ok b'
    ∧ only_strip_changed self b b' ∧ live b' self
    ∧ strip_ok (Browser.tab_widget b' self)
    ∧ views (Browser.tab_widget b' self)
      = take (Z.to_nat (index + 1)) (views (Browser.tab_widget b self))
    ∧ tabs (Browser.tab_widget b' self)
      = take (Z.to_nat (index + 1)) (tabs (Browser.tab_widget b self)).
Proof.
  revert b. induction m as [|m IH]; intros b Hl Hok H0 Hcount.
  - rewrite range_down_nil by lia. exists b. split; [done|].
    split; [apply only_strip_changed_refl|]. split; [done|]. split; [done|].
    pose proof (consistent_length _ (proj1 Hok)) as Hlen. rewrite count_views in Hcount.
    rewrite !take_ge by lia. done.
  - rewrite range_down_cons by lia. cbn [TabWidgetOps.for_each].
    destruct (close_tab_step
                (had_focus (TabWidget.count (Browser.tab_widget b self) - 1)) self
                (TabWidget.count (Browser.tab_widget b self) - 1) b)
      as (b1 & -> & Hch1 & Hl1 & Hok1 & Hv1 & Ht1); [done|done|lia|lia|].
    pose proof (consistent_length _ (proj1 Hok)) as Hlen.
    rewrite count_views in Hv1, Ht1, Hcount.
    replace (Z.to_nat (Z.of_nat (length (views (Browser.tab_widget b self))) - 1))
      with (length (views (Browser.tab_widget b self)) - 1)%nat in Hv1 by lia.
    replace (Z.to_nat (Z.of_nat (length (views (Browser.tab_widget b self))) - 1))
      with (length (tabs (Browser.tab_widget b self)) - 1)%nat in Ht1 by lia.
    rewrite delete_last_take in Hv1. rewrite delete_last_take in Ht1.
    assert (TabWidget.count (Browser.tab_widget b1 self) = index + 1 + Z.of_nat m) as Hc1.
    { rewrite count_views, Hv1, length_take. lia. }
    destruct (IH b1 Hl1 Hok1 H0 Hc1) as (b' & Hret & Hch & Hl' & Hok' & Hv' & Ht').
    exists b'.
    replace (TabWidget.count (Browser.tab_widget b self) - 1 - 1)
      with (TabWidget.count (Browser.tab_widget b1 self) - 1)
      by (rewrite Hc1, count_views; lia).
    split; [done|]. split; [by eapply only_strip_changed_trans|].
    split; [done|]. split; [done|].
    rewrite Hv', Ht', Hv1, Ht1, !take_take. split; f_equal; lia.
Qed.

(** The second loop of [close_other_tabs]: the tabs before [index] go. *)
Lemma close_tabs_before had_focus self (i : nat) b :
  live b self → strip_ok (Browser.tab_widget b self) →
  Z.of_nat i < TabWidget.count (Browser.tab_widget b self) →
  ∃ b', TabWidgetOps.for_each (TabWidgetOps.range_down (Z.of_nat i - 1) (-1))
          (λ i, TabWidgetOps.close_tab (had_focus i) self i) b = Ok b'
    ∧ only_strip_changed self b b' ∧ live b' self
    ∧ strip_ok (Browser.tab_widget b' self)
    ∧ views (Browser.tab_widget b' self) = drop i (views (Browser.tab_widget b self))
    ∧ tabs (Browser.tab_widget b' self) = drop i (tabs (Browser.tab_widget b self)).
Proof.
  revert b. induction i as [|i IH]; intros b Hl Hok Hcount.
  - rewrite range_down_nil by lia. exists b. split; [done|].
    split; [apply only_strip_changed_refl|]. done.
  - rewrite range_down_cons by lia. cbn [TabWidgetOps.for_each].
    destruct (close_tab_step (had_focus (Z.of_nat (S i) - 1)) self (Z.of_nat (S i) - 1) b)
      as (b1 & -> & Hch1 & Hl1 & Hok1 & Hv1 & Ht1); [done|done|lia|lia|].
    pose proof (consistent_length _ (proj1 Hok)) as Hlen.
    rewrite count_views in Hcount.
    replace (Z.to_nat (Z.of_nat (S i) - 1)) with i in Hv1, Ht1 by lia.
    assert (Z.of_nat i < TabWidget.count (Browser.tab_widget b1 self)) as Hc1.
    { rewrite count_views, Hv1, length_delete by (apply lookup_lt_is_Some_2; lia). lia. }
    destruct (IH b1 Hl1 Hok1 Hc1) as (b' & Hret & Hch & Hl' & Hok' & Hv' & Ht').
    exists b'. replace (Z.of_nat (S i) - 1 - 1) with (Z.of_nat i - 1) by lia.
    split; [done|]. split; [by eapply only_strip_changed_trans|].
    split; [done|]. split; [done|].
    rewrite Hv', Ht', Hv1, Ht1, !drop_delete_same by lia. done.
Qed.

(** X9.  [close_other_tabs(index)] on a live window whose strip is intact,
    for an index inside the strip: the call returns whatever the closed
    views answer to [hasFocus()]; the strip is left with exactly the tab
    that was at [index], its view and its visual entry; the window stays
    open and in the window list, and nothing but its strip has changed. *)
Theorem close_other_tabs_leaves_exactly_that_tab had_focus self index b view tab :
  live b self → strip_ok (Browser.tab_widget b self) →
  0 <= index →
  views (Browser.tab_widget b self) !! Z.to_nat index = Some view →
  tabs (Browser.tab_widget b self) !! Z.to_nat index = Some tab →
  ∃ b', TabWidgetOps.close_other_tabs had_focus self index b = Ok b'
    ∧ views (Browser.tab_widget b' self) = [view]
    ∧ tabs (Browser.tab_widget b' self) = [tab]
    ∧ Browser.windows b' = Browser.windows b
    ∧ BrowserWindow.closed (Browser.window b' self)
      = BrowserWindow.closed (Browser.window b self)
    ∧ (∀ r, r ≠ self → Browser.window b' r = Browser.window b r).
Proof.
  intros Hl Hok H0 Hview Htab.
  pose proof (lookup_lt_Some _ _ _ Hview) as Hlt.
  set (m := (length (views (Browser.tab_widget b self)) - S (Z.to_nat index))%nat).
  destruct (close_tabs_after had_focus self index m b Hl Hok H0)
    as (b1 & Hret1 & Hch1 & Hl1 & Hok1 & Hv1 & Ht1).
  { rewrite count_views. unfold m. lia. }
  destruct (close_tabs_before had_focus self (Z.to_nat index) b1 Hl1 Hok1)
    as (b2 & Hret2 & Hch2 & Hl2 & Hok2 & Hv2 & Ht2).
  { rewrite count_views, Hv1, length_take. lia. }
  rewrite Z2Nat.id in Hret2 by lia.
  exists b2. split.
  { unfold TabWidgetOps.close_other_tabs. by rewrite Hret1. }
  replace (Z.to_nat (index + 1)) with (S (Z.to_nat index)) in Hv1, Ht1 by lia.
  split; [rewrite Hv2, Hv1|split; [rewrite Ht2, Ht1|]].
  - rewrite (take_S_r _ _ _ Hview), drop_app_length'; [done|].
    rewrite length_take. lia.
  - rewrite (take_S_r _ _ _ Htab), drop_app_length'; [done|].
    rewrite length_take. apply lookup_lt_Some in Htab. lia.
  - destruct (only_strip_changed_trans _ _ _ _ Hch1 Hch2) as (Hws & _ & Hother & Hself).
    split; [done|]. split; [by rewrite Hself|done].
Qed.

Lemma close_other_tabs_leaves_exactly_that_tab_witness :
  ∃ b', TabWidgetOps.close_other_tabs (λ _, true) 0%nat 1 three_tabs = Ok b'
        ∧ views (Browser.tab_widget b' 0%nat) = [view_b].
Proof.
  destruct (close_other_tabs_leaves_exactly_that_tab (λ _, true) 0%nat 1 three_tabs
              view_b (QTabBar.mkTab "b" NullIcon view_b))
    as (b' & Hret & Hv & _).
  - by_compute.
  - split; [by apply consistent_compute|]. split; [right; by_compute|by_compute].
  - lia.
  - reflexivity.
  - reflexivity.
  - exists b'. by split.
Defined.

(** ** Exclusive ownership of the views (browserwindow.py) *)

(** Every strip is consistent and no view is a page of two windows. *)
Definition exclusive (b : Browser.t) : Prop :=
  (∀ r, consistent (Browser.tab_widget b r))
  ∧ (∀ r1 r2 v, v ∈ views (Browser.tab_widget b r1) →
                v ∈ views (Browser.tab_widget b r2) → r1 = r2).

(** The criterion by which a state reached by handing the view [view] to
    window [owner] keeps ownership exclusive: strips stay consistent, and
    a page of the new state is [view] in [owner] or a page the same window
    had before. *)
Lemma exclusive_after_handover (b b' : Browser.t) (view : QWidget) (owner : nat) :
  exclusive b →
  (∀ r, consistent (Browser.tab_widget b' r)) →
  (∀ r v, v ∈ views (Browser.tab_widget b' r) →
          (v = view ∧ r = owner) ∨ (v ≠ view ∧ v ∈ views (Browser.tab_widget b r))) →
  exclusive b'.
Proof.
  intros [_ Hex] Hc Horigin. split; [done|].
  intros r1 r2 v H1 H2.
  destruct (Horigin r1 v H1) as [[-> ->]|[Hne1 Hin1]];
    destruct (Horigin r2 _ H2) as [[? ->]|[Hne2 Hin2]]; try done.
  by eapply Hex.
Qed.

Lemma elem_of_insert_at {A} (k : nat) (x y : A) (l : list A) :
  y ∈ insert_at k x l ↔ y = x ∨ y ∈ l.
Proof. by rewrite insert_at_Permutation, elem_of_cons. Qed.

Lemma receive_tab_from_exclusive self src_window src_index dst_index b :
  exclusive b → live b self → live b src_window →
  let b' := Window.receive_tab_from self src_window src_index dst_index b in
  exclusive b'
  ∧ (∀ view, TabWidget.web_view (Browser.tab_widget b src_window) src_index = Some view →
       view ∈ views (Browser.tab_widget b' self)
       ∧ ∀ r, view ∈ views (Browser.tab_widget b' r) → r = self).
Proof.
  intros Hex Hls Hlr b'.
  destruct (TabWidget.web_view (Browser.tab_widget b src_window) src_index) as [view|] eqn:Hv.
  2: { split; [|done]. unfold b', Window.receive_tab_from. by rewrite Hv. }
  pose proof Hex as [Hcons Hexcl].
  destruct (source_removed_spec src_window src_index view b Hlr (Hcons src_window) Hv)
    as (Hsv & Hst & Hsc & _).
  set (b0 := source_removed src_window src_index b) in *.
  pose proof Hv as [Hwid _]%web_view_Some. apply stack_widget_Some in Hwid as [_ Hw].
  fold (views (Browser.tab_widget b src_window)) in Hw.
  assert (view ∈ views (Browser.tab_widget b src_window)) as Hin
    by (by eapply list_elem_of_lookup_2).
  assert (∀ r, r ≠ src_window → Browser.tab_widget b0 r = Browser.tab_widget b r) as Hb0.
  { intros r Hr. unfold Browser.tab_widget, b0. by rewrite source_removed_other. }
  assert (consistent (Browser.tab_widget b0 self)) as Hc0.
  { destruct (decide (self = src_window)) as [->|Hne]; [done|]. by rewrite Hb0. }
  assert (view ∉ views (Browser.tab_widget b0 self)) as Hfresh.
  { destruct (decide (self = src_window)) as [->|Hne].
    - rewrite Hsv. apply not_elem_of_delete_NoDup; [apply (Hcons src_window)|done].
    - rewrite Hb0 by done. intros Hin'. apply Hne. by eapply Hexcl. }
  destruct (transferred_destination self src_window src_index dst_index view b Hls Hc0 Hfresh)
    as (Hk & Hdv & Hdt & _ & _ & _ & Hother).
  fold b0 in Hk, Hdv, Hdt, Hother.
  set (b1 := transferred self src_window src_index dst_index view b) in *.
  assert (∀ r, Browser.tab_widget b' r = Browser.tab_widget b1 r) as Hb'
    by (intros r; unfold b'; by rewrite (receive_tab_from_tab_widget _ _ _ _ view)).
  assert (∀ r, r ≠ self → Browser.tab_widget b1 r = Browser.tab_widget b0 r) as Hb1
    by (intros r Hr; unfold Browser.tab_widget; by rewrite Hother).
  assert (exclusive b') as Hex'.
  { apply (exclusive_after_handover b b' view self Hex).
    - intros r. rewrite Hb'. destruct (decide (r = self)) as [->|Hr].
      + destruct Hc0 as [Hal0 Hnd0]. split.
        * by rewrite Hdt, Hdv, fmap_insert_at, Hal0.
        * rewrite Hdv. by apply NoDup_insert_at.
      + rewrite Hb1 by done.
        destruct (decide (r = src_window)) as [->|Hr']; [done|]. by rewrite Hb0.
    - intros r v. rewrite Hb'. destruct (decide (r = self)) as [->|Hr].
      + rewrite Hdv, elem_of_insert_at. intros [->|Hin0]; [by left|right].
        split; [by intros ->|].
        destruct (decide (self = src_window)) as [->|Hne].
        * rewrite Hsv in Hin0. by eapply list_elem_of_delete_inv.
        * by rewrite Hb0 in Hin0.
      + rewrite Hb1 by done. destruct (decide (r = src_window)) as [->|Hr'].
        * rewrite Hsv. intros Hin0. right. split.
          -- intros ->. by eapply not_elem_of_delete_NoDup; [apply (Hcons src_window)| |].
          -- by eapply list_elem_of_delete_inv.
        * rewrite Hb0 by done. intros Hin0. right. split; [|done].
          intros ->. apply Hr'. by eapply Hexcl. }
  split; [done|]. intros view' [= <-].
  assert (view ∈ views (Browser.tab_widget b' self)) as Hthere
    by (rewrite Hb', Hdv, elem_of_insert_at; by left).
  split; [done|]. intros r Hr. by eapply (proj2 Hex').
Qed.

(** X10.  [receive_tab_from] keeps ownership exclusive: if before the call
    every strip is consistent and no view is a page of two windows, the
    same holds after it, for any two live windows (the same one twice
    included) and any indices; the transferred view is then a page of the
    destination and of no other window. *)
Theorem receive_tab_from_keeps_ownership_exclusive self src_window src_index dst_index b :
  exclusive b → live b self → live b src_window →
  let b' := Window.receive_tab_from self src_window src_index dst_index b in
  exclusive b'
  ∧ (∀ view, TabWidget.web_view (Browser.tab_widget b src_window) src_index = Some view →
       view ∈ views (Browser.tab_widget b' self)
       ∧ ∀ r, view ∈ views (Browser.tab_widget b' r) → r = self).
Proof. apply receive_tab_from_exclusive. Qed.

(** [exclusive] for a concrete state, through its finitely many windows. *)
Definition exclusive_check (b : Browser.t) : Prop :=
  let rs := seq 0 (length (Browser.heap b)) in
  Forall (λ r, QTabBar.owner <$> tabs (Browser.tab_widget b r)
               = views (Browser.tab_widget b r)
               ∧ NoDup (views (Browser.tab_widget b r))) rs
  ∧ Forall (λ r1, Forall (λ r2, r1 = r2
                              ∨ Forall (λ v, v ∉ views (Browser.tab_widget b r2))
                                  (views (Browser.tab_widget b r1))) rs) rs.

Global Instance exclusive_check_dec b : Decision (exclusive_check b).
Proof. unfold exclusive_check. apply _. Defined.

Lemma exclusive_compute (b : Browser.t) : exclusive_check b → exclusive b.
Proof.
  intros [Hc Hd]. rewrite Forall_seq in Hc. rewrite Forall_seq in Hd.
  assert (∀ r, ¬ (r < length (Browser.heap b))%nat →
               Browser.tab_widget b r = TabWidget.empty) as Hnone.
  { intros r Hr. unfold Browser.tab_widget, Browser.window.
    by rewrite (proj2 (lookup_ge_None _ _)) by lia. }
  split.
  - intros r. destruct (decide (r < length (Browser.heap b))%nat) as [Hlt|Hge].
    + apply Hc. lia.
    + rewrite Hnone by done. apply consistent_empty.
  - intros r1 r2 v H1 H2.
    destruct (decide (r1 < length (Browser.heap b))%nat) as [Hlt1|Hge1];
      [|rewrite Hnone in H1 by done; by apply elem_of_nil in H1].
    destruct (decide (r2 < length (Browser.heap b))%nat) as [Hlt2|Hge2];
      [|rewrite Hnone in H2 by done; by apply elem_of_nil in H2].
    specialize (Hd r1 ltac:(lia)). rewrite Forall_seq in Hd.
    destruct (Hd r2 ltac:(lia)) as [?|Hdisj]; [done|].
    rewrite Forall_forall in Hdisj. by destruct (Hdisj v H1).
Qed.

Lemma receive_tab_from_keeps_ownership_exclusive_witness :
  let b' := Window.receive_tab_from 0%nat 1%nat 0 1 two_windows in
  views (Browser.tab_widget b' 0%nat) = [view_a; view_c; view_b]
  ∧ exclusive b'.
Proof.
  intros b'. split; [reflexivity|].
  apply (receive_tab_from_keeps_ownership_exclusive 0%nat 1%nat 0 1 two_windows).
  - apply exclusive_compute. by_compute.
  - by_compute.
  - by_compute.
Defined.

(** ** The well-formed world: exclusive views, a duplicate-free window list *)

Definition world_ok (b : Browser.t) : Prop :=
  exclusive b ∧ NoDup (Browser.windows b) ∧ Forall (live b) (Browser.windows b).

Lemma exclusive_ext b b' :
  (∀ r, Browser.tab_widget b' r = Browser.tab_widget b r) → exclusive b → exclusive b'.
Proof.
  intros Heq [Hc Hex]. split.
  - intros r. by rewrite Heq.
  - intros r1 r2 v. rewrite !Heq. apply Hex.
Qed.

Lemma tab_widget_update_same r r' f b :
  (∀ w, BrowserWindow._tab_widget (f w) = BrowserWindow._tab_widget w) →
  Browser.tab_widget (Browser.update r f b) r' = Browser.tab_widget b r'.
Proof.
  intros Hf. unfold Browser.tab_widget, Browser.window, Browser.update. cbn [Browser.heap].
  destruct (decide (r = r')) as [->|Hne].
  - rewrite list_lookup_alter_eq. destruct (Browser.heap b !! r'); cbn; [apply Hf|done].
  - by rewrite list_lookup_alter_ne.
Qed.

Lemma moveTab_views_Permutation from_index to_index tw :
  consistent tw → views (TabWidget.moveTab from_index to_index tw) ≡ₚ views tw.
Proof.
  intros Hc.
  destruct (decide (from_index = to_index)) as [->|Hne]; [by rewrite moveTab_same_index|].
  destruct (decide (0 <= from_index < TabWidget.count tw)) as [Hr|Hr];
    [|rewrite moveTab_out_of_range; [done|lia]].
  destruct (moveTab_seqs _ _ _ Hc Hne Hr) as (tab & w & _ & Hw & _ & -> & _).
  by apply insert_at_delete_Permutation.
Qed.

Lemma removed_first_NoDup (l : list nat) (x : nat) :
  NoDup l → NoDup (default l (PyList.remove x l)).
Proof.
  intros Hnd. destruct (decide (x ∈ l)) as [[i Hi]%list_elem_of_lookup_1|Hx].
  - rewrite (remove_at_lookup _ _ _ Hnd Hi). by apply NoDup_delete.
  - by rewrite remove_absent.
Qed.

Lemma removed_first_subseteq (l : list nat) (x y : nat) :
  y ∈ default l (PyList.remove x l) → y ∈ l.
Proof.
  induction l as [|z l IH]; [done|]. cbn.
  destruct (decide (x = z)) as [->|Hxz]; cbn.
  - intros ?. by right.
  - destruct (PyList.remove x l) as [l'|] eqn:Hr; cbn in *; [|done].
    rewrite !elem_of_cons. intros [->|?]; [by left|right; by apply IH].
Qed.

Lemma receive_tab_from_frame self src_window src_index dst_index b :
  let b' := Window.receive_tab_from self src_window src_index dst_index b in
  length (Browser.heap b') = length (Browser.heap b)
  ∧ (Browser.windows b' = Browser.windows b
     ∨ Browser.windows b' = default (Browser.windows b)
                              (PyList.remove src_window (Browser.windows b))).
Proof.
  intros b'. unfold b', Window.receive_tab_from.
  destruct (TabWidget.web_view (Browser.tab_widget b src_window) src_index); [|by split; [|left]].
  cbv zeta. case_match.
  - split; [|by right].
    unfold Window.close, Browser.update_tabs, Browser.update. cbn [Browser.heap].
    by rewrite !length_alter.
  - split; [|by left].
    unfold Browser.update_tabs, Browser.update. cbn [Browser.heap].
    by rewrite !length_alter.
Qed.

Lemma registry_after_removal (b b' : Browser.t) (x : nat) :
  NoDup (Browser.windows b) → Forall (live b) (Browser.windows b) →
  length (Browser.heap b') = length (Browser.heap b) →
  (Browser.windows b' = Browser.windows b
   ∨ Browser.windows b' = default (Browser.windows b) (PyList.remove x (Browser.windows b))) →
  NoDup (Browser.windows b') ∧ Forall (live b') (Browser.windows b').
Proof.
  intros Hnd Hlive Hlen Hws. rewrite Forall_forall in Hlive.
  assert (∀ r, live b r → live b' r) as Hl by (intros r; unfold live; lia).
  destruct Hws as [->| ->].
  - split; [done|]. apply Forall_forall. auto.
  - split; [by apply removed_first_NoDup|].
    apply Forall_forall. intros r Hr. apply Hl, Hlive. by eapply removed_first_subseteq.
Qed.

Lemma receive_tab_from_world_ok self src_window src_index dst_index b :
  world_ok b → live b self → live b src_window →
  world_ok (Window.receive_tab_from self src_window src_index dst_index b).
Proof.
  intros (Hex & Hnd & Hlive) Hls Hlr.
  destruct (receive_tab_from_frame self src_window src_index dst_index b) as [Hlen Hws].
  split; [|by eapply registry_after_removal].
  by apply receive_tab_from_exclusive.
Qed.

Lemma tab_widget_not_live b r : ¬ live b r → Browser.tab_widget b r = TabWidget.empty.
Proof.
  intros Hr. unfold Browser.tab_widget, Browser.window, live in *.
  by rewrite (proj2 (lookup_ge_None _ _)) by lia.
Qed.

Lemma detach_world_ok has_focus self from_index global_pos b b' :
  world_ok b → live b self →
  Window.detach_tab_to_new_window has_focus self from_index global_pos b = Ok b' →
  world_ok b'.
Proof.
  intros (Hex & Hnd & Hlive) Hl Hret. pose proof Hex as [Hcons Hexcl].
  destruct (decide (TabWidget.count (Browser.tab_widget b self) = 1)) as [Hone|Hmany].
  - unfold Window.detach_tab_to_new_window in Hret.
    rewrite detach_tab_to_new_window_single in Hret by done. injection Hret as <-.
    split; [|split].
    + eapply exclusive_ext; [|done]. intros r. by apply tab_widget_update_same.
    + done.
    + eapply Forall_impl; [done|]. intros r Hr. by apply live_update.
  - destruct (TabWidget.web_view (Browser.tab_widget b self) from_index) as [view|] eqn:Hv.
    2: { unfold Window.detach_tab_to_new_window in Hret.
         by rewrite detach_tab_to_new_window_stale_index in Hret. }
    apply (detach_tab_to_new_window_returned _ _ _ _ view) in Hret; [|done..].
    subst b'.
    destruct (detached_spec self from_index global_pos view b Hl (Hcons self) Hv)
      as (Hsv & Hst & Hheap & Hws & Hchild & Hother).
    set (b' := detached self from_index global_pos view b) in *.
    set (child := length (Browser.heap b)) in *.
    assert (¬ live b child) as Hnl by (unfold live, child; lia).
    assert (self ≠ child) as Hsc by (intros ->; done).
    pose proof Hv as [Hwid _]%web_view_Some. apply stack_widget_Some in Hwid as [_ Hw].
    fold (views (Browser.tab_widget b self)) in Hw.
    assert (views (Browser.tab_widget b' child) = [view]
            ∧ tabs (Browser.tab_widget b' child)
              = [QTabBar.mkTab (TabWidget.tabText (Browser.tab_widget b self) from_index)
                   (fav_icon view) view]) as [Hcv Hct]
      by (unfold Browser.tab_widget; by rewrite Hchild).
    assert (∀ r, r ≠ self → r ≠ child → Browser.tab_widget b' r = Browser.tab_widget b r)
      as Hrest by (intros r ? ?; unfold Browser.tab_widget; by rewrite Hother).
    split; [|split].
    + apply (exclusive_after_handover b b' view child Hex).
      * intros r. destruct (decide (r = child)) as [->|Hrc].
        -- split; [by rewrite Hcv, Hct|]. rewrite Hcv. apply NoDup_singleton.
        -- destruct (decide (r = self)) as [->|Hrs]; [|by rewrite Hrest].
           destruct (Hcons self) as [Hal Hndv]. split.
           ++ by rewrite Hst, Hsv, list_fmap_delete, Hal.
           ++ rewrite Hsv. by apply NoDup_delete.
      * intros r v. destruct (decide (r = child)) as [->|Hrc].
        -- rewrite Hcv. intros ->%list_elem_of_singleton. by left.
        -- destruct (decide (r = self)) as [->|Hrs].
           ++ rewrite Hsv. intros Hin. right. split.
              ** intros ->. by eapply not_elem_of_delete_NoDup; [apply (Hcons self)| |].
              ** by eapply list_elem_of_delete_inv.
           ++ rewrite Hrest by done. intros Hin. right. split; [|done].
              intros ->. apply Hrs. eapply Hexcl; [done|]. by eapply list_elem_of_lookup_2.
    + rewrite Hws. apply NoDup_app. split; [done|]. split; [|apply NoDup_singleton].
      intros r Hr ->%list_elem_of_singleton. rewrite Forall_forall in Hlive.
      by apply Hnl, Hlive.
    + rewrite Hws. apply Forall_app. split.
      * eapply Forall_impl; [done|]. intros r Hr. unfold live in *. lia.
      * apply Forall_singleton. unfold live. fold child. lia.
Qed.

(** X11.  [detach_tab_to_new_window], whenever it returns, leaves the
    world well formed if it was: strips consistent, no view a page of two
    windows, the window list without repetitions and with live references
    only, whether the window was moved or a new one was created. *)
Theorem detach_keeps_the_world_well_formed has_focus self from_index global_pos b :
  world_ok b → live b self →
  ∀ b', Window.detach_tab_to_new_window has_focus self from_index global_pos b = Ok b' →
        world_ok b'
        ∧ (TabWidget.count (Browser.tab_widget b self) ≠ 1 →
             ∀ view, TabWidget.web_view (Browser.tab_widget b self) from_index = Some view →
                     ∀ r, view ∈ views (Browser.tab_widget b' r) ↔ r = length (Browser.heap b)).
Proof.
  intros Hok Hl b' Hret.
  pose proof (detach_world_ok _ _ _ _ _ _ Hok Hl Hret) as Hok'. split; [done|].
  intros Hmany view Hv r.
  apply (detach_tab_to_new_window_returned _ _ _ _ view) in Hret; [|done..]. subst b'.
  destruct Hok as ([Hcons _] & _).
  destruct (detached_spec self from_index global_pos view b Hl (Hcons self) Hv)
    as (_ & _ & _ & _ & Hchild & _).
  assert (view ∈ views (Browser.tab_widget
                          (detached self from_index global_pos view b)
                          (length (Browser.heap b)))) as Hin.
  { unfold Browser.tab_widget. rewrite Hchild. cbn. by left. }
  split; [|by intros ->].
  intros Hr. destruct Hok' as ([_ Hexcl] & _). by eapply Hexcl.
Qed.

Lemma world_ok_compute b :
  exclusive_check b → NoDup (Browser.windows b) → Forall (live b) (Browser.windows b) →
  world_ok b.
Proof. intros Hex Hnd Hl. split; [by apply exclusive_compute|done]. Qed.

Lemma detach_keeps_the_world_well_formed_witness :
  ∃ b', Window.detach_tab_to_new_window true 0%nat 1 (mkPoint 500 300) three_tabs = Ok b'
        ∧ world_ok b'.
Proof.
  eexists. split; [reflexivity|].
  apply (detach_keeps_the_world_well_formed true 0%nat 1 (mkPoint 500 300) three_tabs).
  - apply world_ok_compute; by_compute.
  - by_compute.
  - reflexivity.
Defined.

(** ** Drops and drags keep the world well formed (dragtabbar.py) *)

Lemma index_Some_lookup {A} `{EqDecision A} (l : list A) (x : A) (i : nat) :
  PyList.index x l = Some i → l !! i = Some x.
Proof.
  revert i. induction l as [|y l IH]; intros i; [done|]. cbn.
  destruct (decide (x = y)) as [->|Hne].
  - by intros [= <-].
  - destruct (PyList.index x l) as [j|] eqn:Hj; [|done]. cbn. intros [= <-]. by apply IH.
Qed.

Lemma index_is_Some {A} `{EqDecision A} (l : list A) (x : A) :
  x ∈ l → is_Some (PyList.index x l).
Proof.
  induction l as [|y l IH]; [by intros ?%elem_of_nil|]. cbn.
  destruct (decide (x = y)) as [->|Hne]; [by eexists|].
  intros [?|Hin]%elem_of_cons; [done|]. destruct (IH Hin) as [j ->]. by eexists.
Qed.

Lemma index_None {A} `{EqDecision A} (l : list A) (x : A) :
  x ∉ l → PyList.index x l = None.
Proof.
  induction l as [|y l IH]; [done|]. intros [Hxy Hx]%not_elem_of_cons. cbn.
  rewrite decide_False by done. by rewrite IH.
Qed.

Lemma getitem_elem_of {A} (l : list A) (i : Z) (x : A) :
  PyList.getitem l i = Some x → x ∈ l.
Proof.
  unfold PyList.getitem. repeat case_match; try done; by apply list_elem_of_lookup_2.
Qed.

Lemma getitem_nonneg {A} (l : list A) (i : nat) :
  PyList.getitem l (Z.of_nat i) = l !! i.
Proof.
  unfold PyList.getitem. destruct (Z.leb_spec 0 (Z.of_nat i)); [|lia]. by rewrite Nat2Z.id.
Qed.

Lemma exclusive_permuted b b' :
  (∀ r, consistent (Browser.tab_widget b' r)) →
  (∀ r, views (Browser.tab_widget b' r) ≡ₚ views (Browser.tab_widget b r)) →
  exclusive b → exclusive b'.
Proof.
  intros Hc Hperm [_ Hex]. split; [done|].
  intros r1 r2 v. rewrite !Hperm. apply Hex.
Qed.

Lemma update_world_ok r f b :
  (∀ w, BrowserWindow._tab_widget (f w) = BrowserWindow._tab_widget w) →
  world_ok b → world_ok (Browser.update r f b).
Proof.
  intros Hf (Hex & Hnd & Hlive). split; [|split; [done|]].
  - eapply exclusive_ext; [|done]. intros r'. by apply tab_widget_update_same.
  - eapply Forall_impl; [done|]. intros r' Hr'. by apply live_update.
Qed.

Lemma moveTab_world_ok dest from_index to_index b :
  world_ok b → live b dest →
  world_ok (Browser.update_tabs dest (TabWidget.moveTab from_index to_index) b).
Proof.
  intros (Hex & Hnd & Hlive) Hl. pose proof Hex as [Hcons _].
  assert (∀ r, Browser.tab_widget
                 (Browser.update_tabs dest (TabWidget.moveTab from_index to_index) b) r
               = if decide (r = dest)
                 then TabWidget.moveTab from_index to_index (Browser.tab_widget b dest)
                 else Browser.tab_widget b r) as Htw.
  { intros r. destruct (decide (r = dest)) as [->|Hne].
    - by rewrite tab_widget_update_tabs_eq.
    - by rewrite tab_widget_update_tabs_ne. }
  split; [|split; [done|]].
  - eapply exclusive_permuted; [| |done].
    + intros r. rewrite Htw. case_decide; [by apply moveTab_consistent|done].
    + intros r. rewrite Htw. case_decide as Hr; [|done].
      rewrite Hr. by apply moveTab_views_Permutation.
  - eapply Forall_impl; [done|]. intros r' Hr'. by apply live_update.
Qed.

(** X12.  [dropEvent] keeps the world well formed for every payload
    that it can hand on: for every window index, every tab index that is
    a C [int] (the tab index is an [int] argument of the signal that
    carries a cross-window drop) and every sequence number, also those
    that resolve to a window other than the one the drag came from, the
    strips stay consistent, no view is a page of two windows, and the
    window list stays free of repetitions and dangling references. *)
Theorem dropEvent_keeps_the_world_well_formed g dest p at_pos b :
  world_ok b → live b dest → c_int (DragTabBar.src_index p) →
  world_ok (DragTabBar.dropEvent g dest p at_pos b).1
  ∧ length (Browser.heap (DragTabBar.dropEvent g dest p at_pos b).1)
    = length (Browser.heap b).
Proof.
  intros Hok Hl _. unfold DragTabBar.dropEvent. cbv zeta.
  destruct (DragTabBar.src_window_index p =? DragTabBar.window_index b dest).
  - cbn [fst]. split.
    + apply update_world_ok; [done|]. by apply moveTab_world_ok.
    + unfold Browser.update_tabs, Browser.update. cbn [Browser.heap].
      by rewrite !length_alter.
  - destruct (PyList.getitem (Browser.windows b) (DragTabBar.src_window_index p))
      as [src_window|] eqn:Hsrc; [|done].
    cbn [fst].
    assert (live b src_window) as Hls.
    { destruct Hok as (_ & _ & Hlive). rewrite Forall_forall in Hlive.
      by eapply Hlive, getitem_elem_of. }
    split.
    + apply update_world_ok; [done|]. by apply receive_tab_from_world_ok.
    + unfold Browser.update. cbn [Browser.heap]. rewrite length_alter.
      apply receive_tab_from_frame.
Qed.

Lemma dropEvent_keeps_the_world_well_formed_witness :
  let r := DragTabBar.dropEvent (strip_geometry 2) 0%nat (DragTabBar.mkPayload (-1) 0 (Some 1))
             (mkPoint 250 10) two_windows in
  Browser.windows r.1 = [0%nat] ∧ world_ok r.1.
Proof.
  intros r. split; [reflexivity|].
  apply (dropEvent_keeps_the_world_well_formed (strip_geometry 2) 0%nat
           (DragTabBar.mkPayload (-1) 0 (Some 1)) (mkPoint 250 10) two_windows).
  - apply world_ok_compute; by_compute.
  - by_compute.
  - by_compute.
Defined.

Lemma mouseMoveEvent_accepted exec has_focus src_win drag_start_index cursor b :
  BrowserWindow.was_drag_seq_accepted
    (Browser.window (after_exec exec src_win drag_start_index b).1 src_win)
    (Some (after_exec exec src_win drag_start_index b).2) = true →
  DragTabBar.mouseMoveEvent exec has_focus src_win drag_start_index cursor b
  = Ok (after_exec exec src_win drag_start_index b).1.
Proof.
  unfold after_exec, DragTabBar.mouseMoveEvent.
  destruct (BrowserWindow.new_drag_seq (Browser.window b src_win)) as [w seq].
  cbn [fst snd]. by intros ->.
Qed.

(** X13.  A drag started on a registered window and dropped, while
    [drag.exec] runs, on the tab bar of any live window, the same or
    another: the drop marks the drag's sequence number on the originating
    window, so [mouseMoveEvent] returns the state the drop left, detaches
    nothing and creates no window. *)
Theorem dropped_drag_is_not_detached g has_focus src_win dest drag_start_index at_pos
    cursor b :
  src_win ∈ Browser.windows b → live b src_win → live b dest →
  let exec := λ p b, (DragTabBar.dropEvent g dest p at_pos b).1 in
  let b' := (after_exec exec src_win drag_start_index b).1 in
  DragTabBar.mouseMoveEvent exec has_focus src_win drag_start_index cursor b = Ok b'
  ∧ BrowserWindow._drag_seq_accepted (Browser.window b' src_win)
    = Some (BrowserWindow._drag_seq_counter (Browser.window b src_win) + 1)
  ∧ length (Browser.heap b') = length (Browser.heap b).
Proof.
  intros Hreg Hls Hld exec b'.
  destruct (index_is_Some _ _ Hreg) as [i Hi].
  pose proof (index_Some_lookup _ _ _ Hi) as Hlook.
  set (seq := BrowserWindow._drag_seq_counter (Browser.window b src_win) + 1).
  set (b1 := Browser.update src_win
               (λ _, (BrowserWindow.new_drag_seq (Browser.window b src_win)).1) b).
  assert (Browser.windows b1 = Browser.windows b) as Hws1 by done.
  assert (length (Browser.heap b1) = length (Browser.heap b)) as Hlen1
    by (unfold b1, Browser.update; cbn [Browser.heap]; apply length_alter).
  assert (DragTabBar.window_index b1 src_win = Z.of_nat i) as Hidx
    by (unfold DragTabBar.window_index; by rewrite Hws1, Hi).
  set (p := DragTabBar.mkPayload (Z.of_nat i) drag_start_index (Some seq)).
  assert (after_exec exec src_win drag_start_index b = (exec p b1, seq)) as Hae.
  { unfold after_exec. cbv zeta. fold b1. by rewrite Hidx. }
  assert (b' = exec p b1) as Hb' by (unfold b'; by rewrite Hae).
  assert (BrowserWindow._drag_seq_accepted (Browser.window (exec p b1) src_win) = Some seq
          ∧ length (Browser.heap (exec p b1)) = length (Browser.heap b1)) as [Hflag Hheap].
  { unfold exec, p, DragTabBar.dropEvent. cbv zeta.
    cbn [DragTabBar.src_window_index DragTabBar.seq DragTabBar.src_index].
    destruct (Z.eqb_spec (Z.of_nat i) (DragTabBar.window_index b1 dest)) as [Hsame|Hdiff].
    - assert (dest = src_win) as ->.
      { unfold DragTabBar.window_index in Hsame. rewrite Hws1 in Hsame.
        destruct (PyList.index dest (Browser.windows b)) as [j|] eqn:Hj; [|lia].
        apply index_Some_lookup in Hj. assert (i = j) as -> by lia. congruence. }
      cbn [fst]. split.
      + rewrite window_update_eq; [done|]. apply live_update. unfold live in *. lia.
      + unfold Browser.update_tabs, Browser.update. cbn [Browser.heap].
        by rewrite !length_alter.
    - rewrite getitem_nonneg, Hws1, Hlook. cbn [fst DragTabBar.seq DragTabBar.src_index].
      destruct (receive_tab_from_frame dest src_win drag_start_index
                  (DragTabBar._compute_dst_index g
                     (TabWidget._tabbar (Browser.tab_widget b1 dest)) at_pos) b1)
        as [Hlenr _].
      split.
      + rewrite window_update_eq; [done|]. unfold live in *. lia.
      + unfold Browser.update. cbn [Browser.heap]. by rewrite length_alter. }
  split; [|split].
  - unfold b'. apply mouseMoveEvent_accepted. rewrite Hae. cbn [fst snd].
    unfold BrowserWindow.was_drag_seq_accepted. by apply bool_decide_eq_true.
  - by rewrite Hb'.
  - rewrite Hb'. lia.
Qed.

Lemma dropped_drag_is_not_detached_witness :
  ∃ b', DragTabBar.mouseMoveEvent
          (λ p b, (DragTabBar.dropEvent (strip_geometry 1) 1%nat p (mkPoint 20 10) b).1)
          true 0%nat 1 (mkPoint 700 10) two_windows = Ok b'
        ∧ length (Browser.heap b') = 2%nat.
Proof.
  destruct (dropped_drag_is_not_detached (strip_geometry 1) true 0%nat 1%nat 1
              (mkPoint 20 10) (mkPoint 700 10) two_windows) as (Hret & _ & Hlen).
  - by_compute.
  - by_compute.
  - by_compute.
  - eexists. split; [exact Hret|exact Hlen].
Defined.

(** ** Where a same-window drop puts the tab (dragtabbar.py) *)

(** X14.  A drop on the originating window at the dragged tab's own slot
    (the computed index is the tab's index or the one after it) leaves the
    strip exactly as it was, order and current index included; only the
    acceptance flag is written. *)
Theorem self_drop_leaves_the_strip_unchanged g dest p at_pos b :
  live b dest →
  DragTabBar.src_window_index p = DragTabBar.window_index b dest →
  let dst_index :=
    DragTabBar._compute_dst_index g (TabWidget._tabbar (Browser.tab_widget b dest)) at_pos in
  dst_index = DragTabBar.src_index p ∨ dst_index = DragTabBar.src_index p + 1 →
  let b' := (DragTabBar.dropEvent g dest p at_pos b).1 in
  Browser.tab_widget b' dest = Browser.tab_widget b dest
  ∧ b' = Browser.update dest (BrowserWindow.mark_drag_seq_accepted (DragTabBar.seq p)) b.
Proof.
  intros Hl Hsame dst_index Hslot b'. unfold b'.
  rewrite dropEvent_same_window by done. cbv zeta. fold dst_index. cbn [fst].
  set (adjusted := if DragTabBar.src_index p <? dst_index then dst_index - 1 else dst_index).
  assert (TabWidget.moveTab (DragTabBar.src_index p) (0 `max` adjusted)
            (Browser.tab_widget b dest) = Browser.tab_widget b dest) as Hnoop.
  { assert (adjusted = DragTabBar.src_index p) as ->.
    { unfold adjusted. destruct (Z.ltb_spec (DragTabBar.src_index p) dst_index); lia. }
    destruct (decide (0 <= DragTabBar.src_index p)) as [H0|Hneg].
    - rewrite Z.max_r by done. apply moveTab_same_index.
    - apply moveTab_out_of_range. lia. }
  assert (Browser.update_tabs dest
            (TabWidget.moveTab (DragTabBar.src_index p) (0 `max` adjusted)) b = b) as ->.
  { unfold Browser.update_tabs, Browser.update. destruct b as [heap ws]. cbn. f_equal.
    apply list_eq. intros r. destruct (decide (dest = r)) as [->|Hne].
    - rewrite list_lookup_alter_eq. destruct (heap !! r) as [w|] eqn:Hw; [|done]. cbn.
      f_equal. unfold Browser.tab_widget, Browser.window in Hnoop. cbn in Hnoop.
      rewrite Hw in Hnoop. cbn in Hnoop. unfold BrowserWindow.with_tab_widget.
      rewrite Hnoop. by destruct w.
    - by rewrite list_lookup_alter_ne. }
  split; [|done]. by apply tab_widget_update_same.
Qed.

Lemma self_drop_leaves_the_strip_unchanged_witness :
  let p := DragTabBar.mkPayload 0 0 (Some 4) in
  let b' := (DragTabBar.dropEvent (strip_geometry 2) 0%nat p (mkPoint 60 10) two_windows).1 in
  DragTabBar._compute_dst_index (strip_geometry 2)
    (TabWidget._tabbar (Browser.tab_widget two_windows 0%nat)) (mkPoint 60 10) = 1
  ∧ Browser.tab_widget b' 0%nat = Browser.tab_widget two_windows 0%nat.
Proof.
  intros p b'. split; [reflexivity|].
  apply (self_drop_leaves_the_strip_unchanged (strip_geometry 2) 0%nat p (mkPoint 60 10)
           two_windows).
  - by_compute.
  - reflexivity.
  - right. reflexivity.
Defined.

(** Qt's contract for [tabAt]: -1, or the index of a tab of the bar. *)
Definition tabAt_in_bar (g : DragTabBar.geometry) (bar : QTabBar.t) (at_pos : QPoint) : Prop :=
  DragTabBar.tabAt g at_pos < QTabBar.count bar.

(** X15.  With [tabAt] answering -1 or the index of a tab, the index
    [_compute_dst_index] computes lies in [0, count]; for a drop on the
    originating window of a tab inside a consistent strip, the index
    handed to [moveTab] then lies in [0, count - 1], so no clamping
    happens, and unless it is the tab's own index the dragged view ends up
    exactly at that index, as the current tab, with the other views in
    their old order. *)
Theorem same_window_drop_lands_on_the_computed_slot g dest p at_pos b view :
  live b dest →
  DragTabBar.src_window_index p = DragTabBar.window_index b dest →
  consistent (Browser.tab_widget b dest) →
  tabAt_in_bar g (TabWidget._tabbar (Browser.tab_widget b dest)) at_pos →
  0 <= DragTabBar.src_index p →
  views (Browser.tab_widget b dest) !! Z.to_nat (DragTabBar.src_index p) = Some view →
  let tw := Browser.tab_widget b dest in
  let dst_index := DragTabBar._compute_dst_index g (TabWidget._tabbar tw) at_pos in
  let slot := if decide (dst_index > DragTabBar.src_index p)
              then dst_index - 1 else dst_index in
  let tw' := Browser.tab_widget (DragTabBar.dropEvent g dest p at_pos b).1 dest in
  0 <= dst_index <= TabWidget.count tw
  ∧ 0 <= slot <= TabWidget.count tw - 1
  ∧ (slot ≠ DragTabBar.src_index p →
       views tw' = insert_at (Z.to_nat slot) view
                     (delete (Z.to_nat (DragTabBar.src_index p)) (views tw))
       ∧ views tw' !! Z.to_nat slot = Some view
       ∧ TabWidget.currentIndex tw' = slot).
Proof.
  intros Hl Hsame Hc Hat H0 Hview tw dst_index slot tw'.
  pose proof (consistent_length _ Hc) as Hlen. fold tw in Hlen, Hview, Hc.
  pose proof (lookup_lt_Some _ _ _ Hview) as Hlt.
  assert (0 <= dst_index <= TabWidget.count tw) as Hdst.
  { unfold dst_index, DragTabBar._compute_dst_index. unfold tabAt_in_bar in Hat. fold tw in Hat.
    rewrite count_views. unfold QTabBar.count in *. fold (tabs tw) in *. rewrite Hlen in *.
    destruct (Z.ltb_spec (DragTabBar.tabAt g at_pos) 0); [lia|].
    destruct (px at_pos <? DragTabBar.center_x g (DragTabBar.tabAt g at_pos)); lia. }
  assert (0 <= slot <= TabWidget.count tw - 1) as Hslot.
  { unfold slot. rewrite count_views in *. case_decide; lia. }
  split; [done|]. split; [done|]. intros Hne.
  assert (tw' = TabWidget.moveTab (DragTabBar.src_index p) slot tw) as ->.
  { unfold tw'. rewrite dropEvent_same_window by done. cbv zeta. cbn [fst].
    rewrite (tab_widget_update_same dest dest) by done.
    rewrite tab_widget_update_tabs_eq by done. fold tw dst_index.
    f_equal. unfold slot.
    destruct (Z.ltb_spec (DragTabBar.src_index p) dst_index); case_decide; lia. }
  destruct (moveTab_seqs (DragTabBar.src_index p) slot tw Hc) as
    (tab & w & _ & Hw & _ & Hv & Hcur); [done|rewrite count_views; lia|].
  assert (w = view) as -> by congruence.
  assert (move_target slot (length (views tw) - 1) = Z.to_nat slot) as Hk.
  { unfold move_target. rewrite count_views in Hslot.
    destruct (Nat.ltb_spec 0 (length (views tw) - 1)); lia. }
  rewrite Hk in Hv, Hcur. split; [done|]. split; [|lia].
  rewrite Hv. apply lookup_insert_at.
  pose proof (length_delete_lookup _ _ _ Hw). rewrite count_views in Hslot. lia.
Qed.

Lemma same_window_drop_lands_on_the_computed_slot_witness :
  let p := DragTabBar.mkPayload 0 0 (Some 1) in
  let tw' := Browser.tab_widget
               (DragTabBar.dropEvent (strip_geometry 3) 0%nat p (mkPoint 280 10) three_tabs).1
               0%nat in
  views tw' = [view_b; view_c; view_a] ∧ TabWidget.currentIndex tw' = 2.
Proof.
  intros p tw'. split; [reflexivity|].
  destruct (same_window_drop_lands_on_the_computed_slot (strip_geometry 3) 0%nat p
              (mkPoint 280 10) three_tabs view_a) as (_ & _ & Hland).
  - by_compute.
  - reflexivity.
  - by apply consistent_compute.
  - unfold tabAt_in_bar. by_compute.
  - cbn. lia.
  - reflexivity.
  - destruct Hland as (_ & _ & Hcur); [by_compute|exact Hcur].
Defined.

(** ** Window indices (browser.py, dragtabbar.py) *)

(** X16.  The index a registered window is given in a payload resolves
    back to that window through [lookup_window], and in a window list
    without repetitions a non-negative index that resolves to a window is
    that window's index.  An unregistered window is given -1, which
    [lookup_window] resolves to the last window of the list instead of to
    nothing. *)
Theorem window_index_round_trip (b : Browser.t) (r : nat) :
  (r ∈ Browser.windows b →
     0 <= DragTabBar.window_index b r
     ∧ Browser.lookup_window b (DragTabBar.window_index b r) = Some r)
  ∧ (NoDup (Browser.windows b) →
     ∀ i, 0 <= i → Browser.lookup_window b i = Some r → DragTabBar.window_index b r = i)
  ∧ (r ∉ Browser.windows b →
     DragTabBar.window_index b r = -1
     ∧ Browser.lookup_window b (DragTabBar.window_index b r) = last (Browser.windows b)).
Proof.
  split; [|split].
  - intros Hin. destruct (index_is_Some _ _ Hin) as [i Hi].
    unfold DragTabBar.window_index, Browser.lookup_window. rewrite Hi.
    split; [lia|]. rewrite getitem_nonneg. by apply index_Some_lookup.
  - intros Hnd i H0 Hlook. unfold Browser.lookup_window in Hlook.
    replace i with (Z.of_nat (Z.to_nat i)) in Hlook by lia.
    rewrite getitem_nonneg in Hlook.
    destruct (index_is_Some (Browser.windows b) r) as [j Hj];
      [by eapply list_elem_of_lookup_2|].
    unfold DragTabBar.window_index. fold (Browser.windows b). rewrite Hj.
    apply index_Some_lookup in Hj.
    pose proof (NoDup_lookup _ _ _ _ Hnd Hj Hlook). lia.
  - intros Hout. unfold DragTabBar.window_index, Browser.lookup_window.
    rewrite index_None by done. split; [done|].
    unfold PyList.getitem. fold (Browser.windows b). cbn [Z.leb Z.compare].
    destruct (Browser.windows b) as [|w ws] using rev_ind; [done|].
    rewrite last_snoc, length_app. cbn [length].
    destruct (Z.leb_spec (- Z.of_nat (length ws + 1)) (-1)); [|lia].
    replace (Z.to_nat (Z.of_nat (length ws + 1) + -1)) with (length ws) by lia.
    by apply list_lookup_middle.
Qed.

Lemma window_index_round_trip_witness :
  Browser.lookup_window two_windows (DragTabBar.window_index two_windows 1%nat) = Some 1%nat.
Proof.
  destruct (window_index_round_trip two_windows 1%nat) as [Hin _].
  apply Hin. by_compute.
Defined.

(** ** Sequence numbers (browserwindow.py) *)

(** The acceptance flag holds a number issued so far ([None] is none). *)
Definition flag_issued (w : BrowserWindow.t) : Prop :=
  match BrowserWindow._drag_seq_accepted w with
  | Some a => a <= BrowserWindow._drag_seq_counter w
  | None => True
  end.

(** X17.  [new_drag_seq] issues strictly increasing numbers, and a number
    just issued is not yet accepted: as long as the flag holds a number
    issued earlier (as the -1 of a new window counts), an acceptance left
    over from an earlier drag never makes a new drag look accepted; and
    marking a number that was issued keeps this so. *)
Theorem new_drag_seq_is_fresh (w : BrowserWindow.t) :
  flag_issued w →
  let w' := (BrowserWindow.new_drag_seq w).1 in
  let seq := (BrowserWindow.new_drag_seq w).2 in
  seq = BrowserWindow._drag_seq_counter w + 1
  ∧ BrowserWindow._drag_seq_counter w' = seq
  ∧ BrowserWindow.was_drag_seq_accepted w' (Some seq) = false
  ∧ flag_issued w'
  ∧ flag_issued (BrowserWindow.mark_drag_seq_accepted (Some seq) w')
  ∧ (BrowserWindow.new_drag_seq w').2 > seq.
Proof.
  intros Hf w' seq. unfold flag_issued in *.
  unfold w', seq, BrowserWindow.new_drag_seq, BrowserWindow.was_drag_seq_accepted. cbn.
  repeat split; try lia.
  - apply bool_decide_eq_false.
    destruct (BrowserWindow._drag_seq_accepted w) as [a|]; [|done]. intros [= ->]. lia.
  - destruct (BrowserWindow._drag_seq_accepted w); [lia|done].
Qed.

Lemma new_drag_seq_is_fresh_witness :
  BrowserWindow.was_drag_seq_accepted (BrowserWindow.new_drag_seq BrowserWindow.init).1
    (Some (BrowserWindow.new_drag_seq BrowserWindow.init).2) = false.
Proof.
  apply (new_drag_seq_is_fresh BrowserWindow.init). cbn. lia.
Defined.

(** ** Leaving the window list (browserwindow.py, browser.py) *)

Lemma remove_is_delete_at_index {A} `{EqDecision A} (l : list A) (x : A) :
  PyList.remove x l = (λ i, delete i l) <$> PyList.index x l.
Proof.
  induction l as [|y l IH]; [done|]. cbn.
  destruct (decide (x = y)) as [->|Hne]; [done|].
  rewrite IH. by destruct (PyList.index x l).
Qed.

Lemma filter_all {A} (P : A → Prop) `{∀ x, Decision (P x)} (l : list A) :
  Forall P l → filter P l = l.
Proof.
  induction 1 as [|y l Hy Hl IH]; [done|]. rewrite filter_cons_True by done. by rewrite IH.
Qed.

Lemma removed_first_is_filter (l : list nat) (x : nat) :
  NoDup l → default l (PyList.remove x l) = filter (λ y, y ≠ x) l.
Proof.
  induction 1 as [|y l Hy Hnd IH]; [done|]. cbn [PyList.remove].
  destruct (decide (x = y)) as [->|Hne]; cbn [default].
  - rewrite filter_cons_False by (by intros ?).
    symmetry. apply filter_all. apply Forall_forall. by intros z Hz ->.
  - rewrite filter_cons_True by done.
    destruct (PyList.remove x l) as [l'|] eqn:Hr; cbn [fmap option_fmap option_map default] in *;
      by rewrite <-IH.
Qed.

(** X18.  [closeEvent] ([windows().remove(self)], [ValueError] swallowed)
    and [Browser._remove_window] (membership test, then [del] at
    [index]) leave the same window list: in a list without repetitions,
    the list without the window, the others in their old order; and once
    a window has left the list either way, doing it again changes
    nothing. *)
Theorem close_and_remove_window_agree (r : nat) (b : Browser.t) :
  NoDup (Browser.windows b) →
  Browser.windows (Window.close r b) = Browser.windows (WindowOps._remove_window r b)
  ∧ Browser.windows (Window.close r b) = filter (λ x, x ≠ r) (Browser.windows b)
  ∧ WindowOps._remove_window r (WindowOps._remove_window r b)
    = WindowOps._remove_window r b
  ∧ Browser.windows (Window.close r (Window.close r b))
    = Browser.windows (Window.close r b).
Proof.
  intros Hnd.
  assert (Browser.windows (WindowOps._remove_window r b)
          = default (Browser.windows b) (PyList.remove r (Browser.windows b))) as Hrm.
  { unfold WindowOps._remove_window. rewrite remove_is_delete_at_index.
    fold (Browser.windows b). by destruct (PyList.index r (Browser.windows b)). }
  assert (r ∉ default (Browser.windows b) (PyList.remove r (Browser.windows b))) as Hgone
    by (by apply remove_first_gone).
  split; [by rewrite windows_close, Hrm|].
  split; [rewrite windows_close; by apply removed_first_is_filter|]. split.
  - unfold WindowOps._remove_window at 1.
    fold (Browser.windows (WindowOps._remove_window r b)).
    rewrite (index_None (Browser.windows (WindowOps._remove_window r b)) r); [done|].
    by rewrite Hrm.
  - rewrite (windows_close r (Window.close r b)), windows_close.
    by rewrite (remove_absent _ r Hgone).
Qed.

Lemma close_and_remove_window_agree_witness :
  Browser.windows (Window.close 0%nat two_windows) = [1%nat]
  ∧ Browser.windows (Window.close 0%nat two_windows)
    = Browser.windows (WindowOps._remove_window 0%nat two_windows).
Proof.
  split; [reflexivity|].
  apply (close_and_remove_window_agree 0%nat two_windows). by_compute.
Defined.

(** ** New windows (browser.py) *)

(** X19.  [create_window] in a well-formed world, with a web view that is
    in no strip yet: exactly one window is created and appended to the
    window list; its strip holds that one view, as the current tab; every
    other window is as it was; and the world is well formed again. *)
Theorem create_window_adds_one_window_with_one_tab web_view title b :
  world_ok b → (∀ r, web_view ∉ views (Browser.tab_widget b r)) →
  isWebView web_view = true →
  let b' := (WindowOps.create_window web_view title b).1 in
  let r := (WindowOps.create_window web_view title b).2 in
  r = length (Browser.heap b)
  ∧ length (Browser.heap b') = S (length (Browser.heap b))
  ∧ Browser.windows b' = Browser.windows b ++ [r]
  ∧ views (Browser.tab_widget b' r) = [web_view]
  ∧ TabWidget.current_web_view (Browser.tab_widget b' r) = Some web_view
  ∧ (∀ r', r' ≠ r → Browser.window b' r' = Browser.window b r')
  ∧ world_ok b'.
Proof.
  intros (Hex & Hnd & Hlive) Hfresh Hweb b' r.
  set (child := length (Browser.heap b)).
  assert (r = child) as -> by done.
  assert (b' = Browser.update_tabs child (TabWidgetOps.create_tab web_view title)
                 (Browser.create_hidden_window b).1) as Hb' by done.
  assert (live (Browser.create_hidden_window b).1 child) as Hlc.
  { unfold live, Browser.create_hidden_window. cbn [fst Browser.heap].
    rewrite length_app. cbn [length]. unfold child. lia. }
  assert (Browser.tab_widget b' child
          = TabWidgetOps.create_tab web_view title TabWidget.empty) as Htw.
  { rewrite Hb', tab_widget_update_tabs_eq by done.
    unfold Browser.tab_widget. by rewrite window_create_new. }
  destruct (create_tab_spec web_view title TabWidget.empty consistent_empty)
    as (Hv & _ & _ & Hcur & Hc); [by left|by intros ?%elem_of_nil|done|].
  rewrite <-Htw in Hv, Hcur, Hc. cbn [views TabWidget.empty TabWidget._stack app] in Hv.
  assert (∀ r', r' ≠ child → Browser.window b' r' = Browser.window b r') as Hother.
  { intros r' Hr'. rewrite Hb'. unfold Browser.update_tabs.
    rewrite window_update_ne by done. by apply window_create_old. }
  assert (length (Browser.heap b') = S (length (Browser.heap b))) as Hheap.
  { rewrite Hb'. unfold Browser.update_tabs, Browser.update, Browser.create_hidden_window.
    cbn [fst Browser.heap]. rewrite length_alter, length_app. cbn [length]. lia. }
  split; [done|]. split; [done|]. split; [done|]. split; [done|]. split; [done|].
  split; [done|].
  assert (¬ live b child) as Hnl by (unfold live, child; lia).
  split; [|split].
  - apply (exclusive_after_handover b b' web_view child Hex).
    + intros r'. destruct (decide (r' = child)) as [->|Hr']; [done|].
      unfold Browser.tab_widget. rewrite Hother by done. apply Hex.
    + intros r' v. destruct (decide (r' = child)) as [->|Hr'].
      * rewrite Hv. intros ->%list_elem_of_singleton. by left.
      * unfold Browser.tab_widget. rewrite Hother by done. intros Hin. right.
        split; [|done]. intros ->. by apply (Hfresh r').
  - change (Browser.windows b') with (Browser.windows b ++ [child]).
    apply NoDup_app. split; [done|]. split; [|apply NoDup_singleton].
    intros r' Hr' ->%list_elem_of_singleton. rewrite Forall_forall in Hlive.
    by apply Hnl, Hlive.
  - change (Browser.windows b') with (Browser.windows b ++ [child]).
    apply Forall_app. split.
    + eapply Forall_impl; [done|]. intros r' Hr'. unfold live in *. lia.
    + apply Forall_singleton. unfold live. fold child. lia.
Qed.

Lemma create_window_adds_one_window_with_one_tab_witness :
  let b' := (WindowOps.create_window (mkWidget 20 true NullIcon) "" two_windows).1 in
  Browser.windows b' = [0%nat; 1%nat; 2%nat] ∧ world_ok b'.
Proof.
  intros b'. split; [reflexivity|].
  apply (create_window_adds_one_window_with_one_tab (mkWidget 20 true NullIcon) ""
           two_windows).
  - apply world_ok_compute; by_compute.
  - intros r. destruct (decide (r < 2)%nat) as [Hr|Hr].
    + destruct r as [|[|r]]; [by_compute|by_compute|lia].
    + rewrite tab_widget_not_live by (unfold live; cbn; lia). by intros ?%elem_of_nil.
  - reflexivity.
Defined.

(** ** [close_other_tabs] with an index past the end (tabwidget.py) *)

Lemma range_down_app start mid stop :
  stop <= mid <= start →
  TabWidgetOps.range_down start stop
  = TabWidgetOps.range_down start mid ++ TabWidgetOps.range_down mid stop.
Proof.
  intros Hr. unfold TabWidgetOps.range_down.
  replace (start - stop) with ((mid - stop) + (start - mid)) by lia.
  rewrite seqZ_app by lia. rewrite reverse_app.
  by replace (stop + 1 + (mid - stop)) with (mid + 1) by lia.
Qed.

Lemma elem_of_range_down i start stop :
  i ∈ TabWidgetOps.range_down start stop → stop < i <= start.
Proof.
  unfold TabWidgetOps.range_down. rewrite elem_of_reverse, elem_of_seqZ. lia.
Qed.

Lemma for_each_app l1 l2 body b :
  TabWidgetOps.for_each (l1 ++ l2) body b
  = match TabWidgetOps.for_each l1 body b with
    | Ok b' => TabWidgetOps.for_each l2 body b'
    | Raise e => Raise e
    end.
Proof.
  revert b. induction l1 as [|i l1 IH]; intros b; [done|]. cbn.
  destruct (body i b); [apply IH|done].
Qed.

Lemma for_each_close_tab_stale had_focus self (indices : list Z) b :
  (∀ i, i ∈ indices → TabWidget.web_view (Browser.tab_widget b self) i = None) →
  TabWidgetOps.for_each indices (λ i, TabWidgetOps.close_tab (had_focus i) self i) b = Ok b.
Proof.
  induction indices as [|i indices IH]; intros Hstale; [done|]. cbn.
  rewrite close_tab_stale by (apply Hstale; by left).
  apply IH. intros j Hj. apply Hstale. by right.
Qed.

(** Closing every tab from the last to the first. *)
Lemma close_tabs_all had_focus self (n : nat) b :
  live b self → strip_ok (Browser.tab_widget b self) → NoDup (Browser.windows b) →
  TabWidget.count (Browser.tab_widget b self) = Z.of_nat (S n) →
  ∃ b', TabWidgetOps.for_each (TabWidgetOps.range_down (Z.of_nat n) (-1))
          (λ i, TabWidgetOps.close_tab (had_focus i) self i) b = Ok b'
    ∧ views (Browser.tab_widget b' self) = []
    ∧ tabs (Browser.tab_widget b' self) = []
    ∧ BrowserWindow.closed (Browser.window b' self) = true
    ∧ (self ∉ Browser.windows b')
    ∧ (∀ r, r ≠ self → Browser.window b' r = Browser.window b r).
Proof.
  revert b. induction n as [|n IH]; intros b Hl Hok Hnd Hcount.
  - change (Z.of_nat 0) with 0. change (Z.of_nat 1) with 1 in Hcount.
    rewrite range_down_cons by lia. rewrite range_down_nil by lia.
    cbn [TabWidgetOps.for_each].
    destruct (close_tab_in_range (had_focus 0) self 0 b Hl Hok)
      as (Hret & Hv & Ht & _ & Hc1); [lia|].
    set (b1 := Browser.update_tabs self (TabWidget.removeTab 0) b) in *.
    rewrite Hret, Hcount. cbn [Z.eqb Pos.eqb].
    destruct (only_strip_changed_update_tabs self (TabWidget.removeTab 0) b Hl)
      as (Hws & Hlen & Hother & _). fold b1 in Hws, Hlen, Hother.
    pose proof (consistent_length _ (proj1 Hok)) as Hlenvt.
    rewrite count_views in Hcount.
    eexists. split; [done|]. rewrite tab_widget_close.
    split; [|split; [|split; [|split]]].
    + rewrite Hv. destruct (views (Browser.tab_widget b self)) as [|? [|? ?]]; cbn in *;
        done || lia.
    + rewrite Ht. destruct (tabs (Browser.tab_widget b self)) as [|? [|? ?]]; cbn in *;
        done || lia.
    + apply closed_close. unfold live in *. lia.
    + rewrite windows_close, Hws. by apply remove_first_gone.
    + intros r Hr. by rewrite window_close_ne, Hother.
  - rewrite range_down_cons by lia. cbn [TabWidgetOps.for_each].
    destruct (close_tab_step (had_focus (Z.of_nat (S n))) self (Z.of_nat (S n)) b)
      as (b1 & -> & (Hws & Hlen & Hother & _) & Hl1 & Hok1 & Hv1 & Ht1);
      [done|done|lia|lia|].
    assert (TabWidget.count (Browser.tab_widget b1 self) = Z.of_nat (S n)) as Hc1.
    { rewrite count_views in *. rewrite Hv1.
      rewrite length_delete by (apply lookup_lt_is_Some_2; lia). lia. }
    destruct (IH b1 Hl1 Hok1) as (b' & Hret & Hv' & Ht' & Hcl & Hgone & Hother');
      [by rewrite Hws|done|].
    exists b'. replace (Z.of_nat (S n) - 1) with (Z.of_nat n) by lia.
    split; [done|]. split; [done|]. split; [done|]. split; [done|]. split; [done|].
    intros r Hr. by rewrite Hother', Hother.
Qed.

(** X20.  [close_other_tabs] with an index, a C [int], at or past the end
    of a non-empty intact strip keeps no tab: the first loop has nothing to
    do, the second closes every tab from the last to the first, and with
    the last one the window is closed and leaves the window list; other
    windows are untouched. *)
Theorem close_other_tabs_past_the_end_closes_the_window had_focus self index b :
  live b self → strip_ok (Browser.tab_widget b self) → NoDup (Browser.windows b) →
  0 < TabWidget.count (Browser.tab_widget b self) <= index → c_int index →
  ∃ b', TabWidgetOps.close_other_tabs had_focus self index b = Ok b'
    ∧ views (Browser.tab_widget b' self) = []
    ∧ BrowserWindow.closed (Browser.window b' self) = true
    ∧ (self ∉ Browser.windows b')
    ∧ (∀ r, r ≠ self → Browser.window b' r = Browser.window b r).
Proof.
  intros Hl Hok Hnd Hr _.
  set (n := TabWidget.count (Browser.tab_widget b self)) in *.
  destruct (close_tabs_all had_focus self (Z.to_nat (n - 1)) b Hl Hok Hnd)
    as (b' & Hret & Hv & _ & Hcl & Hgone & Hother); [fold n; lia|].
  rewrite Z2Nat.id in Hret by lia.
  exists b'. split; [|done].
  unfold TabWidgetOps.close_other_tabs. fold n.
  rewrite range_down_nil by lia. cbn [TabWidgetOps.for_each].
  rewrite (range_down_app (index - 1) (n - 1) (-1)) by lia.
  rewrite for_each_app, for_each_close_tab_stale; [done|].
  intros i Hi%elem_of_range_down.
  unfold TabWidget.web_view, TabWidget.widget.
  rewrite (proj2 (stack_widget_None _ _)); [done|].
  right. fold (views (Browser.tab_widget b self)). rewrite <-count_views. fold n. lia.
Qed.

Lemma close_other_tabs_past_the_end_closes_the_window_witness :
  ∃ b', TabWidgetOps.close_other_tabs (λ _, false) 0%nat 5 three_tabs = Ok b'
        ∧ views (Browser.tab_widget b' 0%nat) = [].
Proof.
  destruct (close_other_tabs_past_the_end_closes_the_window (λ _, false) 0%nat 5 three_tabs)
    as (b' & Hret & Hv & _).
  - by_compute.
  - split; [by apply consistent_compute|]. split; [right; by_compute|by_compute].
  - by_compute.
  - by_compute.
  - by_compute.
  - exists b'. by split.
Defined.

(** ** Closing the tab of a given view (tabwidget.py, browserwindow.py) *)

Lemma index_lookup_NoDup {A} `{EqDecision A} (l : list A) (x : A) (i : nat) :
  NoDup l → l !! i = Some x → PyList.index x l = Some i.
Proof.
  intros Hnd Hi.
  destruct (index_is_Some l x) as [j Hj]; [by eapply list_elem_of_lookup_2|].
  pose proof (index_Some_lookup _ _ _ Hj) as Hj'.
  by rewrite Hj, (NoDup_lookup _ _ _ _ Hnd Hj' Hi).
Qed.

(** X21.  [_close_current_tab] on a live window whose strip is intact and
    shows a page: the call returns, the page shown is the one that leaves
    the strip and nothing else does; a window left without tabs is closed
    and out of the window list, otherwise the current index is on a tab
    again. *)
Theorem close_current_tab_removes_the_shown_page had_focus self b view :
  live b self → NoDup (Browser.windows b) → strip_ok (Browser.tab_widget b self) →
  TabWidget.current_web_view (Browser.tab_widget b self) = Some view →
  let tw := Browser.tab_widget b self in
  ∃ b', WindowOps._close_current_tab had_focus self b = Ok b'
    ∧ views (Browser.tab_widget b' self)
      = delete (Z.to_nat (TabWidget.currentIndex tw)) (views tw)
    ∧ views tw !! Z.to_nat (TabWidget.currentIndex tw) = Some view
    ∧ (view ∉ views (Browser.tab_widget b' self))
    ∧ (TabWidget.count tw = 1 →
         BrowserWindow.closed (Browser.window b' self) = true
         ∧ self ∉ Browser.windows b')
    ∧ (TabWidget.count tw ≠ 1 →
         Browser.windows b' = Browser.windows b
         ∧ 0 <= TabWidget.currentIndex (Browser.tab_widget b' self)
             < TabWidget.count (Browser.tab_widget b' self)).
Proof.
  intros Hl Hnd Hok Hcur. cbv zeta.
  set (tw := Browser.tab_widget b self) in *.
  pose proof Hcur as [Hwid _]%web_view_Some.
  apply stack_widget_Some in Hwid as [H0 Hview].
  change (views tw !! Z.to_nat (TabWidget.currentIndex tw) = Some view) in Hview.
  pose proof (lookup_lt_Some _ _ _ Hview) as Hlt.
  assert (0 <= TabWidget.currentIndex tw < TabWidget.count tw) as Hr
    by (rewrite count_views; lia).
  destruct (close_tab_in_range had_focus self (TabWidget.currentIndex tw) b Hl Hok Hr)
    as (Hret & Hv & _ & Hok1 & Hc1).
  set (b1 := Browser.update_tabs self (TabWidget.removeTab (TabWidget.currentIndex tw)) b) in *.
  destruct (only_strip_changed_update_tabs self
              (TabWidget.removeTab (TabWidget.currentIndex tw)) b Hl)
    as (Hws & Hlen & _ & _). fold b1 in Hws, Hlen.
  assert (live b1 self) as Hl1 by (unfold live in *; lia).
  assert (view ∉ views (Browser.tab_widget b1 self)) as Hgone.
  { rewrite Hv. apply not_elem_of_delete_NoDup; [apply Hok|done]. }
  eexists. split; [exact Hret|]. fold tw.
  destruct (Z.eqb_spec (TabWidget.count tw) 1) as [Hone|Hmany].
  - rewrite tab_widget_close. split; [done|]. split; [done|]. split; [done|].
    split; [|done]. intros _. split; [by apply closed_close|].
    rewrite windows_close, Hws. by apply remove_first_gone.
  - split; [done|]. split; [done|]. split; [done|]. split; [done|].
    intros _. split; [done|]. apply strip_ok_current_index; [done|]. fold tw in Hc1. lia.
Qed.

Lemma close_current_tab_removes_the_shown_page_witness :
  ∃ b', WindowOps._close_current_tab true 0%nat three_tabs = Ok b'
        ∧ length (views (Browser.tab_widget b' 0%nat)) = 2%nat.
Proof.
  destruct (close_current_tab_removes_the_shown_page true 0%nat three_tabs
              (default view_a (TabWidget.current_web_view (Browser.tab_widget three_tabs 0%nat))))
    as (b' & Hret & Hv & _).
  - by_compute.
  - by_compute.
  - split; [by apply consistent_compute|]. split; [right; by_compute|by_compute].
  - reflexivity.
  - exists b'. split; [exact Hret|]. rewrite Hv. reflexivity.
Defined.

(** X22.  [_window_close_requested(view)] in a window that is no developer
    tools window and whose strip is intact: a view that is no page of the
    strip changes nothing; for a view of the strip the call returns and
    that view's tab, whatever its position, is the one that goes. *)
Theorem window_close_requested_closes_that_view had_focus self view b :
  live b self → strip_ok (Browser.tab_widget b self) →
  let tw := Browser.tab_widget b self in
  (view ∉ views tw →
     TabWidgetOps._window_close_requested false had_focus self view b = Ok b)
  ∧ (∀ i : nat, views tw !! i = Some view →
     ∃ b', TabWidgetOps._window_close_requested false had_focus self view b = Ok b'
       ∧ views (Browser.tab_widget b' self) = delete i (views tw)
       ∧ tabs (Browser.tab_widget b' self) = delete i (tabs tw)
       ∧ (view ∉ views (Browser.tab_widget b' self))
       ∧ (∀ r, r ≠ self → Browser.window b' r = Browser.window b r)).
Proof.
  intros Hl Hok tw. unfold TabWidgetOps._window_close_requested, TabWidgetOps.indexOf.
  fold tw. fold (views tw). split.
  - intros Hout. by rewrite (index_None _ _ Hout).
  - intros i Hview. pose proof Hok as ((_ & Hnd) & _ & _). fold tw in Hnd.
    rewrite (index_lookup_NoDup _ _ _ Hnd Hview).
    pose proof (lookup_lt_Some _ _ _ Hview) as Hlt.
    destruct (Z.leb_spec 0 (Z.of_nat i)) as [_|]; [|lia].
    destruct (close_tab_in_range had_focus self (Z.of_nat i) b Hl Hok)
      as (Hret & Hv & Ht & _ & _); [fold tw; rewrite count_views; lia|].
    set (b1 := Browser.update_tabs self (TabWidget.removeTab (Z.of_nat i)) b) in *.
    destruct (only_strip_changed_update_tabs self (TabWidget.removeTab (Z.of_nat i)) b Hl)
      as (_ & _ & Hother & _). fold b1 in Hother.
    rewrite Nat2Z.id in Hv, Ht. fold tw in Hv, Ht.
    eexists. split; [exact Hret|]. fold tw.
    destruct (Z.eqb_spec (TabWidget.count tw) 1).
    + rewrite tab_widget_close. split; [done|]. split; [done|]. split.
      * rewrite Hv. by apply not_elem_of_delete_NoDup.
      * intros r Hr. by rewrite window_close_ne, Hother.
    + split; [done|]. split; [done|]. split; [|done].
      rewrite Hv. by apply not_elem_of_delete_NoDup.
Qed.

Lemma window_close_requested_closes_that_view_witness :
  ∃ b', TabWidgetOps._window_close_requested false true 0%nat view_b three_tabs = Ok b'
        ∧ views (Browser.tab_widget b' 0%nat) = [view_a; view_c].
Proof.
  destruct (window_close_requested_closes_that_view true 0%nat view_b three_tabs)
    as [_ Hin].
  - by_compute.
  - split; [by apply consistent_compute|]. split; [right; by_compute|by_compute].
  - destruct (Hin 1%nat) as (b' & Hret & Hv & _); [reflexivity|].
    exists b'. split; [exact Hret|]. rewrite Hv. reflexivity.
Defined.

(** ** The width left for the tabs (dragtabbar.py) *)

(** X23.  When the bar, less the plus button, the scroll buttons, the frame
    and the 8 pixel gap, has room for every tab at the minimum width, then
    the tabs at the width [_recompute_uniform_width] decides on fit in the
    bar next to all of these. *)
Theorem tabs_fit_beside_the_plus_button (count width plus_w scroll_w m : Z) :
  let n := Z.max 1 count in
  let avail := DragTabBarLayout._available_width_for_tabs width plus_w scroll_w m in
  n * DragTabBarLayout.MIN_TAB_W <= width - plus_w - scroll_w - m * 2 - 8 →
  n * DragTabBarLayout.target_width count avail + plus_w + scroll_w + m * 2 + 8 <= width.
Proof.
  intros n avail Hroom. unfold DragTabBarLayout.MIN_TAB_W in Hroom.
  assert (0 < n) as Hn by (unfold n; lia).
  assert (avail = width - plus_w - scroll_w - m * 2 - 8) as Havail
    by (unfold avail, DragTabBarLayout._available_width_for_tabs; lia).
  unfold DragTabBarLayout.target_width. fold n.
  unfold DragTabBarLayout.MIN_TAB_W, DragTabBarLayout.BASE_TAB_W.
  destruct (Z.leb_spec (n * 160) avail) as [Hfit|Hnofit]; [lia|].
  assert (8 <= avail / n) as Hq by (apply Z.div_le_lower_bound; lia).
  pose proof (Z.mul_div_le avail n Hn) as Hle.
  replace (8 `max` (avail / n)) with (avail / n) by lia. lia.
Qed.

Lemma tabs_fit_beside_the_plus_button_witness :
  Z.max 1 12 * DragTabBarLayout.target_width 12
                 (DragTabBarLayout._available_width_for_tabs 1000 28 0 2)
    + 28 + 0 + 2 * 2 + 8 <= 1000.
Proof.
  apply (tabs_fit_beside_the_plus_button 12 1000 28 0 2).
  unfold DragTabBarLayout.MIN_TAB_W. lia.
Defined.
